(** * Riftfound CloudFront log analyzer: [scripts/metrics/analyze-logs.py]

    A shallow embedding of the parsing and aggregation pipeline
    ([parse_log_line], [get_visitor_id], [load_logs], [analyze_logs]), of
    the table renderer ([format_table]) and of the command ([main]), with
    the properties of the pipeline that the specification states and
    further properties of the code.

    Conventions of the embedding.
    - A Python [str] is a list of Unicode code points ([list N]).
    - A Python [int] is a [Z]; [len] is [Z.of_nat (length _)].
    - A function that can raise returns a [result]; an exception that nobody
      catches propagates through [≫=].  The renderer and the command, which
      raise further built-in exceptions, return a [run].
    - A log record (a [dict] from field name to field value, whose order is
      never observed) is a [gmap str str]; the counting dictionaries and the
      report, whose insertion order is observable, are association lists.
    - A [set] is a [gset]. *)

From Stdlib Require Import ZArith NArith Ascii String Sorted Permutation.
From stdpp Require Import base option list gmap.

Local Open Scope Z_scope.

(** ** Part I: the embedding *)

(** *** Strings *)

Abbreviation str := (list N).

(** String literals of the source, as code points. *)
Definition py (s : string) : str :=
  (fun a : ascii => N_of_ascii a) <$> list_ascii_of_string s.
Arguments py s%_string.

Definition len {A} (l : list A) : Z := Z.of_nat (length l).

(** [s.startswith(p)] *)
Fixpoint startswith (s p : str) {struct p} : bool :=
  match p, s with
  | [], _ => true
  | _ :: _, [] => false
  | c :: p', d :: s' => (c =? d)%N && startswith s' p'
  end.

(** [needle in hay] *)
Fixpoint contains (needle hay : str) : bool :=
  startswith hay needle ||
  match hay with
  | [] => false
  | _ :: hay' => contains needle hay'
  end.

(** The code points on which [str.isspace] holds; [str.strip()] without
    argument removes exactly these from both ends. *)
Definition isspace (c : N) : bool :=
  ((9 <=? c) && (c <=? 13) || (28 <=? c) && (c <=? 32) ||
   (c =? 133) || (c =? 160) || (c =? 5760) ||
   (8192 <=? c) && (c <=? 8202) || (c =? 8232) || (c =? 8233) ||
   (c =? 8239) || (c =? 8287) || (c =? 12288))%N.

Fixpoint take_while {A} (p : A → bool) (l : list A) : list A :=
  match l with
  | [] => []
  | x :: l' => if p x then x :: take_while p l' else []
  end.

Fixpoint drop_while {A} (p : A → bool) (l : list A) : list A :=
  match l with
  | [] => []
  | x :: l' => if p x then drop_while p l' else l
  end.

Definition lstrip (s : str) : str := drop_while isspace s.
Definition rstrip (s : str) : str := reverse (drop_while isspace (reverse s)).
(** [s.strip()] *)
Definition strip (s : str) : str := rstrip (lstrip s).

(** [s.split(sep)] for a one-character separator: never the empty list. *)
Fixpoint split (s : str) (sep : N) : list str :=
  match s with
  | [] => [[]]
  | c :: s' =>
      if (c =? sep)%N then [] :: split s' sep
      else match split s' sep with
           | p :: ps => (c :: p) :: ps
           | [] => [[c]]
           end
  end.

(** Lexicographic comparison of strings by code point: [a < b]. *)
Fixpoint str_lt (a b : str) : bool :=
  match a, b with
  | _, [] => false
  | [], _ :: _ => true
  | c :: a', d :: b' => (c <? d)%N || (c =? d)%N && str_lt a' b'
  end.

(** *** Exceptions *)

Inductive exn : Type :=
  | KeyError (key : str)
  | IndexError
  | OverflowError
  | ValueError
  | OSError.

Inductive result (A : Type) : Type :=
  | Ok (a : A)
  | Raise (e : exn).
Arguments Ok {A} a.
Arguments Raise {A} e.

Global Instance result_ret : MRet result := @Ok.
Global Instance result_bind : MBind result := λ A B f m,
  match m with
  | Ok a => f a
  | Raise e => Raise e
  end.
Global Instance result_fmap : FMap result := λ A B f m,
  match m with
  | Ok a => Ok (f a)
  | Raise e => Raise e
  end.

(** A list comprehension with a fallible condition. *)
Fixpoint filterM {A} (p : A → result bool) (l : list A) : result (list A) :=
  match l with
  | [] => Ok []
  | x :: l' =>
      b ← p x;
      k ← filterM p l';
      Ok (if b : bool then x :: k else k)
  end.

(** A [for] loop that threads a state and can raise. *)
Fixpoint foldlM {A B} (f : A → B → result A) (a : A) (l : list B) : result A :=
  match l with
  | [] => Ok a
  | x :: l' => a' ← f a x; foldlM f a' l'
  end.

(** [l[i]] for [0 <= i] *)
Definition index {A} (l : list A) (i : nat) : result A :=
  match l !! i with
  | Some x => Ok x
  | None => Raise IndexError
  end.

(** *** Record Parser *)

Definition FIELDS : list str :=
  [ py "date"; py "time"; py "edge_location"; py "bytes"; py "client_ip";
    py "method"; py "host"; py "uri_stem"; py "status"; py "referer";
    py "user_agent"; py "query_string"; py "cookie"; py "edge_result_type";
    py "request_id"; py "host_header"; py "protocol"; py "cs_bytes";
    py "time_taken"; py "forwarded_for"; py "ssl_protocol"; py "ssl_cipher";
    py "edge_response_result_type"; py "protocol_version"; py "fle_status";
    py "fle_encrypted_fields"; py "c_port"; py "time_to_first_byte";
    py "edge_detailed_result_type"; py "content_type"; py "content_len";
    py "range_start"; py "range_end" ].

Abbreviation record := (gmap str str).

Definition TAB : N := 9.

(** One step of the comprehension
    [{FIELDS[i]: parts[i] if i < len(parts) else '' for i in range(len(FIELDS))}]. *)
Definition parse_field (parts : list str) (d : record) (i : nat) : result record :=
  k ← index FIELDS i;
  v ← (if (i <? length parts)%nat then index parts i else Ok []);
  Ok (<[k := v]> d).

Definition parse_log_line (line : str) : result (option record) :=
  if startswith line (py "#") then Ok None
  else
    let parts := split (strip line) TAB in
    if len parts <? 10 then Ok None
    else Some <$> foldlM (parse_field parts) ∅ (seq 0 (length FIELDS)).

(** [r[k]] on a record *)
Definition getitem (r : record) (k : str) : result str :=
  match r !! k with
  | Some v => Ok v
  | None => Raise (KeyError k)
  end.

(** *** Visitor Identity Resolver *)

(** The character class [[a-f0-9-]]. *)
Definition is_hexdash (c : N) : bool :=
  ((97 <=? c) && (c <=? 102) || (48 <=? c) && (c <=? 57) || (c =? 45))%N.

(** [mid=([a-f0-9-]+)] matched at the start of [s]: group 1.  The class is
    greedy and nothing follows it, so the group is the longest run. *)
Definition mid_match_here (s : str) : option str :=
  if startswith s (py "mid=") then
    match take_while is_hexdash (drop 4 s) with
    | [] => None
    | g => Some g
    end
  else None.

(** [re.search(r'mid=([a-f0-9-]+)', s)]: the leftmost position that matches. *)
Fixpoint mid_search (s : str) : option str :=
  match mid_match_here s with
  | Some g => Some g
  | None =>
      match s with
      | [] => None
      | _ :: s' => mid_search s'
      end
  end.

Definition get_visitor_id (r : record) : result str :=
  let cookie := default [] (r !! py "cookie") in
  match mid_search cookie with
  | Some g => Ok g
  | None => getitem r (py "client_ip")
  end.

(** *** Log Loader *)

(** The part of Python's [datetime] that line 63 uses.  The clock value
    [datetime.now()] is an argument of [load_logs]. *)
Class DateTime := {
  datetime : Type;
  (** [dt - timedelta(days=n)]; [OverflowError] outside the supported range *)
  minus_days : datetime → Z → result datetime;
  (** [dt.strftime('%Y-%m-%d')] *)
  strftime_Ymd : datetime → str
}.

(** A directory entry as [load_logs] observes it: its [suffix], [is_file()]
    and [name], the lines that iterating the opened file yields, and the
    exception, if any, that opening or reading ends with. *)
Record dir_entry := {
  entry_suffix : str;
  entry_is_file : bool;
  entry_name : str;
  entry_lines : list str;
  entry_error : option exn
}.

(** Truthiness of [str] and [dict]. *)
Definition str_truthy (s : str) : bool :=
  match s with [] => false | _ => true end.
Definition dict_truthy (r : record) : bool := negb (bool_decide (r = ∅)).

(** [cutoff_date and record['date'] < cutoff_date] *)
Definition older_than (cutoff_date : option str) (r : record) : result bool :=
  match cutoff_date with
  | None => Ok false
  | Some c =>
      if str_truthy c then (d ← getitem r (py "date"); Ok (str_lt d c))
      else Ok false
  end.

(** The body of [for line in f]. *)
Definition load_line (cutoff_date : option str) (records : list record)
    (line : str) : result (list record) :=
  rec ← parse_log_line line;
  match rec with
  | None => Ok records
  | Some r =>
      if dict_truthy r then
        skip ← older_than cutoff_date r;
        Ok (if skip : bool then records else records ++ [r])
      else Ok records
  end.

(** The [for] loop over the lines inside [try]: an exception leaves the
    records appended so far in place. *)
Fixpoint load_lines (cutoff_date : option str) (records : list record)
    (lines : list str) : list record * option exn :=
  match lines with
  | [] => (records, None)
  | line :: rest =>
      match load_line cutoff_date records line with
      | Ok records' => load_lines cutoff_date records' rest
      | Raise e => (records, Some e)
      end
  end.

(** Whether an opener is chosen for the entry (lines 66 to 71): [gzip.open]
    for the suffix [.gz], [open] for a regular file whose name does not
    start with a dot; other entries are skipped. *)
Definition is_read (f : dir_entry) : bool :=
  bool_decide (entry_suffix f = py ".gz")
  || entry_is_file f && negb (startswith (entry_name f) (py ".")).

(** One iteration of [for log_file in logs_dir.glob('*')]; the second
    component collects the warnings written to stderr. *)
Definition load_file (cutoff_date : option str)
    (st : list record * list (str * exn)) (f : dir_entry)
    : list record * list (str * exn) :=
  let '(records, warnings) := st in
  if is_read f then
    match load_lines cutoff_date records (entry_lines f) with
    | (records', Some e) => (records', warnings ++ [(entry_name f, e)])
    | (records', None) =>
        match entry_error f with
        | Some e => (records', warnings ++ [(entry_name f, e)])
        | None => (records', warnings)
        end
    end
  else st.

Definition load_logs `{DateTime} (now : datetime) (logs_dir : list dir_entry)
    (days : option Z) : result (list record * list (str * exn)) :=
  cutoff_date ←
    match days with
    | None => Ok None
    | Some n =>
        if n =? 0 then Ok None
        else (dt ← minus_days now n; Ok (Some (strftime_Ymd dt)))
    end;
  Ok (foldl (load_file cutoff_date) ([], []) logs_dir).

(** *** Metrics Aggregator *)

#[local] Unset Elimination Schemes.
(** The values a report is made of ([dict], [list], [int], [str], [None]). *)
Inductive pyval : Type :=
  | PNone
  | PInt (z : Z)
  | PStr (s : str)
  | PList (l : list pyval)
  | PDict (items : list (str * pyval)).
#[local] Set Elimination Schemes.

(** [d[k]] on a report value, [None] when [d] is no dict or has no key [k]. *)
Fixpoint assoc {V} (k : str) (items : list (str * V)) : option V :=
  match items with
  | [] => None
  | (k', v) :: items' => if decide (k' = k) then Some v else assoc k items'
  end.

Definition pget (k : str) (v : pyval) : option pyval :=
  match v with
  | PDict items => assoc k items
  | _ => None
  end.

(** [d[k] = f(d[k])] on a [defaultdict] whose factory returns [dflt]: an
    existing key keeps its place, a new key goes last. *)
Fixpoint dict_update {V} (dflt : V) (f : V → V) (d : list (str * V)) (k : str)
    : list (str * V) :=
  match d with
  | [] => [(k, f dflt)]
  | (k', v) :: d' =>
      if decide (k' = k) then (k', f v) :: d'
      else (k', v) :: dict_update dflt f d' k
  end.

(** [d[k] += 1] on a [defaultdict(int)] *)
Definition incr (d : list (str * Z)) (k : str) : list (str * Z) :=
  dict_update 0 (λ n, n + 1) d k.

(** [sorted]: Python's sort is stable and compares with [<] only.  On the
    items of a dict a stable sort is determined by its input and order (see
    [stable_sort_unique]), so it is given here as insertion from the right. *)
Fixpoint sorted_insert {A} (lt : A → A → bool) (x : A) (l : list A) : list A :=
  match l with
  | [] => [x]
  | y :: l' => if lt y x then y :: sorted_insert lt x l' else x :: l
  end.

Definition sorted {A} (lt : A → A → bool) (l : list A) : list A :=
  foldr (sorted_insert lt) [] l.

(** [key=lambda x: -x[1]] *)
Definition neg_count (x : str * Z) : Z := - x.2.
Definition by_neg_count (x y : str * Z) : bool := neg_count x <? neg_count y.

(** The order of the [(date, data)] tuples of [daily_traffic.items()].  The
    dates are the keys of a dict, hence pairwise distinct, and the comparison
    of two tuples is decided by their dates. *)
Definition by_date {V} (x y : str * V) : bool := str_lt x.1 y.1.

(** [min] and [max] of a generator of strings. *)
Definition str_min (l : list str) : result str :=
  match l with
  | [] => Raise ValueError
  | x :: l' => Ok (foldl (λ m y, if str_lt y m then y else m) x l')
  end.
Definition str_max (l : list str) : result str :=
  match l with
  | [] => Raise ValueError
  | x :: l' => Ok (foldl (λ m y, if str_lt m y then y else m) x l')
  end.

(** [$]: the end of the string, or just before a final line feed. *)
Definition at_end (s : str) : bool :=
  match s with
  | [] => true
  | [c] => (c =? 10)%N
  | _ => false
  end.

(** [re.compile(r'^/events?/[a-f0-9-]+$').match(s)] *)
Definition event_pattern_match (s : str) : bool :=
  startswith s (py "/event") &&
  let s1 := drop 6 s in
  let s2 := if startswith s1 (py "s") then drop 1 s1 else s1 in
  startswith s2 (py "/") &&
  let s3 := drop 1 s2 in
  str_truthy (take_while is_hexdash s3) && at_end (drop_while is_hexdash s3).

(** [/(visit|register)$] matched at the start of [s] *)
Definition visit_match_here (s : str) : bool :=
  startswith s (py "/visit") && at_end (drop 6 s)
  || startswith s (py "/register") && at_end (drop 9 s).

(** [re.compile(r'/(visit|register)$').search(s)] *)
Fixpoint visit_pattern_search (s : str) : bool :=
  visit_match_here s ||
  match s with
  | [] => false
  | _ :: s' => visit_pattern_search s'
  end.

(** [str.lower] follows the Unicode case mapping, which is taken as given. *)
Class StrLower := str_lower : str → str.

(** The [if]/[elif] chain on the user agent (lines 143 to 155). *)
Definition classify_browser `{StrLower} (ua : str) : str :=
  if contains (py "Chrome") ua then py "Chrome"
  else if contains (py "Firefox") ua then py "Firefox"
  else if contains (py "Safari") ua && negb (contains (py "Chrome") ua)
       then py "Safari"
  else if contains (py "Edge") ua then py "Edge"
  else if contains (py "bot") (str_lower ua)
          || contains (py "crawler") (str_lower ua)
       then py "Bot"
  else py "Other".

(** The value of [daily_traffic[date]]. *)
Record day := { requests : Z; visitors : gset str }.

Definition day_add (v : str) (d : day) : day :=
  {| requests := requests d + 1; visitors := {[ v ]} ∪ visitors d |}.

(** [set(get_visitor_id(r) for r in rs)] *)
Definition visitor_set (rs : list record) : result (gset str) :=
  list_to_set <$> mapM get_visitor_id rs.

(** [[r for r in rs if p(r[k])]] *)
Definition select (k : str) (p : str → bool) (rs : list record)
    : result (list record) :=
  filterM (λ r, v ← getitem r k; Ok (p v)) rs.

(** The counting loops [for r in records: counts[key(r)] += 1]. *)
Definition count_by (key : record → result str) (rs : list record)
    : result (list (str * Z)) :=
  foldlM (λ d r, k ← key r; Ok (incr d k)) [] rs.

Definition traffic_by_day (rs : list record) : result (list (str * day)) :=
  foldlM (λ d r,
    date ← getitem r (py "date");
    v ← get_visitor_id r;
    Ok (dict_update {| requests := 0; visitors := ∅ |} (day_add v) d date))
    [] rs.

Definition size_int (s : gset str) : pyval := PInt (Z.of_nat (size s)).
Definition len_int {A} (l : list A) : pyval := PInt (len l).

Definition total_unique {A} (l : list A) (s : gset str) : pyval :=
  PDict [(py "total", len_int l); (py "unique", size_int s)].

Definition counted (name : str) (x : str * Z) : pyval :=
  PDict [(name, PStr x.1); (py "count", PInt x.2)].

Definition analyze_logs `{StrLower} (records : list record) : result pyval :=
  match records with
  | [] => Ok (PDict [(py "error", PStr (py "No log records found"))])
  | _ :: _ =>
    let total_requests := len records in
    unique_visitors ← visitor_set records;
    successful ←
      select (py "status")
        (λ s, startswith s (py "2") || startswith s (py "3")) records;
    homepage ←
      select (py "uri_stem")
        (λ u, bool_decide (u = py "/") || bool_decide (u = py "/index.html"))
        records;
    homepage_visitors ← visitor_set homepage;
    event_pages ← select (py "uri_stem") event_pattern_match records;
    event_page_visitors ← visitor_set event_pages;
    unique_events ←
      list_to_set (C := gset str)
        <$> mapM (λ r, getitem r (py "uri_stem")) event_pages;
    api_calls ←
      select (py "uri_stem") (λ u, startswith u (py "/api/")) records;
    calendar_api ←
      select (py "uri_stem") (λ u, bool_decide (u = py "/api/events")) api_calls;
    geocode_api ←
      select (py "uri_stem")
        (λ u, startswith u (py "/api/events/geocode")) api_calls;
    visit_clicks ← select (py "uri_stem") visit_pattern_search records;
    visit_click_visitors ← visitor_set visit_clicks;
    daily_traffic ← traffic_by_day records;
    let daily_stats :=
      (λ x : str * day,
         (x.1, PDict [(py "requests", PInt (requests x.2));
                      (py "unique_visitors", size_int (visitors x.2))]))
        <$> sorted by_date daily_traffic in
    page_counts ← count_by (λ r, getitem r (py "uri_stem")) records;
    let top_pages := take 15 (sorted by_neg_count page_counts) in
    edge_counts ← count_by (λ r, getitem r (py "edge_location")) records;
    let top_edges := take 10 (sorted by_neg_count edge_counts) in
    browser_counts ←
      count_by (λ r, ua ← getitem r (py "user_agent"); Ok (classify_browser ua))
        records;
    let browsers := sorted by_neg_count browser_counts in
    dates ← mapM (λ r, getitem r (py "date")) records;
    start ← str_min dates;
    dates' ← mapM (λ r, getitem r (py "date")) records;
    end_ ← str_max dates';
    Ok (PDict [
      (py "summary", PDict [
         (py "total_requests", PInt total_requests);
         (py "unique_visitors", size_int unique_visitors);
         (py "successful_requests", len_int successful);
         (py "date_range", PDict [(py "start", PStr start);
                                  (py "end", PStr end_)])]);
      (py "page_views", PDict [
         (py "homepage", total_unique homepage homepage_visitors);
         (py "event_details", total_unique event_pages event_page_visitors);
         (py "unique_events_viewed", size_int unique_events)]);
      (py "api_usage", PDict [
         (py "total_api_calls", len_int api_calls);
         (py "calendar_requests", len_int calendar_api);
         (py "location_searches", len_int geocode_api)]);
      (py "external_clicks", PDict [
         (py "visit_store_clicks",
            total_unique visit_clicks visit_click_visitors);
         (py "note",
            match visit_clicks with
            | [] => PStr (py "Requires /visit tracking endpoint")
            | _ :: _ => PNone
            end)]);
      (py "daily_stats", PDict daily_stats);
      (py "top_pages", PList (counted (py "path") <$> top_pages));
      (py "top_edge_locations",
         PList (counted (py "location") <$> top_edges));
      (py "browsers", PDict ((λ x : str * Z, (x.1, PInt x.2)) <$> browsers))])
  end.

(** *** Library instances used to run the model

    [ascii_lower] agrees with [str.lower] on ASCII text.  [gregorian] follows
    CPython's [datetime]: a value is the proleptic Gregorian ordinal of its
    date (day 1 is 0001-01-01) with the microsecond of the day, the range is
    0001-01-01 to 9999-12-31, and [%Y] prints the year without padding, as
    the C library does on Linux. *)

Definition ascii_lower : StrLower :=
  fmap (λ c : N, if ((65 <=? c) && (c <=? 90))%N then (c + 32)%N else c).

Definition days_before_month (m : Z) : Z :=
  nth (Z.to_nat m) [-1; 0; 31; 59; 90; 120; 151; 181; 212; 243; 273; 304; 334] 0.
Definition days_in_month (m : Z) : Z :=
  nth (Z.to_nat m) [-1; 31; 28; 31; 30; 31; 30; 31; 31; 30; 31; 30; 31] 0.

Definition ord2ymd (ordinal : Z) : Z * Z * Z :=
  let n := ordinal - 1 in
  let n400 := n / 146097 in
  let n := n mod 146097 in
  let year := n400 * 400 + 1 in
  let n100 := n / 36524 in
  let n := n mod 36524 in
  let n4 := n / 1461 in
  let n := n mod 1461 in
  let n1 := n / 365 in
  let n := n mod 365 in
  let year := year + n100 * 100 + n4 * 4 + n1 in
  if (n1 =? 4) || (n100 =? 4) then (year - 1, 12, 31)
  else
    let leapyear := (n1 =? 3) && (negb (n4 =? 24) || (n100 =? 3)) in
    let month := Z.shiftr (n + 50) 5 in
    let preceding :=
      days_before_month month + (if (2 <? month) && leapyear then 1 else 0) in
    if n <? preceding then
      let month := month - 1 in
      let preceding :=
        preceding
        - (days_in_month month + (if (month =? 2) && leapyear then 1 else 0)) in
      (year, month, n - preceding + 1)
    else (year, month, n - preceding + 1).

Definition digit (n : Z) : N := Z.to_N (48 + n mod 10).
Definition dec2 (n : Z) : str := [digit (n / 10); digit n].
Fixpoint dec (fuel : nat) (n : Z) (acc : str) : str :=
  match fuel with
  | O => acc
  | S fuel' =>
      if n <? 10 then digit n :: acc else dec fuel' (n / 10) (digit n :: acc)
  end.

Definition gregorian : DateTime := {|
  datetime := Z * Z;
  minus_days dt n :=
    if (n <? -999999999) || (999999999 <? n) then Raise OverflowError
    else
      let o := dt.1 - n in
      if (o <? 1) || (3652059 <? o) then Raise OverflowError else Ok (o, dt.2);
  strftime_Ymd dt :=
    let '(y, m, d) := ord2ymd dt.1 in
    dec 4 y [] ++ py "-" ++ dec2 m ++ py "-" ++ dec2 d
|}.

(** *** Report Renderer *)

(** The exceptions of the renderer and of the command line: those of the
    pipeline, the built-in ones that subscripting and formatting raise, and
    the exit of the process. *)
Inductive error : Type :=
  | Exn (e : exn)
  | TypeError
  | AttributeError
  | ZeroDivisionError
  | SystemExit (code : Z).

Inductive run (A : Type) : Type :=
  | Done (a : A)
  | Fail (e : error).
Arguments Done {A} a.
Arguments Fail {A} e.

Global Instance run_ret : MRet run := @Done.
Global Instance run_bind : MBind run := λ A B f m,
  match m with
  | Done a => f a
  | Fail e => Fail e
  end.
Global Instance run_fmap : FMap run := λ A B f m,
  match m with
  | Done a => Done (f a)
  | Fail e => Fail e
  end.

Definition lift {A} (m : result A) : run A :=
  match m with
  | Ok a => Done a
  | Raise e => Fail (Exn e)
  end.

(** The parts of Python that the renderer uses and that are taken as given:
    the text of a list or dict ([str] of a container), the percentage
    [f"{c / t * 100:.1f}"] of two ints with [t] not 0, which is computed in
    floating point ([OverflowError] when the quotient is no float) and
    cannot fail for a part of a whole, and the exception that slicing a
    dict raises ([TypeError] up to Python 3.11, [KeyError] after). *)
Class PyFormat := {
  container_repr : pyval → str;
  percent : Z → Z → run str;
  dict_slice_error : error;
  percent_part : ∀ c t, 0 ≤ c ≤ t → 0 < t → ∃ s, percent c t = Done s
}.

(** [v[k]] for a string [k] *)
Definition subscript (v : pyval) (k : str) : run pyval :=
  match v with
  | PDict items =>
      match assoc k items with
      | Some x => Done x
      | None => Fail (Exn (KeyError k))
      end
  | _ => Fail TypeError
  end.

(** [str(z)] *)
Definition int_str (z : Z) : str :=
  if z <? 0 then py "-" ++ dec (S (Z.to_nat (Z.log2 (- z)))) (- z) []
  else dec (S (Z.to_nat (Z.log2 z))) z [].

(** The digits of a number from the right, with a comma after every third
    digit that another digit follows. *)
Fixpoint group_thousands (rev_digits : str) : str :=
  match rev_digits with
  | a :: b :: c :: rest =>
      match rest with
      | [] => rev_digits
      | _ :: _ => a :: b :: c :: 44%N :: group_thousands rest
      end
  | _ => rev_digits
  end.

(** [format(z, ',')] *)
Definition int_comma (z : Z) : str :=
  if z <? 0 then py "-" ++ reverse (group_thousands (reverse (int_str (- z))))
  else reverse (group_thousands (reverse (int_str z))).

(** [s.rjust(n)], the effect of the format [>n] on a text *)
Definition rjust (n : nat) (s : str) : str :=
  replicate (n - length s) 32%N ++ s.

(** [f"{v}"] *)
Definition format_plain `{PyFormat} (v : pyval) : str :=
  match v with
  | PNone => py "None"
  | PInt z => int_str z
  | PStr s => s
  | _ => container_repr v
  end.

(** [f"{v:,}"]: only a number takes the comma. *)
Definition format_comma (v : pyval) : run str :=
  match v with
  | PInt z => Done (int_comma z)
  | PStr _ => Fail (Exn ValueError)
  | _ => Fail TypeError
  end.

(** [f"{v:>n}"] *)
Definition format_right (n : nat) (v : pyval) : run str :=
  match v with
  | PInt z => Done (rjust n (int_str z))
  | PStr s => Done (rjust n s)
  | _ => Fail TypeError
  end.

(** Truthiness of a report value. *)
Definition truthy (v : pyval) : bool :=
  match v with
  | PNone => false
  | PInt z => negb (z =? 0)
  | PStr s => str_truthy s
  | PList l => match l with [] => false | _ => true end
  | PDict d => match d with [] => false | _ => true end
  end.

(** [v[k1][k2]] *)
Definition item2 (v : pyval) (k1 k2 : str) : run pyval :=
  x ← subscript v k1; subscript x k2.

(** [v.items()] *)
Definition items (v : pyval) : run (list (str * pyval)) :=
  match v with
  | PDict d => Done d
  | _ => Fail AttributeError
  end.

(** [v[:10]], as the [for] loop iterates over it *)
Definition first_ten `{PyFormat} (v : pyval) : run (list pyval) :=
  match v with
  | PList l => Done (take 10 l)
  | PStr s => Done ((λ c, PStr [c]) <$> take 10 s)
  | PDict _ => Fail dict_slice_error
  | _ => Fail TypeError
  end.

(** [l[-14:]] *)
Definition last_fourteen {A} (l : list A) : list A :=
  drop (length l - 14) l.

(** [f"{a:,} ({b:,} unique)"] for [a = v[k]['total']] and
    [b = v[k]['unique']] *)
Definition total_unique_text (v : pyval) (k : str) : run str :=
  a ← item2 v k (py "total");
  a ← format_comma a;
  b ← item2 v k (py "unique");
  b ← format_comma b;
  Done (a ++ py " (" ++ b ++ py " unique)").

(** [f"<label>{v[k]:,}"] *)
Definition comma_line (label : str) (v : pyval) (k : str) : run str :=
  a ← subscript v k;
  a ← format_comma a;
  Done (label ++ a).

(** The line of the external clicks (lines 228 to 231). *)
Definition clicks_line `{PyFormat} (ec : pyval) : run str :=
  note ← subscript ec (py "note");
  if truthy note then
    note ← subscript ec (py "note");
    Done (py "Visit store clicks: " ++ format_plain note)
  else
    t ← total_unique_text ec (py "visit_store_clicks");
    Done (py "Visit store clicks: " ++ t).

(** The bodies of the three loops. *)
Definition page_line `{PyFormat} (p : pyval) : run str :=
  c ← subscript p (py "count");
  c ← format_right 8 c;
  path ← subscript p (py "path");
  Done (c ++ py "  " ++ format_plain path).

Definition day_line (item : str * pyval) : run str :=
  let '(date, stats) := item in
  r ← subscript stats (py "requests");
  r ← format_right 6 r;
  u ← subscript stats (py "unique_visitors");
  u ← format_right 5 u;
  Done (date ++ py ": " ++ r ++ py " requests, " ++ u ++ py " unique").

(** [f"{count / total * 100:.1f}"] *)
Definition percentage `{PyFormat} (count total : pyval) : run str :=
  match count, total with
  | PInt c, PInt t => if t =? 0 then Fail ZeroDivisionError else percent c t
  | _, _ => Fail TypeError
  end.

Definition browser_line `{PyFormat} (s : pyval) (item : str * pyval)
    : run str :=
  let '(browser, count) := item in
  t ← subscript s (py "total_requests");
  pct ← percentage count t;
  c ← format_right 8 count;
  Done (rjust 10 browser ++ py ": " ++ c ++ py " (" ++ pct ++ py "%)").

Definition heading (title : str) : list str :=
  [[]; title; replicate 40 45%N].

(** [format_table], up to the final join: the list [lines]. *)
Definition format_table_lines `{PyFormat} (metrics : pyval) : run (list str) :=
  let lines :=
    [replicate 50 61%N; py "RIFTFOUND METRICS REPORT"; replicate 50 61%N] in
  s ← subscript metrics (py "summary");
  a ← item2 s (py "date_range") (py "start");
  b ← item2 s (py "date_range") (py "end");
  let lines :=
    lines
    ++ [[]; py "Date range: " ++ format_plain a ++ py " to " ++ format_plain b]
    ++ heading (py "TRAFFIC OVERVIEW") in
  l1 ← comma_line (py "Total requests:      ") s (py "total_requests");
  l2 ← comma_line (py "Unique visitors:     ") s (py "unique_visitors");
  l3 ← comma_line (py "Successful requests: ") s (py "successful_requests");
  let lines := lines ++ [l1; l2; l3] in
  pv ← subscript metrics (py "page_views");
  let lines := lines ++ heading (py "PAGE VIEWS") in
  l1 ← total_unique_text pv (py "homepage");
  l2 ← total_unique_text pv (py "event_details");
  l3 ← comma_line (py "Unique events viewed: ") pv (py "unique_events_viewed");
  let lines :=
    lines
    ++ [py "Homepage:            " ++ l1; py "Event details:       " ++ l2; l3]
  in
  api ← subscript metrics (py "api_usage");
  let lines := lines ++ heading (py "API USAGE") in
  l1 ← comma_line (py "Total API calls:     ") api (py "total_api_calls");
  l2 ← comma_line (py "Calendar requests:   ") api (py "calendar_requests");
  l3 ← comma_line (py "Location searches:   ") api (py "location_searches");
  let lines := lines ++ [l1; l2; l3] in
  ec ← subscript metrics (py "external_clicks");
  let lines := lines ++ heading (py "EXTERNAL CLICKS") in
  l1 ← clicks_line ec;
  let lines := lines ++ [l1] ++ heading (py "TOP PAGES") in
  top_pages ← subscript metrics (py "top_pages");
  pages ← first_ten top_pages;
  page_lines ← mapM page_line pages;
  let lines := lines ++ page_lines ++ heading (py "DAILY TRAFFIC") in
  daily_stats ← subscript metrics (py "daily_stats");
  days ← items daily_stats;
  day_lines ← mapM day_line (last_fourteen days);
  let lines := lines ++ day_lines ++ heading (py "BROWSERS") in
  browsers ← subscript metrics (py "browsers");
  counts ← items browsers;
  browser_lines ← mapM (browser_line s) counts;
  Done (lines ++ browser_lines).

(** ['\n'.join(lines)] *)
Definition join_lines (lines : list str) : str :=
  match lines with
  | [] => []
  | l :: ls => l ++ concat ((λ x, 10%N :: x) <$> ls)
  end.

Definition format_table `{PyFormat} (metrics : pyval) : run str :=
  join_lines <$> format_table_lines metrics.

(** *** Command line *)

(** [json.dumps(metrics, indent=2, default=str)], taken as given. *)
Class JsonDumps := json_dumps : pyval → str.

Inductive report_format : Type := Json | Table.

(** The arguments as [argparse] returns them: [days] is an int (30 when the
    option is absent), [format] one of its two choices, [output] is [None]
    when the option is absent. *)
Record arguments := {
  arg_days : Z;
  arg_format : report_format;
  arg_output : option str
}.

(** The messages written to stderr. *)
Inductive message : Type :=
  | NoLogsDirectory
  | LoadingLogs
  | CouldNotRead (name : str) (e : exn)
  | Loaded (n : Z)
  | ReportWritten (path : str).

(** What a run of [main] does: the messages on stderr, the texts printed
    to stdout, the files written with their text, and the exception that
    ends the run, if any. *)
Record outcome := {
  stderr : list message;
  stdout : list str;
  written : list (str * str);
  ended : option error
}.

Definition could_not_read (w : str * exn) : message := CouldNotRead w.1 w.2.

(** Lines 270 to 273. *)
Definition render `{PyFormat} `{JsonDumps} (format : report_format)
    (metrics : pyval) : run str :=
  match format with
  | Json => Done (json_dumps metrics)
  | Table => format_table metrics
  end.

(** Lines 275 to 279: the report goes to the file [args.output] when that
    is given and not empty, to stdout if not.  [write_text path text] is
    the exception that writing the file raises, if any, and [written] lists
    the files written in full. *)
Definition deliver (write_text : str → str → option exn) (args : arguments)
    (err : list message) (output : str) : outcome :=
  match arg_output args with
  | Some path =>
      if str_truthy path then
        match write_text path output with
        | Some e =>
            {| stderr := err; stdout := []; written := [];
               ended := Some (Exn e) |}
        | None =>
            {| stderr := err ++ [ReportWritten path];
               stdout := []; written := [(path, output)];
               ended := None |}
        end
      else
        {| stderr := err; stdout := [output]; written := [];
           ended := None |}
  | None =>
      {| stderr := err; stdout := [output]; written := [];
         ended := None |}
  end.

(** [main]: [logs_dir] is the content of the directory [logs] beside the
    script, [None] when it does not exist.  Printing is taken to succeed. *)
Definition main `{StrLower} `{DateTime} `{PyFormat} `{JsonDumps}
    (now : datetime) (logs_dir : option (list dir_entry))
    (write_text : str → str → option exn) (args : arguments) : outcome :=
  match logs_dir with
  | None =>
      {| stderr := [NoLogsDirectory]; stdout := []; written := [];
         ended := Some (SystemExit 1) |}
  | Some entries =>
      match load_logs now entries (Some (arg_days args)) with
      | Raise e =>
          {| stderr := [LoadingLogs]; stdout := []; written := [];
             ended := Some (Exn e) |}
      | Ok (records, warnings) =>
          let err :=
            [LoadingLogs] ++ (could_not_read <$> warnings)
            ++ [Loaded (len records)] in
          match metrics ← lift (analyze_logs records);
                render (arg_format args) metrics with
          | Fail e =>
              {| stderr := err; stdout := []; written := [];
                 ended := Some e |}
          | Done output => deliver write_text args err output
          end
      end
  end.

(** *** Instances of the renderer's parameters used to run the model

    [ascii_format] prints a container as [repr] does when its strings are
    ASCII text, rounds the exact percentage to one decimal (Python rounds
    the float quotient, which can differ at a tie) and takes the exception
    of Python 3.11 for the slice of a dict.  [indented_json] follows
    [json.dumps] with [indent=2] and the default [ensure_ascii]. *)

Definition hex_digit (n : N) : N :=
  (if n mod 16 <? 10 then 48 + n mod 16 else 87 + n mod 16)%N.

Definition join_with (sep : str) (parts : list str) : str :=
  match parts with
  | [] => []
  | x :: rest => x ++ concat ((λ y, sep ++ y) <$> rest)
  end.

Definition repr_char (quote c : N) : str :=
  if (c =? 92)%N then py "\\"
  else if (c =? quote)%N then [92%N; c]
  else if (c =? 9)%N then py "\t"
  else if (c =? 10)%N then py "\n"
  else if (c =? 13)%N then py "\r"
  else if ((c <? 32) || (c =? 127))%N then
    py "\x" ++ [hex_digit (c / 16); hex_digit c]
  else [c].

Definition str_repr (s : str) : str :=
  let quote :=
    if bool_decide (39%N ∈ s) && negb (bool_decide (34%N ∈ s)) then 34%N
    else 39%N in
  [quote] ++ concat (repr_char quote <$> s) ++ [quote].

Fixpoint repr (v : pyval) : str :=
  match v with
  | PNone => py "None"
  | PInt z => int_str z
  | PStr s => str_repr s
  | PList l => py "[" ++ join_with (py ", ") (repr <$> l) ++ py "]"
  | PDict d =>
      py "{"
      ++ join_with (py ", ")
           ((λ kv, match kv with (k, x) => str_repr k ++ py ": " ++ repr x end)
              <$> d)
      ++ py "}"
  end.

Definition decimal_percent (c t : Z) : str :=
  let q := c * 1000 / t in
  let r := c * 1000 mod t in
  let q := if (t <? 2 * r) || ((t =? 2 * r) && Z.odd q) then q + 1 else q in
  int_str (q / 10) ++ py "." ++ [digit q].

Program Definition ascii_format : PyFormat := {|
  container_repr := repr;
  percent c t := Done (decimal_percent c t);
  dict_slice_error := TypeError
|}.
Next Obligation. intros c t _ _. by eexists. Qed.

Definition json_escape (c : N) : str :=
  let u4 (x : N) : str :=
    py "\u"
    ++ [hex_digit (x / 4096); hex_digit (x / 256); hex_digit (x / 16);
        hex_digit x] in
  if (c =? 34)%N then [92%N; 34%N]
  else if (c =? 92)%N then py "\\"
  else if (c =? 10)%N then py "\n"
  else if (c =? 13)%N then py "\r"
  else if (c =? 9)%N then py "\t"
  else if (c =? 8)%N then py "\b"
  else if (c =? 12)%N then py "\f"
  else if ((32 <=? c) && (c <=? 126))%N then [c]
  else if (c <? 65536)%N then u4 c
  else
    (u4 (55296 + (c - 65536) / 1024) ++ u4 (56320 + (c - 65536) mod 1024))%N.

Definition json_str (s : str) : str :=
  [34%N] ++ concat (json_escape <$> s) ++ [34%N].

Fixpoint json_indented (level : nat) (v : pyval) : str :=
  let inner := 10%N :: replicate (2 * S level) 32%N in
  let close := 10%N :: replicate (2 * level) 32%N in
  match v with
  | PNone => py "null"
  | PInt z => int_str z
  | PStr s => json_str s
  | PList l =>
      match l with
      | [] => py "[]"
      | _ :: _ =>
          py "[" ++ inner
          ++ join_with (py "," ++ inner) (json_indented (S level) <$> l)
          ++ close ++ py "]"
      end
  | PDict d =>
      match d with
      | [] => py "{}"
      | _ :: _ =>
          py "{" ++ inner
          ++ join_with (py "," ++ inner)
               ((λ kv,
                   match kv with
                   | (k, x) => json_str k ++ py ": " ++ json_indented (S level) x
                   end) <$> d)
          ++ close ++ py "}"
      end
  end.

Definition indented_json : JsonDumps := json_indented 0.

(** *** Vocabulary of the statements *)

(** The value of field [k], for a record that has it. *)
Definition fld (r : record) (k : str) : str := default [] (r !! k).

(** A Parsed Record has every field of the schema. *)
Definition has_fields (r : record) : Prop :=
  Forall (λ k, is_Some (r !! k)) FIELDS.

(** [cookie] has, at offset [i], the text [mid=] followed by [g], where [g]
    is a non-empty run of characters of [[a-f0-9-]] that no further such
    character follows. *)
Definition mid_at (cookie : str) (i : nat) (g : str) : Prop :=
  ∃ rest,
    drop i cookie = py "mid=" ++ g ++ rest
    ∧ g ≠ []
    ∧ Forall (λ c, is_hexdash c = true) g
    ∧ ∀ c, head rest = Some c → is_hexdash c = false.

(** C3 as the specification states it, for one record. *)
Definition visitor_id_as_stated (r : record) : Prop :=
  contains (py "mid=abc123-def456") (fld r (py "cookie")) = true →
  get_visitor_id r = Ok (py "abc123-def456").

(** The accepted records: what the parser makes of the lines of the entries
    read, in enumeration order and line order. *)
Definition parsed (lines : list str) : list record :=
  omap (λ line, match parse_log_line line with
                | Ok (Some r) => Some r
                | _ => None
                end) lines.

Definition accepted (logs_dir : list dir_entry) : list record :=
  concat ((λ f, if is_read f then parsed (entry_lines f) else []) <$> logs_dir).

(** The warnings: one for each entry read whose reading ends in an error. *)
Definition read_warnings (logs_dir : list dir_entry) : list (str * exn) :=
  omap (λ f, if is_read f then (λ e, (entry_name f, e)) <$> entry_error f
             else None) logs_dir.

(** The date of [r] does not lexically precede [cutoff]. *)
Definition not_older (cutoff : str) (r : record) : Prop :=
  str_lt (fld r (py "date")) cutoff = false.

Global Instance not_older_dec cutoff r : Decision (not_older cutoff r) :=
  decide (str_lt (fld r (py "date")) cutoff = false).

(** What the loop body keeps under a cutoff. *)
Definition kept (cutoff_date : option str) (r : record) : Prop :=
  match cutoff_date with
  | None => True
  | Some c => not_older c r
  end.

Global Instance kept_dec c r : Decision (kept c r) :=
  match c as c0 return Decision (kept c0 r) with
  | None => left I
  | Some c' => not_older_dec c' r
  end.

(** C8 as the specification states it, for one clock value, directory and
    window. *)
Definition date_window_as_stated `{DateTime} (now : datetime)
    (logs_dir : list dir_entry) (n : Z) : Prop :=
  ∃ dt records warnings,
    minus_days now n = Ok dt
    ∧ load_logs now logs_dir (Some n) = Ok (records, warnings)
    ∧ ∀ r, r ∈ accepted logs_dir →
        (str_lt (fld r (py "date")) (strftime_Ymd dt) = true → r ∉ records)
        ∧ (str_lt (fld r (py "date")) (strftime_Ymd dt) = false → r ∈ records).

(** For records that have their fields, the quantities of [analyze_logs] as
    functions of the fields: the visitor id, a set of visitor ids, a
    selection on a field, the counts of a list of keys, the daily traffic. *)
Definition visitor (r : record) : str :=
  default (fld r (py "client_ip")) (mid_search (fld r (py "cookie"))).

Definition visitors_of (rs : list record) : gset str :=
  list_to_set (visitor <$> rs).

Definition where_ (k : str) (p : str → bool) (rs : list record) : list record :=
  filter (λ r, p (fld r k)) rs.

Definition counts (keys : list str) : list (str * Z) := foldl incr [] keys.

Definition traffic (rs : list record) : list (str * day) :=
  foldl (λ d r,
    dict_update {| requests := 0; visitors := ∅ |} (day_add (visitor r)) d
      (fld r (py "date"))) [] rs.

Definition uri_stem (r : record) : str := fld r (py "uri_stem").
Definition date (r : record) : str := fld r (py "date").

Definition min_date (rs : list record) : str :=
  match date <$> rs with
  | [] => []
  | x :: l => foldl (λ m y, if str_lt y m then y else m) x l
  end.
Definition max_date (rs : list record) : str :=
  match date <$> rs with
  | [] => []
  | x :: l => foldl (λ m y, if str_lt m y then y else m) x l
  end.

Definition homepage_of (rs : list record) : list record :=
  where_ (py "uri_stem")
    (λ u, bool_decide (u = py "/") || bool_decide (u = py "/index.html")) rs.
Definition event_pages_of (rs : list record) : list record :=
  where_ (py "uri_stem") event_pattern_match rs.
Definition api_calls_of (rs : list record) : list record :=
  where_ (py "uri_stem") (λ u, startswith u (py "/api/")) rs.
Definition visit_clicks_of (rs : list record) : list record :=
  where_ (py "uri_stem") visit_pattern_search rs.

Definition daily_stats_of (rs : list record) : list (str * pyval) :=
  (λ x : str * day,
     (x.1, PDict [(py "requests", PInt (requests x.2));
                  (py "unique_visitors", size_int (visitors x.2))]))
    <$> sorted by_date (traffic rs).

Definition top_pages_of (rs : list record) : list (str * Z) :=
  take 15 (sorted by_neg_count (counts (uri_stem <$> rs))).

(** The report of a non-empty list of records that have their fields. *)
Definition report_of `{StrLower} (records : list record) : pyval :=
  PDict [
    (py "summary", PDict [
       (py "total_requests", PInt (len records));
       (py "unique_visitors", size_int (visitors_of records));
       (py "successful_requests",
          len_int (where_ (py "status")
                     (λ s, startswith s (py "2") || startswith s (py "3"))
                     records));
       (py "date_range", PDict [(py "start", PStr (min_date records));
                                (py "end", PStr (max_date records))])]);
    (py "page_views", PDict [
       (py "homepage",
          total_unique (homepage_of records)
            (visitors_of (homepage_of records)));
       (py "event_details",
          total_unique (event_pages_of records)
            (visitors_of (event_pages_of records)));
       (py "unique_events_viewed",
          size_int (list_to_set (uri_stem <$> event_pages_of records)))]);
    (py "api_usage", PDict [
       (py "total_api_calls", len_int (api_calls_of records));
       (py "calendar_requests",
          len_int (where_ (py "uri_stem")
                     (λ u, bool_decide (u = py "/api/events"))
                     (api_calls_of records)));
       (py "location_searches",
          len_int (where_ (py "uri_stem")
                     (λ u, startswith u (py "/api/events/geocode"))
                     (api_calls_of records)))]);
    (py "external_clicks", PDict [
       (py "visit_store_clicks",
          total_unique (visit_clicks_of records)
            (visitors_of (visit_clicks_of records)));
       (py "note",
          match visit_clicks_of records with
          | [] => PStr (py "Requires /visit tracking endpoint")
          | _ :: _ => PNone
          end)]);
    (py "daily_stats", PDict (daily_stats_of records));
    (py "top_pages", PList (counted (py "path") <$> top_pages_of records));
    (py "top_edge_locations",
       PList (counted (py "location")
                <$> take 10 (sorted by_neg_count
                               (counts ((λ r, fld r (py "edge_location"))
                                          <$> records)))));
    (py "browsers",
       PDict ((λ x : str * Z, (x.1, PInt x.2))
                <$> sorted by_neg_count
                      (counts ((λ r, classify_browser (fld r (py "user_agent")))
                                 <$> records))))].

(** [d[k1][k2]...] on a report value. *)
Fixpoint pget_path (ks : list str) (v : pyval) : option pyval :=
  match ks with
  | [] => Some v
  | k :: ks' => pget k v ≫= pget_path ks'
  end.

(** The keys of a dict, in order. *)
Definition pkeys (v : pyval) : list str :=
  match v with
  | PDict items => items.*1
  | _ => []
  end.

(** The paths that [/(visit|register)$] finds: those that end with [/visit]
    or [/register], and those that end with one of the two followed by one
    line feed. *)
Definition click_path (u : str) : Prop :=
  py "/visit" `suffix_of` u ∨ py "/register" `suffix_of` u
  ∨ (py "/visit" ++ [10%N]) `suffix_of` u
  ∨ (py "/register" ++ [10%N]) `suffix_of` u.

Global Instance click_path_dec u : Decision (click_path u) :=
  ltac:(unfold click_path; apply _).

(** C7 as the specification states it, for one list of records: with no
    click record the section has a note and no counts. *)
Definition note_instead_of_counts_as_stated `{StrLower}
    (records : list record) : Prop :=
  records ≠ [] →
  (∀ r, r ∈ records →
     ¬ (py "/visit" `suffix_of` uri_stem r
        ∨ py "/register" `suffix_of` uri_stem r)) →
  ∃ rep ext note,
    analyze_logs records = Ok rep
    ∧ pget (py "external_clicks") rep = Some ext
    ∧ pget (py "note") ext = Some (PStr note)
    ∧ pget (py "visit_store_clicks") ext = None.

(** For an order given by its [<]: [x] is not greater than [y]. *)
Definition not_greater {A} (lt : A → A → bool) (x y : A) : Prop :=
  lt y x = false.

(** [l'] is [l] sorted by a stable sort: a permutation of [l] in which no
    element is smaller than an earlier one, and in which two elements of
    which the first is not greater than the second keep their order. *)
Definition stable_sort_of {A} (lt : A → A → bool) (l l' : list A) : Prop :=
  l' ≡ₚ l
  ∧ StronglySorted (not_greater lt) l'
  ∧ ∀ x y, [x; y] `sublist_of` l → not_greater lt x y → [x; y] `sublist_of` l'.

(** The position of the first occurrence of [x] in [l]. *)
Fixpoint index_of (x : str) (l : list str) : option nat :=
  match l with
  | [] => None
  | y :: l' => if decide (y = x) then Some 0%nat else S <$> index_of x l'
  end.

(** [x] is first encountered before [y] in [l]. *)
Definition first_seen_before (l : list str) (x y : str) : Prop :=
  ∃ a b, index_of x l = Some a ∧ index_of y l = Some b ∧ (a < b)%nat.

(** The loop [for x in xs: d[key(x)] = g(x)(d[key(x)])] on a [defaultdict]. *)
Definition grouped {X V} (dflt : V) (g : X → V → V) (key : X → str)
    (d : list (str * V)) (xs : list X) : list (str * V) :=
  foldl (λ d x, dict_update dflt (g x) d (key x)) d xs.

Definition sumZ (l : list Z) : Z := foldr Z.add 0 l.

(** *** Sample inputs *)

(** ['\t'.join(parts)] *)
Definition join_tab (parts : list str) : str :=
  match parts with
  | [] => []
  | p :: ps => p ++ concat ((λ q, TAB :: q) <$> ps)
  end.

(** A log line of 13 fields, given its date, client address, path, status,
    user agent and cookie, with a final line feed. *)
Definition sample_line (date ip path status ua cookie : string) : str :=
  join_tab [py date; py "10:00:00"; py "IAD89-C1"; py "512"; py ip; py "GET";
            py "d111.cloudfront.net"; py path; py status; py "-"; py ua;
            py "-"; py cookie] ++ [10%N].

Definition sample_record (date ip path status ua cookie : string) : record :=
  match parse_log_line (sample_line date ip path status ua cookie) with
  | Ok (Some r) => r
  | _ => ∅
  end.

Definition visitor_sample : record :=
  sample_record "2024-05-01" "1.2.3.4" "/" "200" "Mozilla"
    "mid=abc123-def456".

(** Two cookies that contain [mid=abc123-def456]: inside a longer id, and
    after another [mid] pair. *)
Definition longer_id_sample : record :=
  sample_record "2024-05-01" "1.2.3.4" "/" "200" "Mozilla"
    "mid=abc123-def4567".
Definition second_mid_sample : record :=
  sample_record "2024-05-01" "1.2.3.4" "/" "200" "Mozilla"
    "mid=0;mid=abc123-def456".

Definition chrome_ua : str :=
  py "Mozilla/5.0 (X11; Linux x86_64) AppleWebKit/537.36 (KHTML, like Gecko) Chrome/120.0.0.0 Safari/537.36".

(** Three requests of two visitors: the home page and the calendar API by
    a visitor with a [mid] cookie, and a missing event page by an address
    without cookie. *)
Definition sample_records : list record :=
  [ sample_record "2026-11-02" "10.0.0.1" "/" "200"
      "Mozilla/5.0 Chrome/120.0 Safari/537.36" "mid=ab12-01";
    sample_record "2026-11-01" "10.0.0.2" "/api/events" "200"
      "Mozilla/5.0 Firefox/121.0" "mid=ab12-01";
    sample_record "2026-11-02" "1.2.3.4" "/events/ab12" "404" "Googlebot/2.1"
      "-" ].

(** Five requests whose paths [/b] and [/a] tie at two. *)
Definition tie_records : list record :=
  (λ p, sample_record "2026-11-02" "10.0.0.1" p "200" "curl/8.0" "-")
    <$> ["/b"; "/a"; "/b"; "/c"; "/a"]%string.

(** A directory with a plain file, a compressed file whose reading fails
    after its first line, a hidden file and a subdirectory; the clock is
    2026-11-04 12:00. *)
Definition sample_dir : list dir_entry :=
  [ {| entry_suffix := py ".log"; entry_is_file := true;
       entry_name := py "E1.2026-11-01.log";
       entry_lines :=
         [ py "#Version: 1.0";
           sample_line "2026-11-01" "1.2.3.4" "/" "200" "Mozilla" "mid=ab12";
           sample_line "2024-05-01" "1.2.3.5" "/visit" "200" "Mozilla" "-" ];
       entry_error := None |};
    {| entry_suffix := py ".gz"; entry_is_file := true;
       entry_name := py "E1.2026-11-03.gz";
       entry_lines :=
         [ sample_line "2026-11-03" "1.2.3.6" "/api/events" "200" "curl" "-" ];
       entry_error := Some OSError |};
    {| entry_suffix := py ""; entry_is_file := true;
       entry_name := py ".DS_Store";
       entry_lines :=
         [ sample_line "2026-11-04" "1.2.3.7" "/" "200" "Mozilla" "-" ];
       entry_error := None |};
    {| entry_suffix := py ""; entry_is_file := false;
       entry_name := py "archive";
       entry_lines := []; entry_error := Some OSError |} ].

Definition sample_now : @datetime gregorian := (739924, 43200000000).

Definition old_sample : record :=
  sample_record "2024-05-01" "1.2.3.5" "/visit" "200" "Mozilla" "-".

(** A record without [cookie] and without [client_ip], and one with a
    [mid] cookie and without [client_ip]. *)
Definition bare_sample : record := {[ py "date" := py "2026-11-02" ]}.
Definition cookie_only_sample : record :=
  {[ py "cookie" := py "x=1;mid=0af-9" ]}.


(** Three requests from three addresses, without cookies. *)
Definition address_records : list record :=
  (λ ip, sample_record "2026-11-02" ip "/events/0a-1" "200" "curl/8.0" "-")
    <$> ["10.0.0.1"; "10.0.0.2"; "10.0.0.3"]%string.

(** How often [k] occurs in [keys]. *)
Definition occurrences (k : str) (keys : list str) : Z :=
  len (filter (λ k', k' = k) keys).

(** The records of the date [d]. *)
Definition on_date (d : str) (rs : list record) : list record :=
  filter (λ r, date r = d) rs.

(** The number of distinct strings of a list. *)
Definition distinct (l : list str) : nat :=
  size (list_to_set (C := gset str) l).

(** The browser name of a record. *)
Definition browser `{StrLower} (r : record) : str :=
  classify_browser (fld r (py "user_agent")).

(** The lines of the table for a path with its count and for the records
    of a date. *)
Definition page_text (x : str * Z) : str :=
  rjust 8 (int_str x.2) ++ py "  " ++ x.1.
Definition day_text (d : str) (rs : list record) : str :=
  d ++ py ": " ++ rjust 6 (int_str (len rs)) ++ py " requests, "
  ++ rjust 5 (int_str (Z.of_nat (size (visitors_of rs)))) ++ py " unique".

(** Sixteen requests on sixteen days, each for a page of its own. *)
Definition sixteen_days : list record :=
  (λ d, sample_record ("2026-10-" ++ d) "10.0.0.1" ("/p" ++ d) "200"
          "curl/8.0" "-")
    <$> ["01"; "02"; "03"; "04"; "05"; "06"; "07"; "08"; "09"; "10"; "11";
         "12"; "13"; "14"; "15"; "16"]%string.

(** The line of the table for a browser name with its count, which is
    between 1 and the total: the name and the count are right-aligned, the
    percentage is the one that Python prints. *)
Definition browser_text `{PyFormat} (total : Z) (x : str * Z) (line : str)
    : Prop :=
  1 ≤ x.2 ≤ total
  ∧ ∃ p,
      percent x.2 total = Done p
      ∧ line
        = rjust 10 x.1 ++ py ": " ++ rjust 8 (int_str x.2) ++ py " (" ++ p
          ++ py "%)".

(** The first file of [sample_dir] alone: its records are older than one
    day at [sample_now]. *)
Definition old_dir : list dir_entry := take 1 sample_dir.

(** The command line [--days 1], and a file system that accepts every
    write. *)
Definition table_args : arguments :=
  {| arg_days := 1; arg_format := Table; arg_output := None |}.
Definition no_write_error : str → str → option exn := λ _ _, None.

(** ** Part II: lemmas and theorems *)

Lemma bind_Ok {A B} (f : A → result B) (a : A) : (Ok a ≫= f) = f a.
Proof. done. Qed.

Lemma fmap_Ok {A B} (f : A → B) (a : A) : f <$> Ok a = Ok (f a).
Proof. done. Qed.

Lemma FIELDS_length : length FIELDS = 33%nat.
Proof. reflexivity. Qed.

Lemma FIELDS_NoDup : NoDup FIELDS.
Proof. apply (bool_decide_unpack _). vm_compute. reflexivity. Qed.

(** *** Record Parser *)

Lemma index_lookup {A} (l : list A) i x : l !! i = Some x → index l i = Ok x.
Proof. unfold index. by intros ->. Qed.

Lemma parse_field_ok parts d i k :
  FIELDS !! i = Some k →
  parse_field parts d i = Ok (<[k := default [] (parts !! i)]> d).
Proof.
  intros Hk. unfold parse_field. rewrite (index_lookup _ _ _ Hk). simpl.
  destruct (Nat.ltb_spec i (length parts)) as [Hlt|Hge].
  - destruct (lookup_lt_is_Some_2 parts i Hlt) as [v Hv].
    by rewrite (index_lookup _ _ _ Hv), Hv.
  - by rewrite (lookup_ge_None_2 parts i Hge).
Qed.

(** The dict the comprehension builds from the indices [idxs]. *)
Lemma parse_fields_ok parts idxs d :
  Forall (λ i, is_Some (FIELDS !! i)) idxs →
  ∃ r, foldlM (parse_field parts) d idxs = Ok r
     ∧ dom r = dom d ∪ list_to_set ((λ i, default [] (FIELDS !! i)) <$> idxs)
     ∧ ∀ i k, i ∈ idxs → FIELDS !! i = Some k →
         r !! k = Some (default [] (parts !! i)).
Proof.
  revert d. induction idxs as [|j idxs IH] using rev_ind; intros d Hall.
  - exists d. split; [done|]. split.
    + rewrite fmap_nil, list_to_set_nil. by rewrite (right_id_L ∅ (∪)).
    + intros i k Hi. by apply elem_of_nil in Hi.
  - apply Forall_app in Hall as [Hall Hj]. apply Forall_singleton in Hj as [kj Hkj].
    destruct (IH d Hall) as (r & Hr & Hdom & Hlook).
    exists (<[kj := default [] (parts !! j)]> r). split; [|split].
    + clear -Hr Hkj. revert d Hr. induction idxs as [|a idxs IHis]; intros d Hr; simpl in *.
      * injection Hr as ->. by rewrite (parse_field_ok _ _ _ _ Hkj).
      * destruct (parse_field parts d a) as [d'|e]; simpl in *; [|done]. by apply IHis.
    + rewrite dom_insert_L, Hdom, fmap_app, list_to_set_app_L. simpl.
      rewrite Hkj. simpl. rewrite (right_id_L ∅ (∪)).
      rewrite (comm_L (∪) {[kj]}). by rewrite (assoc_L (∪)).
    + intros i k Hi Hk. destruct (decide (i = j)) as [->|Hne].
      * rewrite Hkj in Hk. injection Hk as ->. by rewrite lookup_insert_eq.
      * rewrite lookup_insert_ne.
        -- apply Hlook; [|done].
           apply elem_of_app in Hi as [?|Hi]; [done|].
           by apply list_elem_of_singleton in Hi.
        -- intros Heq. subst. apply Hne.
           by eapply NoDup_lookup; [apply FIELDS_NoDup| |].
Qed.

Lemma FIELDS_indices :
  Forall (λ i, is_Some (FIELDS !! i)) (seq 0 (length FIELDS)).
Proof.
  apply Forall_forall. intros i Hi. apply lookup_lt_is_Some_2.
  apply elem_of_seq in Hi. lia.
Qed.

Lemma FIELDS_by_index :
  (λ i, default [] (FIELDS !! i)) <$> seq 0 (length FIELDS) = FIELDS.
Proof. reflexivity. Qed.

Lemma parse_log_line_comment line :
  startswith line (py "#") = true → parse_log_line line = Ok None.
Proof. unfold parse_log_line. by intros ->. Qed.

Lemma parse_log_line_short line :
  (length (split (strip line) TAB) < 10)%nat → parse_log_line line = Ok None.
Proof.
  intros Hlen. unfold parse_log_line, len.
  destruct (startswith line (py "#")); [done|].
  destruct (Z.ltb_spec (Z.of_nat (length (split (strip line) TAB))) 10); [done|lia].
Qed.

Lemma parse_log_line_long line :
  startswith line (py "#") = false →
  (10 ≤ length (split (strip line) TAB))%nat →
  parse_log_line line
  = Some <$> foldlM (parse_field (split (strip line) TAB)) ∅
               (seq 0 (length FIELDS)).
Proof.
  intros Hc Hlen. unfold parse_log_line, len. rewrite Hc.
  destruct (Z.ltb_spec (Z.of_nat (length (split (strip line) TAB))) 10); [lia|done].
Qed.

Lemma parse_log_line_accepts (line : str) :
  startswith line (py "#") = false →
  (10 ≤ length (split (strip line) TAB))%nat →
  ∃ r : record,
    parse_log_line line = Ok (Some r)
    ∧ dom r = list_to_set FIELDS
    ∧ ∀ i name, FIELDS !! i = Some name →
        r !! name = Some (default [] (split (strip line) TAB !! i)).
Proof.
  intros Hc Hlen.
  destruct (parse_fields_ok (split (strip line) TAB) _ ∅ FIELDS_indices)
    as (r & Hr & Hdom & Hlook).
  exists r. rewrite (parse_log_line_long _ Hc Hlen), Hr.
  split; [done|]. split.
  { rewrite Hdom, FIELDS_by_index, dom_empty_L. by rewrite (left_id_L ∅ (∪)). }
  intros i name Hname. apply (Hlook i); [|done].
  apply elem_of_seq. apply lookup_lt_Some in Hname. lia.
Qed.

(** C1: a line that does not start with [#] and whose stripped form splits
    on the tab into at least 10 parts is parsed into a mapping whose key
    set is exactly the 33 pairwise distinct names of [FIELDS]; the i-th name
    maps to the i-th part when there is one and to the empty string
    otherwise. *)
Theorem parse_log_line_record (line : str) :
  startswith line (py "#") = false →
  (10 ≤ length (split (strip line) TAB))%nat →
  ∃ r : record,
    parse_log_line line = Ok (Some r)
    ∧ dom r = list_to_set FIELDS
    ∧ length FIELDS = 33%nat ∧ NoDup FIELDS
    ∧ ∀ i name, FIELDS !! i = Some name →
        r !! name = Some (default [] (split (strip line) TAB !! i)).
Proof.
  intros Hc Hlen.
  destruct (parse_log_line_accepts line Hc Hlen) as (r & Hr & Hdom & Hlook).
  exists r. eauto using FIELDS_length, FIELDS_NoDup.
Qed.

Lemma parse_log_line_record_witness :
  ∃ r : record,
    parse_log_line
      (sample_line "2024-05-01" "1.2.3.4" "/" "200" "Mozilla" "mid=ab12")
    = Ok (Some r)
    ∧ dom r = list_to_set FIELDS
    ∧ length FIELDS = 33%nat ∧ NoDup FIELDS
    ∧ ∀ i name, FIELDS !! i = Some name →
        r !! name
        = Some (default []
                  (split (strip (sample_line "2024-05-01" "1.2.3.4" "/" "200"
                                   "Mozilla" "mid=ab12")) TAB !! i)).
Proof.
  apply parse_log_line_record.
  - reflexivity.
  - vm_compute. lia.
Defined.

(** C2: a line that starts with [#], and a line whose stripped form splits
    on the tab into fewer than 10 parts, yields no record; the parser
    returns normally ([Ok]) and raises nothing. *)
Theorem parse_log_line_rejects (line : str) :
  startswith line (py "#") = true
  ∨ (length (split (strip line) TAB) < 10)%nat →
  parse_log_line line = Ok None.
Proof.
  intros [H|H]; [by apply parse_log_line_comment|by apply parse_log_line_short].
Qed.

Lemma parse_log_line_rejects_witness :
  parse_log_line (py "#Version: 1.0") = Ok None
  ∧ parse_log_line (join_tab [py "2024-05-01"; py "10:00:00"; py "IAD89-C1"])
    = Ok None.
Proof.
  split; apply parse_log_line_rejects.
  - left. reflexivity.
  - right. vm_compute. lia.
Defined.

(** The parser never raises. *)
Lemma parse_log_line_total line : ∃ o, parse_log_line line = Ok o.
Proof.
  destruct (startswith line (py "#")) eqn:Hc.
  { exists None. by apply parse_log_line_comment. }
  destruct (decide (length (split (strip line) TAB) < 10)%nat) as [Hs|Hl].
  { exists None. by apply parse_log_line_short. }
  destruct (parse_log_line_accepts line Hc) as (r & Hr & _); [lia|]. eauto.
Qed.

Lemma parsed_has_fields line r :
  parse_log_line line = Ok (Some r) → has_fields r.
Proof.
  intros Hp.
  destruct (startswith line (py "#")) eqn:Hc.
  { by rewrite (parse_log_line_comment _ Hc) in Hp. }
  destruct (decide (length (split (strip line) TAB) < 10)%nat) as [Hs|Hl].
  { by rewrite (parse_log_line_short _ Hs) in Hp. }
  destruct (parse_log_line_accepts line Hc) as (r' & Hr & _ & Hlook); [lia|].
  rewrite Hr in Hp. injection Hp as ->.
  apply Forall_forall. intros k Hk.
  apply list_elem_of_lookup in Hk as [i Hi]. rewrite (Hlook i k Hi). eauto.
Qed.

(** *** String operations *)

Example strip_sample :
  strip ([32; 9]%N ++ py "a" ++ [9%N] ++ py "b" ++ [9; 32; 13; 10]%N)
  = py "a" ++ [9%N] ++ py "b".
Proof. reflexivity. Qed.

Example split_samples :
  split [] TAB = [[]]
  ∧ split [TAB] TAB = [[]; []]
  ∧ split (py "a" ++ [TAB; TAB] ++ py "bc") TAB = [py "a"; []; py "bc"].
Proof. by repeat split. Qed.

Lemma split_nonempty s sep : split s sep ≠ [].
Proof.
  destruct s as [|c s]; simpl; [done|].
  destruct (c =? sep)%N; [done|]. by destruct (split s sep).
Qed.

Lemma startswith_app s p : startswith s p = true ↔ ∃ rest, s = p ++ rest.
Proof.
  revert s. induction p as [|c p IH]; intros s; simpl.
  - split; [intros _; by exists s|done].
  - destruct s as [|d s].
    + split; [done|]. by intros [? ?].
    + rewrite andb_true_iff, N.eqb_eq, IH. split.
      * intros [-> [rest ->]]. eauto.
      * intros [rest [= -> ->]]. eauto.
Qed.

Lemma take_drop_while {A} (p : A → bool) l :
  take_while p l ++ drop_while p l = l.
Proof. induction l as [|x l IH]; simpl; [done|]. destruct (p x); simpl; congruence. Qed.

Lemma take_while_Forall {A} (p : A → bool) l :
  Forall (λ x, p x = true) (take_while p l).
Proof.
  induction l as [|x l IH]; simpl; [constructor|].
  destruct (p x) eqn:Hp; by constructor.
Qed.

Lemma drop_while_head {A} (p : A → bool) l x :
  head (drop_while p l) = Some x → p x = false.
Proof.
  induction l as [|y l IH]; simpl; [done|].
  destruct (p y) eqn:Hp; [done|]. simpl. by intros [= <-].
Qed.

Lemma take_while_app {A} (p : A → bool) g rest :
  Forall (λ x, p x = true) g →
  (∀ x, head rest = Some x → p x = false) →
  take_while p (g ++ rest) = g ∧ drop_while p (g ++ rest) = rest.
Proof.
  intros Hg Hrest. induction Hg as [|x g Hx _ IH]; simpl.
  - destruct rest as [|y rest]; simpl; [done|]. by rewrite (Hrest y).
  - rewrite Hx. destruct IH as [-> ->]. done.
Qed.

(** *** Visitor Identity Resolver *)

Lemma mid_match_here_at s g : mid_match_here s = Some g ↔ mid_at s 0 g.
Proof.
  unfold mid_match_here, mid_at. rewrite drop_0. split.
  - destruct (startswith s (py "mid=")) eqn:Hs; [|done].
    apply startswith_app in Hs as [rest ->].
    change (drop 4 (py "mid=" ++ rest)) with rest.
    intros Hg. exists (drop_while is_hexdash rest).
    assert (take_while is_hexdash rest = g) as Htw
      by (destruct (take_while is_hexdash rest); congruence).
    rewrite <- Htw at 1. rewrite take_drop_while. split; [done|].
    split; [by destruct (take_while is_hexdash rest); [|subst]|].
    split; [rewrite <- Htw; apply take_while_Forall|apply drop_while_head].
  - intros (rest & -> & Hne & Hg & Hrest).
    change (startswith (py "mid=" ++ g ++ rest) (py "mid=")) with true.
    change (drop 4 (py "mid=" ++ g ++ rest)) with (g ++ rest).
    destruct (take_while_app is_hexdash g rest Hg Hrest) as [-> _].
    by destruct g.
Qed.

Lemma mid_at_drop s i g : mid_at s i g ↔ mid_match_here (drop i s) = Some g.
Proof.
  rewrite mid_match_here_at. unfold mid_at. by rewrite drop_0.
Qed.

Lemma mid_search_Some s g :
  mid_search s = Some g →
  ∃ i, mid_at s i g ∧ ∀ j g', (j < i)%nat → ¬ mid_at s j g'.
Proof.
  induction s as [|c s IH].
  - done.
  - simpl. destruct (mid_match_here (c :: s)) as [g0|] eqn:Hm.
    + intros [= ->]. exists 0%nat. split; [by apply mid_at_drop|]. intros; lia.
    + intros Hs. destruct (IH Hs) as (i & Hi & Hleft).
      exists (S i). split; [apply mid_at_drop; simpl; by apply mid_at_drop|].
      intros [|j] g' Hj Hat.
      * apply mid_at_drop in Hat. simpl in Hat. congruence.
      * apply (Hleft j g'); [lia|]. apply mid_at_drop. by apply mid_at_drop in Hat.
Qed.

Lemma mid_search_None s : mid_search s = None → ∀ i g, ¬ mid_at s i g.
Proof.
  induction s as [|c s IH]; simpl.
  - intros _ i g Hat. apply mid_at_drop in Hat. by rewrite drop_nil in Hat.
  - destruct (mid_match_here (c :: s)) eqn:Hm; [done|]. intros Hs [|i] g Hat.
    + apply mid_at_drop in Hat. simpl in Hat. congruence.
    + apply (IH Hs i g). apply mid_at_drop. by apply mid_at_drop in Hat.
Qed.

Lemma mid_search_leftmost s i g :
  mid_at s i g → (∀ j g', (j < i)%nat → ¬ mid_at s j g') →
  mid_search s = Some g.
Proof.
  intros Hat Hleft. destruct (mid_search s) as [g0|] eqn:Hs.
  - destruct (mid_search_Some _ _ Hs) as (i0 & Hat0 & Hleft0).
    destruct (lt_eq_lt_dec i0 i) as [[Hlt| ->]|Hgt].
    + by destruct (Hleft i0 g0 Hlt).
    + apply mid_at_drop in Hat, Hat0. congruence.
    + by destruct (Hleft0 i g Hgt).
  - by destruct (mid_search_None _ Hs i g).
Qed.

Lemma getitem_fld r k : is_Some (r !! k) → getitem r k = Ok (fld r k).
Proof. intros [v Hv]. unfold getitem, fld. by rewrite Hv. Qed.

Lemma has_fields_lookup r k : has_fields r → k ∈ FIELDS → is_Some (r !! k).
Proof. intros Hr Hk. by apply (proj1 (Forall_forall _ _) Hr). Qed.

(** The visitor id of a record, as a function of its fields. *)
Lemma get_visitor_id_fld r :
  has_fields r →
  get_visitor_id r
  = Ok (default (fld r (py "client_ip")) (mid_search (fld r (py "cookie")))).
Proof.
  intros Hr. unfold get_visitor_id. fold (fld r (py "cookie")).
  destruct (mid_search _); [done|]. apply getitem_fld.
  apply has_fields_lookup; [done|]. apply (bool_decide_unpack _). by vm_compute.
Qed.

(** C3, amended: for a Parsed Record the resolver returns the run of
    characters of [[a-f0-9-]] (lower-case hexadecimal digits and dashes) that
    follows the leftmost [mid=] of the cookie that is followed by such a
    character, and the client address when the cookie has no such place; in
    particular it returns [abc123-def456] when that leftmost match is
    [mid=abc123-def456], whatever the client address is; and the result is
    determined by the cookie and client-address fields. *)
Theorem get_visitor_id_spec (r : record) :
  has_fields r →
  let cookie := fld r (py "cookie") in
  (∀ i g, mid_at cookie i g → (∀ j g', (j < i)%nat → ¬ mid_at cookie j g') →
     get_visitor_id r = Ok g)
  ∧ ((∀ i g, ¬ mid_at cookie i g) →
     get_visitor_id r = Ok (fld r (py "client_ip")))
  ∧ (∀ i, mid_at cookie i (py "abc123-def456") →
       (∀ j g', (j < i)%nat → ¬ mid_at cookie j g') →
       ∀ r', has_fields r' → fld r' (py "cookie") = cookie →
         get_visitor_id r' = Ok (py "abc123-def456"))
  ∧ (∀ r', has_fields r' →
       fld r' (py "cookie") = cookie →
       fld r' (py "client_ip") = fld r (py "client_ip") →
       get_visitor_id r' = get_visitor_id r).
Proof.
  intros Hr cookie. rewrite (get_visitor_id_fld r Hr). fold cookie.
  split; [|split; [|split]].
  - intros i g Hat Hleft. by rewrite (mid_search_leftmost _ _ _ Hat Hleft).
  - intros Hnone. destruct (mid_search cookie) as [g|] eqn:Hs; [|done].
    destruct (mid_search_Some _ _ Hs) as (i & Hat & _). by destruct (Hnone i g).
  - intros i Hat Hleft r' Hr' Hc. rewrite (get_visitor_id_fld r' Hr'), Hc.
    by rewrite (mid_search_leftmost _ _ _ Hat Hleft).
  - intros r' Hr' Hc Hip. rewrite (get_visitor_id_fld r' Hr'). congruence.
Qed.

Lemma get_visitor_id_spec_witness :
  get_visitor_id visitor_sample = Ok (py "abc123-def456").
Proof.
  assert (has_fields visitor_sample) as Hr
    by (apply (bool_decide_unpack _); vm_compute; reflexivity).
  destruct (get_visitor_id_spec visitor_sample Hr) as (_ & _ & Hmid & _).
  apply (Hmid 0%nat).
  - apply mid_at_drop. vm_compute. reflexivity.
  - intros j g' Hj. lia.
  - exact Hr.
  - reflexivity.
Defined.

(** C3 as stated fails: a cookie can contain [mid=abc123-def456] and the
    resolver return another id. *)
Lemma visitor_id_as_stated_fails :
  (has_fields longer_id_sample ∧ ¬ visitor_id_as_stated longer_id_sample)
  ∧ (has_fields second_mid_sample ∧ ¬ visitor_id_as_stated second_mid_sample).
Proof.
  split; (split; [apply (bool_decide_unpack _); vm_compute; reflexivity|]).
  - intros H. assert (get_visitor_id longer_id_sample = Ok (py "abc123-def456"))
      as Hid by (apply H; vm_compute; reflexivity).
    vm_compute in Hid. discriminate Hid.
  - intros H. assert (get_visitor_id second_mid_sample = Ok (py "abc123-def456"))
      as Hid by (apply H; vm_compute; reflexivity).
    vm_compute in Hid. discriminate Hid.
Qed.

Example get_visitor_id_second_mid :
  get_visitor_id second_mid_sample = Ok (py "0").
Proof. vm_compute. reflexivity. Qed.

(** *** Browser classification *)

Local Ltac browser_case :=
  repeat split; first [done | tauto | by repeat constructor].

(** C4: the classification follows the ordered precedence Chrome, Firefox,
    Safari (without Chrome), Edge, Bot (a lower-cased user agent containing
    [bot] or [crawler]), Other; its result is one of these six names; and a
    user agent containing both [Chrome] and [Safari] is Chrome, not Safari. *)
Theorem classify_browser_precedence `{StrLower} (ua : str) :
  let has s := contains s ua = true in
  let has_lower s := contains s (str_lower ua) = true in
  let chrome := has (py "Chrome") in
  let firefox := has (py "Firefox") in
  let safari := has (py "Safari") ∧ ¬ has (py "Chrome") in
  let edge := has (py "Edge") in
  let bot := has_lower (py "bot") ∨ has_lower (py "crawler") in
  (chrome → classify_browser ua = py "Chrome")
  ∧ (¬ chrome → firefox → classify_browser ua = py "Firefox")
  ∧ (¬ chrome → ¬ firefox → safari → classify_browser ua = py "Safari")
  ∧ (¬ chrome → ¬ firefox → ¬ safari → edge →
       classify_browser ua = py "Edge")
  ∧ (¬ chrome → ¬ firefox → ¬ safari → ¬ edge → bot →
       classify_browser ua = py "Bot")
  ∧ (¬ chrome → ¬ firefox → ¬ safari → ¬ edge → ¬ bot →
       classify_browser ua = py "Other")
  ∧ classify_browser ua
      ∈ [py "Chrome"; py "Firefox"; py "Safari"; py "Edge"; py "Bot"; py "Other"]
  ∧ (has (py "Chrome") → has (py "Safari") →
       classify_browser ua = py "Chrome" ∧ classify_browser ua ≠ py "Safari").
Proof.
  intros has has_lower chrome firefox safari edge bot.
  unfold chrome, firefox, safari, edge, bot, has, has_lower, classify_browser.
  destruct (contains (py "Chrome") ua) eqn:HC; [browser_case|].
  destruct (contains (py "Firefox") ua) eqn:HF; [browser_case|].
  destruct (contains (py "Safari") ua) eqn:HS; simpl; [browser_case|].
  destruct (contains (py "Edge") ua) eqn:HE; [browser_case|].
  destruct (contains (py "bot") (str_lower ua)) eqn:HB; simpl; [browser_case|].
  destruct (contains (py "crawler") (str_lower ua)) eqn:HCr; browser_case.
Qed.

Lemma classify_browser_precedence_witness :
  @classify_browser ascii_lower chrome_ua = py "Chrome"
  ∧ @classify_browser ascii_lower chrome_ua ≠ py "Safari".
Proof.
  apply (@classify_browser_precedence ascii_lower chrome_ua).
  - vm_compute. reflexivity.
  - vm_compute. reflexivity.
Defined.

(** *** Log Loader *)

Example gregorian_cutoff :
  (dt ← @minus_days gregorian sample_now 30; Ok (@strftime_Ymd gregorian dt))
  = Ok (py "2026-10-05").
Proof. vm_compute. reflexivity. Qed.

Lemma str_lt_nil_r a : str_lt a [] = false.
Proof. by destruct a. Qed.

Lemma has_fields_truthy r : has_fields r → dict_truthy r = true.
Proof.
  intros Hr. unfold dict_truthy. destruct (bool_decide_reflect (r = ∅)) as [->|]; [|done].
  destruct (has_fields_lookup ∅ (py "date") Hr) as [v Hv].
  - apply (bool_decide_unpack _). by vm_compute.
  - by rewrite lookup_empty in Hv.
Qed.

Lemma older_than_kept c r :
  has_fields r → older_than c r = Ok (negb (bool_decide (kept c r))).
Proof.
  intros Hr. destruct c as [c|]; simpl; [|done].
  rewrite getitem_fld
    by (apply has_fields_lookup; [done|]; apply (bool_decide_unpack _); by vm_compute).
  case_bool_decide as Hk; unfold kept, not_older in Hk; simpl.
  - rewrite Hk. by destruct (str_truthy c).
  - destruct c as [|x c]; [by rewrite str_lt_nil_r in Hk|].
    change (str_truthy (x :: c)) with true. simpl.
    by destruct (str_lt (fld r (py "date")) (x :: c)).
Qed.

Lemma parsed_cons line lines : parsed (line :: lines) = parsed [line] ++ parsed lines.
Proof. unfold parsed. simpl. by destruct (parse_log_line line) as [[r|]|]. Qed.

Lemma load_line_kept c records line :
  load_line c records line = Ok (records ++ filter (kept c) (parsed [line])).
Proof.
  unfold load_line, parsed. simpl.
  destruct (parse_log_line_total line) as [[r|] Hp]; rewrite Hp; simpl.
  - pose proof (parsed_has_fields _ _ Hp) as Hr.
    rewrite (has_fields_truthy _ Hr), (older_than_kept _ _ Hr). simpl.
    rewrite filter_cons, filter_nil.
    destruct (decide (kept c r)) as [Hk|Hk].
    + by rewrite (bool_decide_eq_true_2 _ Hk).
    + by rewrite (bool_decide_eq_false_2 _ Hk), app_nil_r.
  - by rewrite filter_nil, app_nil_r.
Qed.

Lemma load_lines_kept c records lines :
  load_lines c records lines
  = (records ++ filter (kept c) (parsed lines), None).
Proof.
  revert records. induction lines as [|line lines IH]; intros records.
  - simpl. by rewrite filter_nil, app_nil_r.
  - cbn [load_lines].
    rewrite load_line_kept, IH, (parsed_cons line lines), filter_app.
    by rewrite (assoc_L (++)).
Qed.

Lemma accepted_cons f logs_dir :
  accepted (f :: logs_dir)
  = (if is_read f then parsed (entry_lines f) else []) ++ accepted logs_dir.
Proof. done. Qed.

Lemma read_warnings_cons f logs_dir :
  read_warnings (f :: logs_dir)
  = (if is_read f then
       match entry_error f with Some e => [(entry_name f, e)] | None => [] end
     else []) ++ read_warnings logs_dir.
Proof.
  unfold read_warnings. cbn [omap list_omap].
  destruct (is_read f); [|done]. by destruct (entry_error f).
Qed.

Lemma load_files_kept c records warnings logs_dir :
  foldl (load_file c) (records, warnings) logs_dir
  = (records ++ filter (kept c) (accepted logs_dir),
     warnings ++ read_warnings logs_dir).
Proof.
  revert records warnings.
  induction logs_dir as [|f logs_dir IH]; intros records warnings.
  - cbn. by rewrite ?filter_nil, !app_nil_r.
  - cbn [foldl]. rewrite accepted_cons, read_warnings_cons, filter_app.
    unfold load_file at 2. destruct (is_read f).
    + rewrite load_lines_kept.
      destruct (entry_error f) as [e|]; cbn; rewrite IH;
        by rewrite <- ?(assoc_L (++)).
    + rewrite IH. by rewrite filter_nil.
Qed.

Lemma filter_all {A} (P : A → Prop) `{∀ x, Decision (P x)} (l : list A) :
  (∀ x, P x) → filter P l = l.
Proof.
  intros HP. induction l as [|x l IH]; [done|].
  rewrite filter_cons. destruct (decide (P x)) as [|Hn]; [by rewrite IH|by destruct Hn].
Qed.

Lemma load_logs_cutoff `{DateTime} (now : datetime) logs_dir days c :
  match days with
  | None => Ok None
  | Some n =>
      if n =? 0 then Ok None
      else (dt ← minus_days now n; Ok (Some (strftime_Ymd dt)))
  end = Ok c →
  load_logs now logs_dir days
  = Ok (filter (kept c) (accepted logs_dir), read_warnings logs_dir).
Proof.
  intros Hc. unfold load_logs. rewrite Hc. simpl. by rewrite load_files_kept.
Qed.

Lemma accepted_has_fields logs_dir : Forall has_fields (accepted logs_dir).
Proof.
  unfold accepted. apply Forall_concat, Forall_fmap, Forall_forall.
  intros f _. simpl. destruct (is_read f); [|constructor].
  unfold parsed. apply Forall_forall. intros r Hr.
  apply list_elem_of_omap in Hr as (line & _ & Hline).
  destruct (parse_log_line line) as [[r'|]|] eqn:Hp; simplify_eq.
  by eapply parsed_has_fields.
Qed.

(** The records that the loader returns have their fields. *)
Lemma load_logs_has_fields `{DateTime} (now : datetime) logs_dir days
    records warnings :
  load_logs now logs_dir days = Ok (records, warnings) →
  Forall has_fields records.
Proof.
  unfold load_logs. intros Hload.
  destruct (match days with None => _ | Some _ => _ end) as [c|e]; [|done].
  rewrite bind_Ok, load_files_kept in Hload. injection Hload as <- _.
  apply Forall_forall. intros r [_ Hr]%list_elem_of_filter.
  by apply (proj1 (Forall_forall _ _) (accepted_has_fields logs_dir)).
Qed.

(** The window 0 is falsy in [if days:]: no cutoff is computed and every
    accepted record is returned. *)
Lemma load_logs_window_zero `{DateTime} (now : datetime) logs_dir :
  load_logs now logs_dir (Some 0)
  = Ok (accepted logs_dir, read_warnings logs_dir).
Proof.
  rewrite (load_logs_cutoff now logs_dir (Some 0) None eq_refl).
  by rewrite (filter_all (kept None)).
Qed.


(** C8, amended: for a window [n] other than 0 for which the library can
    represent today minus [n] days, the cutoff is the date string of that
    day, and the loader returns the accepted records, in their order, with
    exactly those removed whose date lexically precedes the cutoff; when no
    window is given it returns all accepted records. *)
Theorem load_logs_window `{DateTime} (now : datetime)
    (logs_dir : list dir_entry) (n : Z) (dt : datetime) :
  n ≠ 0 →
  minus_days now n = Ok dt →
  load_logs now logs_dir (Some n)
  = Ok (filter (not_older (strftime_Ymd dt)) (accepted logs_dir),
        read_warnings logs_dir)
  ∧ (∀ r, r ∈ filter (not_older (strftime_Ymd dt)) (accepted logs_dir)
        ↔ r ∈ accepted logs_dir
          ∧ str_lt (fld r (py "date")) (strftime_Ymd dt) = false)
  ∧ load_logs now logs_dir None
    = Ok (accepted logs_dir, read_warnings logs_dir).
Proof.
  intros Hn Hdt. split; [|split].
  - apply (load_logs_cutoff now logs_dir (Some n) (Some (strftime_Ymd dt))).
    destruct (Z.eqb_spec n 0); [done|]. by rewrite Hdt.
  - intros r. rewrite list_elem_of_filter. unfold not_older. tauto.
  - rewrite (load_logs_cutoff now logs_dir None None eq_refl).
    by rewrite (filter_all (kept None)).
Qed.

Lemma load_logs_window_witness :
  @load_logs gregorian sample_now sample_dir (Some 1)
  = Ok (filter (not_older (py "2026-11-03")) (accepted sample_dir),
        read_warnings sample_dir).
Proof.
  destruct (@load_logs_window gregorian sample_now sample_dir 1
              (739923, 43200000000)) as [Hload _].
  - lia.
  - reflexivity.
  - exact Hload.
Defined.

Example load_logs_sample :
  (λ x : list record * list (str * exn),
     ((λ r, fld r (py "date")) <$> x.1, x.2))
    <$> @load_logs gregorian sample_now sample_dir (Some 1)
  = Ok ([py "2026-11-03"], [(py "E1.2026-11-03.gz", OSError)]).
Proof. vm_compute. reflexivity. Qed.

Example load_logs_overflow_sample :
  @load_logs gregorian sample_now sample_dir (Some 800000) = Raise OverflowError.
Proof. reflexivity. Qed.

(** C8 as stated fails for the window 0: the cutoff would be today, and the
    loader keeps a record of 2024. *)
Lemma date_window_as_stated_fails :
  ¬ @date_window_as_stated gregorian sample_now sample_dir 0.
Proof.
  intros (dt & records & warnings & Hdt & Hload & Hall).
  vm_compute in Hdt. injection Hdt as <-.
  rewrite (@load_logs_window_zero gregorian sample_now sample_dir) in Hload.
  injection Hload as <- _.
  assert (old_sample ∈ accepted sample_dir) as Hin
    by (apply (bool_decide_unpack _); vm_compute; reflexivity).
  destruct (Hall old_sample Hin) as [Hout _].
  apply Hout; [|exact Hin]. vm_compute. reflexivity.
Qed.

(** *** Metrics Aggregator: the computation on records that have their fields *)

Lemma FIELDS_elem (k : str) : bool_decide (k ∈ FIELDS) = true → k ∈ FIELDS.
Proof. apply bool_decide_eq_true_1. Qed.

Local Ltac field := apply FIELDS_elem; vm_compute; reflexivity.

Lemma getitem_has_fields r k :
  has_fields r → k ∈ FIELDS → getitem r k = Ok (fld r k).
Proof. intros Hr Hk. apply getitem_fld. by apply has_fields_lookup. Qed.

Lemma get_visitor_id_visitor r : has_fields r → get_visitor_id r = Ok (visitor r).
Proof. apply get_visitor_id_fld. Qed.

Lemma mapM_Ok {A B} (f : A → result B) (g : A → B) (P : A → Prop) l :
  (∀ x, P x → f x = Ok (g x)) → Forall P l → mapM f l = Ok (g <$> l).
Proof.
  intros Hf Hl. induction Hl as [|x l Hx _ IH]; [done|].
  cbn [mapM]. by rewrite (Hf x Hx), bind_Ok, IH.
Qed.

Lemma filterM_Ok {A} (f : A → result bool) (g : A → bool) (P : A → Prop) l :
  (∀ x, P x → f x = Ok (g x)) → Forall P l →
  filterM f l = Ok (filter (λ x, g x) l).
Proof.
  intros Hf Hl. induction Hl as [|x l Hx _ IH]; [done|].
  cbn [filterM]. rewrite (Hf x Hx), bind_Ok, IH, bind_Ok, filter_cons.
  destruct (g x); by rewrite ?decide_True, ?decide_False by done.
Qed.

Lemma foldlM_Ok {A B} (f : A → B → result A) (g : A → B → A) (P : B → Prop) l a :
  (∀ a x, P x → f a x = Ok (g a x)) → Forall P l →
  foldlM f a l = Ok (foldl g a l).
Proof.
  intros Hf Hl. revert a. induction Hl as [|x l Hx _ IH]; intros a; [done|].
  cbn [foldlM foldl]. by rewrite (Hf a x Hx), bind_Ok, IH.
Qed.

Lemma visitor_set_Ok rs :
  Forall has_fields rs → visitor_set rs = Ok (visitors_of rs).
Proof.
  intros Hrs. unfold visitor_set.
  by rewrite (mapM_Ok _ visitor has_fields rs get_visitor_id_visitor Hrs).
Qed.

Lemma select_Ok k p rs :
  k ∈ FIELDS → Forall has_fields rs → select k p rs = Ok (where_ k p rs).
Proof.
  intros Hk Hrs. unfold select, where_.
  apply (filterM_Ok _ (λ r, p (fld r k)) has_fields); [|done].
  intros r Hr. by rewrite (getitem_has_fields r k Hr Hk).
Qed.

Lemma where_has_fields k p rs :
  Forall has_fields rs → Forall has_fields (where_ k p rs).
Proof.
  rewrite !Forall_forall. intros Hrs r Hr.
  apply list_elem_of_filter in Hr as [_ Hr]. by apply Hrs.
Qed.

Lemma count_by_Ok (key : record → result str) (keyf : record → str) rs :
  (∀ r, has_fields r → key r = Ok (keyf r)) → Forall has_fields rs →
  count_by key rs = Ok (counts (keyf <$> rs)).
Proof.
  intros Hkey Hrs. unfold count_by, counts.
  rewrite (foldlM_Ok _ (λ d r, incr d (keyf r)) has_fields rs []); [|by intros d r Hr; rewrite (Hkey r Hr)|done].
  f_equal. generalize (@nil (str * Z)).
  induction rs as [|r rs IH]; intros d; [done|]. cbn. apply IH.
  by apply Forall_cons in Hrs as [_ ?].
Qed.

Lemma traffic_by_day_Ok rs :
  Forall has_fields rs → traffic_by_day rs = Ok (traffic rs).
Proof.
  intros Hrs. unfold traffic_by_day, traffic.
  apply (foldlM_Ok _ _ has_fields); [|done].
  intros d r Hr.
  rewrite (getitem_has_fields r (py "date") Hr) by field.
  by rewrite bind_Ok, (get_visitor_id_visitor r Hr).
Qed.

Lemma str_min_Ok rs : rs ≠ [] → str_min (date <$> rs) = Ok (min_date rs).
Proof. by destruct rs. Qed.

Lemma str_max_Ok rs : rs ≠ [] → str_max (date <$> rs) = Ok (max_date rs).
Proof. by destruct rs. Qed.

Lemma mapM_getitem k rs :
  k ∈ FIELDS → Forall has_fields rs →
  mapM (λ r, getitem r k) rs = Ok ((λ r, fld r k) <$> rs).
Proof.
  intros Hk. apply mapM_Ok. intros r Hr. by apply getitem_has_fields.
Qed.

Lemma count_by_getitem k rs :
  k ∈ FIELDS → Forall has_fields rs →
  count_by (λ r, getitem r k) rs = Ok (counts ((λ r, fld r k) <$> rs)).
Proof.
  intros Hk. apply count_by_Ok. intros r Hr. by apply getitem_has_fields.
Qed.

Lemma count_by_browser `{StrLower} rs :
  Forall has_fields rs →
  count_by (λ r, ua ← getitem r (py "user_agent"); Ok (classify_browser ua)) rs
  = Ok (counts ((λ r, classify_browser (fld r (py "user_agent"))) <$> rs)).
Proof.
  apply count_by_Ok. intros r Hr.
  by rewrite getitem_has_fields by (done || field).
Qed.

Local Ltac has_fields_solver :=
  first [ field | assumption | by repeat apply where_has_fields ].

Local Ltac run_step :=
  first
    [ rewrite bind_Ok
    | rewrite fmap_Ok
    | rewrite select_Ok by has_fields_solver
    | rewrite visitor_set_Ok by has_fields_solver
    | rewrite mapM_getitem by has_fields_solver
    | rewrite count_by_getitem by has_fields_solver
    | rewrite count_by_browser by has_fields_solver
    | rewrite traffic_by_day_Ok by has_fields_solver ].

Lemma analyze_logs_report `{StrLower} (records : list record) :
  records ≠ [] → Forall has_fields records →
  analyze_logs records = Ok (report_of records).
Proof.
  intros Hne Hrs. unfold analyze_logs.
  destruct records as [|r0 rs] eqn:Hrec; [done|]. rewrite <- Hrec in *.
  clear Hrec r0 rs. cbv zeta.
  repeat run_step.
  fold date. rewrite (str_min_Ok records Hne), bind_Ok.
  repeat run_step.
  fold date. rewrite (str_max_Ok records Hne), bind_Ok.
  reflexivity.
Qed.

(** C6: for the empty list the aggregator returns normally, and its result
    is a dict with the single key [error] and no metrics. *)
Theorem analyze_logs_empty `{StrLower} :
  ∃ rep,
    analyze_logs [] = Ok rep
    ∧ pkeys rep = [py "error"]
    ∧ pget (py "error") rep = Some (PStr (py "No log records found"))
    ∧ pget (py "summary") rep = None.
Proof. eexists. split; [reflexivity|]. by repeat split. Qed.

(** *** External clicks *)

Lemma at_end_spec s : at_end s = true ↔ s = [] ∨ s = [10%N].
Proof.
  destruct s as [|c [|d s]]; simpl.
  - split; [by left|done].
  - rewrite N.eqb_eq. split; [by intros ->; right|by intros [?|[= ->]]].
  - split; [done|by intros [?|?]].
Qed.

Lemma visit_match_here_spec s :
  visit_match_here s = true
  ↔ s = py "/visit" ∨ s = py "/register"
    ∨ s = py "/visit" ++ [10%N] ∨ s = py "/register" ++ [10%N].
Proof.
  unfold visit_match_here.
  rewrite orb_true_iff, !andb_true_iff, !startswith_app, !at_end_spec. split.
  - intros [[[rest ->] Hend]|[[rest ->] Hend]].
    + change (drop 6 (py "/visit" ++ rest)) with rest in Hend.
      destruct Hend as [-> | ->]; auto.
    + change (drop 9 (py "/register" ++ rest)) with rest in Hend.
      destruct Hend as [-> | ->]; auto.
  - intros [-> | [-> | [-> | ->]]].
    + left. split; [by exists []|by left].
    + right. split; [by exists []|by left].
    + left. split; [by exists [10%N]|by right].
    + right. split; [by exists [10%N]|by right].
Qed.

Lemma visit_pattern_search_suffix u :
  visit_pattern_search u = true
  ↔ ∃ s, s `suffix_of` u ∧ visit_match_here s = true.
Proof.
  induction u as [|c u IH].
  - split; [done|].
    intros (s & Hs & Hm). by apply suffix_nil_inv in Hs as ->.
  - cbn [visit_pattern_search]. rewrite orb_true_iff, IH. split.
    + intros [Hm|(s & Hs & Hm)].
      * by exists (c :: u).
      * exists s. split; [by apply suffix_cons_r|done].
    + intros (s & Hs & Hm). destruct s as [|x s]; [done|].
      apply suffix_cons_inv in Hs as [[= -> ->]|Hs]; eauto.
Qed.

Lemma visit_pattern_search_click u :
  visit_pattern_search u = true ↔ click_path u.
Proof.
  rewrite visit_pattern_search_suffix. unfold click_path. split.
  - intros (s & Hs & Hm).
    apply visit_match_here_spec in Hm as [-> | [-> | [-> | ->]]]; auto.
  - intros [Hs|[Hs|[Hs|Hs]]]; eexists; (split; [exact Hs|]);
      apply visit_match_here_spec; auto.
Qed.

Lemma visit_clicks_of_click records :
  visit_clicks_of records = filter (λ r, click_path (uri_stem r)) records.
Proof.
  unfold visit_clicks_of, where_. apply list_filter_iff. intros r.
  rewrite Is_true_true. apply visit_pattern_search_click.
Qed.

(** C7, amended: the section always has the [visit_store_clicks] counts,
    which are the number of click records (records whose path ends with
    [/visit] or [/register], possibly followed by one line feed) and the
    number of their distinct visitors; the note is the explanatory text
    when there is no click record, the counts being 0 then, and [None] when
    there is one. *)
Theorem external_clicks_section `{StrLower} (records : list record) :
  records ≠ [] → Forall has_fields records →
  let clicks := filter (λ r, click_path (uri_stem r)) records in
  ∃ rep ext,
    analyze_logs records = Ok rep
    ∧ pget (py "external_clicks") rep = Some ext
    ∧ pkeys ext = [py "visit_store_clicks"; py "note"]
    ∧ pget (py "visit_store_clicks") ext
      = Some (PDict [(py "total", PInt (len clicks));
                     (py "unique",
                        PInt (Z.of_nat (size (visitors_of clicks))))])
    ∧ (clicks = [] →
         pget (py "note") ext
         = Some (PStr (py "Requires /visit tracking endpoint"))
         ∧ len clicks = 0 ∧ size (visitors_of clicks) = 0%nat)
    ∧ (clicks ≠ [] → pget (py "note") ext = Some PNone).
Proof.
  intros Hne Hrs clicks. rewrite (analyze_logs_report records Hne Hrs).
  eexists. eexists. split; [reflexivity|]. split; [reflexivity|].
  rewrite visit_clicks_of_click. fold clicks.
  split; [reflexivity|]. split; [reflexivity|]. split.
  - intros ->. by repeat split.
  - intros Hc. by destruct clicks.
Qed.

Lemma external_clicks_section_witness :
  ∃ rep ext,
    @analyze_logs ascii_lower sample_records = Ok rep
    ∧ pget (py "external_clicks") rep = Some ext
    ∧ pget (py "visit_store_clicks") ext
      = Some (PDict [(py "total", PInt 0); (py "unique", PInt 0)])
    ∧ pget (py "note") ext
      = Some (PStr (py "Requires /visit tracking endpoint")).
Proof.
  destruct (@external_clicks_section ascii_lower sample_records)
    as (rep & ext & Hrep & Hext & _ & Hcounts & Hnone & _).
  - discriminate.
  - apply (bool_decide_unpack _). vm_compute. reflexivity.
  - exists rep, ext. split; [exact Hrep|]. split; [exact Hext|].
    split; [exact Hcounts|]. apply Hnone. vm_compute. reflexivity.
Defined.

(** C7 as stated fails: without any click record the section has the note
    and the counts. *)
Lemma note_instead_of_counts_as_stated_fails :
  ¬ @note_instead_of_counts_as_stated ascii_lower sample_records.
Proof.
  intros Hst. destruct Hst as (rep & ext & note & Hrep & Hext & _ & Hcounts).
  - discriminate.
  - apply Forall_forall. apply (bool_decide_unpack _). vm_compute. reflexivity.
  - vm_compute in Hrep. injection Hrep as <-.
    vm_compute in Hext. injection Hext as <-.
    vm_compute in Hcounts. discriminate Hcounts.
Qed.

(** *** Unique visitors *)

Lemma size_list_to_set_le (l : list str) :
  (size (list_to_set l : gset str) ≤ length l)%nat.
Proof.
  induction l as [|x l IH].
  - by rewrite list_to_set_nil, size_empty.
  - rewrite list_to_set_cons, size_union_alt, size_singleton. cbn [length].
    pose proof (subseteq_size (list_to_set l ∖ {[x]}) (list_to_set l : gset str)) as Hle.
    assert (list_to_set l ∖ {[x]} ⊆ (list_to_set l : gset str)) as Hsub
      by apply subseteq_difference_l, reflexivity.
    specialize (Hle Hsub). lia.
Qed.

Lemma visitors_of_le rs : Z.of_nat (size (visitors_of rs)) ≤ len rs.
Proof.
  unfold visitors_of, len.
  pose proof (size_list_to_set_le (visitor <$> rs)) as Hle.
  rewrite length_fmap in Hle. lia.
Qed.

(** C10: in the report of a non-empty list of records, each unique-visitor
    count is at most the total next to it: in the summary, for the home
    page, for the event details and for the visit-store clicks. *)
Theorem unique_at_most_total `{StrLower} (records : list record) :
  records ≠ [] → Forall has_fields records →
  ∃ rep total unique home_total home_unique event_total event_unique
      click_total click_unique,
    analyze_logs records = Ok rep
    ∧ pget_path [py "summary"; py "total_requests"] rep = Some (PInt total)
    ∧ pget_path [py "summary"; py "unique_visitors"] rep = Some (PInt unique)
    ∧ pget_path [py "page_views"; py "homepage"; py "total"] rep
      = Some (PInt home_total)
    ∧ pget_path [py "page_views"; py "homepage"; py "unique"] rep
      = Some (PInt home_unique)
    ∧ pget_path [py "page_views"; py "event_details"; py "total"] rep
      = Some (PInt event_total)
    ∧ pget_path [py "page_views"; py "event_details"; py "unique"] rep
      = Some (PInt event_unique)
    ∧ pget_path [py "external_clicks"; py "visit_store_clicks"; py "total"] rep
      = Some (PInt click_total)
    ∧ pget_path [py "external_clicks"; py "visit_store_clicks"; py "unique"] rep
      = Some (PInt click_unique)
    ∧ unique ≤ total ∧ home_unique ≤ home_total
    ∧ event_unique ≤ event_total ∧ click_unique ≤ click_total.
Proof.
  intros Hne Hrs. rewrite (analyze_logs_report records Hne Hrs).
  eexists _, _, _, _, _, _, _, _, _. split; [reflexivity|].
  do 8 (split; [reflexivity|]).
  auto using visitors_of_le.
Qed.

Lemma unique_at_most_total_witness :
  ∃ rep total unique home_total home_unique event_total event_unique
      click_total click_unique,
    @analyze_logs ascii_lower sample_records = Ok rep
    ∧ pget_path [py "summary"; py "total_requests"] rep = Some (PInt total)
    ∧ pget_path [py "summary"; py "unique_visitors"] rep = Some (PInt unique)
    ∧ pget_path [py "page_views"; py "homepage"; py "total"] rep
      = Some (PInt home_total)
    ∧ pget_path [py "page_views"; py "homepage"; py "unique"] rep
      = Some (PInt home_unique)
    ∧ pget_path [py "page_views"; py "event_details"; py "total"] rep
      = Some (PInt event_total)
    ∧ pget_path [py "page_views"; py "event_details"; py "unique"] rep
      = Some (PInt event_unique)
    ∧ pget_path [py "external_clicks"; py "visit_store_clicks"; py "total"] rep
      = Some (PInt click_total)
    ∧ pget_path [py "external_clicks"; py "visit_store_clicks"; py "unique"] rep
      = Some (PInt click_unique)
    ∧ unique ≤ total ∧ home_unique ≤ home_total
    ∧ event_unique ≤ event_total ∧ click_unique ≤ click_total.
Proof.
  apply (@unique_at_most_total ascii_lower sample_records).
  - discriminate.
  - apply (bool_decide_unpack _). vm_compute. reflexivity.
Defined.

(** The end-to-end scenario of the specification. *)
Example analyze_logs_sample :
  (λ rep, (λ ks, pget_path ks rep)
     <$> [ [py "summary"; py "total_requests"];
           [py "summary"; py "unique_visitors"];
           [py "summary"; py "successful_requests"];
           [py "page_views"; py "homepage"; py "total"];
           [py "api_usage"; py "total_api_calls"];
           [py "api_usage"; py "calendar_requests"];
           [py "page_views"; py "event_details"; py "total"];
           [py "page_views"; py "unique_events_viewed"] ])
    <$> @analyze_logs ascii_lower sample_records
  = Ok (Some <$> [PInt 3; PInt 2; PInt 2; PInt 1; PInt 1; PInt 1; PInt 1; PInt 1]).
Proof. vm_compute. reflexivity. Qed.

(** *** [sorted]: permutation, order, stability *)

Section sorted.
Context {A : Type} (lt : A → A → bool).

Lemma sorted_insert_Permutation x l : sorted_insert lt x l ≡ₚ x :: l.
Proof.
  induction l as [|y l IH]; simpl; [done|].
  destruct (lt y x); [|done]. rewrite IH. apply Permutation_swap.
Qed.

Lemma sorted_Permutation l : sorted lt l ≡ₚ l.
Proof.
  induction l as [|x l IH]; simpl; [done|].
  by rewrite sorted_insert_Permutation, IH.
Qed.

Lemma sorted_insert_sublist x l : l `sublist_of` sorted_insert lt x l.
Proof.
  induction l as [|y l IH]; simpl; [apply sublist_nil_l|].
  destruct (lt y x); [by apply sublist_skip|by apply sublist_cons].
Qed.

(** Insertion puts [x] before every element that is not smaller. *)
Lemma sorted_insert_before x y l :
  y ∈ l → not_greater lt x y → [x; y] `sublist_of` sorted_insert lt x l.
Proof.
  unfold not_greater. intros Hy Hxy. induction l as [|z l IH]; simpl.
  - by apply elem_of_nil in Hy.
  - destruct (lt z x) eqn:Hzx.
    + apply sublist_cons, IH. apply elem_of_cons in Hy as [->|Hy]; [congruence|done].
    + by apply sublist_skip, singleton_sublist_l.
Qed.

(** Stability: elements in order keep their relative position. *)
Lemma sorted_stable x y l :
  [x; y] `sublist_of` l → not_greater lt x y → [x; y] `sublist_of` sorted lt l.
Proof.
  intros Hsub Hxy. induction l as [|z l IH]; simpl.
  - by apply sublist_nil_r in Hsub.
  - apply sublist_cons_r in Hsub as [Hsub|(l' & [= -> <-] & Hsub)].
    + etrans; [by apply IH|apply sorted_insert_sublist].
    + apply sorted_insert_before; [|done].
      rewrite sorted_Permutation. by apply singleton_sublist_l.
Qed.

Hypothesis lt_asym : ∀ x y, lt x y = true → lt y x = false.
Hypothesis le_trans :
  ∀ x y z, not_greater lt x y → not_greater lt y z → not_greater lt x z.

Lemma sorted_insert_StronglySorted x l :
  StronglySorted (not_greater lt) l →
  StronglySorted (not_greater lt) (sorted_insert lt x l).
Proof.
  induction 1 as [|y l Hl IH Hy]; simpl.
  - by repeat constructor.
  - destruct (lt y x) eqn:Hyx.
    + constructor; [done|]. rewrite sorted_insert_Permutation.
      constructor; [by apply lt_asym|done].
    + constructor; [by constructor|]. constructor; [done|].
      eapply Forall_impl; [exact Hy|]. intros z Hz. by apply (le_trans _ y).
Qed.

Lemma sorted_StronglySorted l : StronglySorted (not_greater lt) (sorted lt l).
Proof.
  induction l as [|x l IH]; simpl; [constructor|].
  by apply sorted_insert_StronglySorted.
Qed.
End sorted.

Lemma StronglySorted_lookup_le {A} (R : relation A) l i j x y :
  StronglySorted R l → (i < j)%nat → l !! i = Some x → l !! j = Some y → R x y.
Proof.
  intros Hl. revert i j. induction Hl as [|z l Hl IH Hz]; intros i j Hij Hi Hj.
  - done.
  - destruct i as [|i], j as [|j]; try lia; simpl in *.
    + injection Hi as ->. apply (proj1 (Forall_forall _ _) Hz).
      by eapply list_elem_of_lookup_2.
    + apply (IH i j); [lia|done|done].
Qed.

Lemma lookup_pair_sublist {A} (l : list A) i j x y :
  (i < j)%nat → l !! i = Some x → l !! j = Some y → [x; y] `sublist_of` l.
Proof.
  revert i j. induction l as [|z l IH]; intros i j Hij Hi Hj; [done|].
  destruct i as [|i], j as [|j]; try lia; simpl in *.
  - injection Hi as ->. apply sublist_skip, singleton_sublist_l.
    by eapply list_elem_of_lookup_2.
  - apply sublist_cons, (IH i j); [lia|done|done].
Qed.

Lemma sublist_pair_either {A} (l : list A) x y :
  x ∈ l → y ∈ l → x ≠ y → [x; y] `sublist_of` l ∨ [y; x] `sublist_of` l.
Proof.
  intros Hx Hy Hne. induction l as [|z l IH]; [by apply elem_of_nil in Hx|].
  apply elem_of_cons in Hx as [->|Hx], Hy as [->|Hy]; try done.
  - left. by apply sublist_skip, singleton_sublist_l.
  - right. by apply sublist_skip, singleton_sublist_l.
  - destruct (IH Hx Hy); [left|right]; by apply sublist_cons.
Qed.

Lemma sublist_pair_NoDup {A} (l : list A) x y :
  NoDup l → [x; y] `sublist_of` l → [y; x] `sublist_of` l → False.
Proof.
  induction 1 as [|z l Hz Hl IH]; intros Hxy Hyx.
  - by apply sublist_nil_r in Hxy.
  - apply sublist_cons_r in Hxy as [Hxy|(l1 & [= -> <-] & Hxy)];
      apply sublist_cons_r in Hyx as [Hyx|(l2 & [= -> <-] & Hyx)].
    + by apply IH.
    + apply Hz. eapply elem_of_sublist; [|exact Hxy]. set_solver.
    + apply Hz. eapply elem_of_sublist; [|exact Hyx]. set_solver.
    + apply Hz. by apply singleton_sublist_l.
Qed.

(** In the sorted list of pairwise distinct elements, two elements that
    compare equal are in the order they had before. *)
Lemma sorted_stable_inv {A} (lt : A → A → bool) l x y :
  NoDup l → x ≠ y → lt x y = false → lt y x = false →
  [x; y] `sublist_of` sorted lt l → [x; y] `sublist_of` l.
Proof.
  intros Hl Hne Hxy Hyx Hsub.
  assert (x ∈ l ∧ y ∈ l) as [Hx Hy].
  { rewrite <- !(sorted_Permutation lt l).
    split; (eapply elem_of_sublist; [|exact Hsub]); set_solver. }
  destruct (sublist_pair_either l x y Hx Hy Hne) as [?|Hrev]; [done|].
  destruct (sublist_pair_NoDup (sorted lt l) x y); [|done|].
  - by rewrite sorted_Permutation.
  - by apply sorted_stable.
Qed.

Lemma StronglySorted_sublist_pair {A} (R : relation A) l x y :
  StronglySorted R l → [x; y] `sublist_of` l → R x y.
Proof.
  induction 1 as [|z l Hl IH Hz]; intros Hsub.
  - by apply sublist_nil_r in Hsub.
  - apply sublist_cons_r in Hsub as [Hsub|(l' & [= -> <-] & Hsub)]; [by apply IH|].
    apply (proj1 (Forall_forall _ _) Hz). by apply singleton_sublist_l.
Qed.

Lemma sublist_pair_elem {A} (l : list A) x y :
  [x; y] `sublist_of` l → x ∈ l ∧ y ∈ l.
Proof.
  intros Hsub. split; (eapply elem_of_sublist; [|exact Hsub]).
  - apply elem_of_cons. by left.
  - apply elem_of_cons. right. apply elem_of_cons. by left.
Qed.

Lemma sublist_pair_ne {A} (l : list A) x y :
  NoDup l → [x; y] `sublist_of` l → x ≠ y.
Proof.
  intros Hl Hsub ->. apply sublist_cons_l in Hsub as (k1 & k2 & -> & Hy).
  apply NoDup_app in Hl as (_ & _ & Hk2). apply NoDup_cons in Hk2 as [Hk2 _].
  apply Hk2. by apply singleton_sublist_l.
Qed.

(** Two lists without repetition that have the same elements, in the same
    relative order, are equal. *)
Lemma NoDup_same_order {A} (l k : list A) :
  NoDup l → l ≡ₚ k →
  (∀ x y, [x; y] `sublist_of` l → [x; y] `sublist_of` k) → l = k.
Proof.
  intros Hl. revert k. induction Hl as [|a l Ha Hl IH]; intros k Hperm Hord.
  { by apply Permutation_nil_l in Hperm. }
  assert (NoDup k) as Hk by (rewrite <- Hperm; by constructor).
  destruct k as [|b k]; [by apply Permutation_nil_r in Hperm|].
  assert (a = b) as <-.
  { assert (b ∈ a :: l) as Hb by (rewrite Hperm; apply elem_of_cons; by left).
    apply elem_of_cons in Hb as [->|Hb]; [done|].
    assert ([a; b] `sublist_of` b :: k) as Hsub
      by (by apply Hord, sublist_skip, singleton_sublist_l).
    apply sublist_cons_r in Hsub as [Hsub|(l' & [= Hab _] & _)]; [|done].
    apply NoDup_cons in Hk as [Hbk _]. destruct Hbk.
    by apply (sublist_pair_elem k a b). }
  f_equal. apply IH.
  - by apply Permutation_cons_inv in Hperm.
  - intros x y Hxy. specialize (Hord x y (sublist_cons _ _ _ Hxy)).
    apply sublist_cons_r in Hord as [?|(l' & [= -> <-] & _)]; [done|].
    destruct Ha. by apply (sublist_pair_elem l a y).
Qed.

(** [sorted] is a stable sort. *)
Lemma sorted_stable_sort {A} (lt : A → A → bool) l :
  (∀ x y, lt x y = true → lt y x = false) →
  (∀ x y z, not_greater lt x y → not_greater lt y z → not_greater lt x z) →
  stable_sort_of lt l (sorted lt l).
Proof.
  intros Hasym Htrans. split; [apply sorted_Permutation|]. split.
  - by apply sorted_StronglySorted.
  - intros x y. apply sorted_stable.
Qed.

(** On a list without repetition, such as the items of a dict, every stable
    sort returns the list that [sorted] returns. *)
Lemma stable_sort_unique {A} (lt : A → A → bool) l l' :
  NoDup l → stable_sort_of lt l l' → stable_sort_of lt l (sorted lt l) →
  l' = sorted lt l.
Proof.
  intros Hl (Hperm' & Hsorted' & Hstable') (Hperm & Hsorted & Hstable).
  assert (NoDup l') as Hl' by (by rewrite Hperm').
  assert (NoDup (sorted lt l)) as Hs by (by rewrite Hperm).
  apply NoDup_same_order; [done|by rewrite Hperm', Hperm|].
  intros x y Hxy.
  pose proof (sublist_pair_ne l' x y Hl' Hxy) as Hne.
  destruct (sublist_pair_elem l' x y Hxy) as [Hx Hy].
  rewrite Hperm' in Hx, Hy.
  destruct (sublist_pair_either (sorted lt l) x y) as [?|Hrev];
    [by rewrite Hperm..|done|done|].
  pose proof (StronglySorted_sublist_pair _ _ _ _ Hsorted Hrev) as Hyx.
  pose proof (StronglySorted_sublist_pair _ _ _ _ Hsorted' Hxy) as Hle.
  destruct (sublist_pair_either l x y Hx Hy Hne) as [Hin|Hin].
  - by apply Hstable.
  - destruct (sublist_pair_NoDup l' x y Hl' Hxy). by apply Hstable'.
Qed.

(** *** Grouping in a [defaultdict] *)

Lemma dict_update_keys {V} (dflt : V) f (d : list (str * V)) k :
  (dict_update dflt f d k).*1 = if decide (k ∈ d.*1) then d.*1 else d.*1 ++ [k].
Proof.
  induction d as [|[k' v] d IH]; cbn [dict_update].
  - rewrite decide_False; [done|]. apply not_elem_of_nil.
  - destruct (decide (k' = k)) as [->|Hne]; rewrite !fmap_cons; cbn [fst].
    + rewrite decide_True; [done|]. apply elem_of_cons. by left.
    + rewrite IH. destruct (decide (k ∈ d.*1)) as [Hin|Hnin].
      * rewrite decide_True; [done|]. apply elem_of_cons. by right.
      * rewrite decide_False; [done|]. rewrite elem_of_cons.
        intros [?|?]; [by destruct Hne|done].
Qed.

Lemma index_of_Some x l : x ∈ l → ∃ a, index_of x l = Some a ∧ (a < length l)%nat.
Proof.
  induction l as [|y l IH]; intros Hx; [by apply elem_of_nil in Hx|]. simpl.
  destruct (decide (y = x)) as [->|Hne]; [exists 0%nat; split; [done|lia]|].
  apply elem_of_cons in Hx as [->|Hx]; [done|].
  destruct (IH Hx) as (a & -> & Ha). exists (S a). split; [done|lia].
Qed.

Lemma index_of_app_l x l k a :
  index_of x l = Some a → index_of x (l ++ k) = Some a.
Proof.
  revert a. induction l as [|y l IH]; intros a; simpl; [done|].
  destruct (decide (y = x)); [done|].
  destruct (index_of x l) as [b|]; [|done]. by rewrite (IH b).
Qed.

Lemma index_of_app_r x l : x ∉ l → index_of x (l ++ [x]) = Some (length l).
Proof.
  induction l as [|y l IH]; intros Hx; cbn [app index_of length].
  - by rewrite decide_True.
  - apply not_elem_of_cons in Hx as [Hne Hx].
    rewrite decide_False by done. by rewrite IH.
Qed.

Section grouped.
Context {X V : Type} (dflt : V) (g : X → V → V) (key : X → str).

Lemma grouped_snoc d xs x :
  grouped dflt g key d (xs ++ [x])
  = dict_update dflt (g x) (grouped dflt g key d xs) (key x).
Proof. unfold grouped. by rewrite foldl_snoc. Qed.

Lemma grouped_keys_elem xs k :
  k ∈ (grouped dflt g key [] xs).*1 ↔ k ∈ key <$> xs.
Proof.
  induction xs as [|x xs IH] using rev_ind; [done|].
  rewrite grouped_snoc, dict_update_keys, fmap_app, elem_of_app.
  rewrite <- IH. cbn [fmap list_fmap]. rewrite list_elem_of_singleton.
  destruct (decide (key x ∈ _)) as [Hin|Hnin].
  - split; [by left|]. by intros [?| ->].
  - rewrite elem_of_app, list_elem_of_singleton. done.
Qed.

Lemma grouped_keys_NoDup xs : NoDup (grouped dflt g key [] xs).*1.
Proof.
  induction xs as [|x xs IH] using rev_ind; [constructor|].
  rewrite grouped_snoc, dict_update_keys.
  destruct (decide (key x ∈ _)) as [Hin|Hnin]; [done|].
  apply NoDup_app. split; [done|]. split; [|apply NoDup_singleton].
  intros k Hk ->%list_elem_of_singleton. done.
Qed.

(** The keys are in the order in which they are first encountered. *)
Lemma grouped_keys_order xs k1 k2 :
  [k1; k2] `sublist_of` (grouped dflt g key [] xs).*1 →
  first_seen_before (key <$> xs) k1 k2.
Proof.
  unfold first_seen_before.
  induction xs as [|x xs IH] using rev_ind; intros Hsub.
  { by apply sublist_nil_r in Hsub. }
  rewrite grouped_snoc, dict_update_keys in Hsub. rewrite fmap_app.
  destruct (decide (key x ∈ _)) as [Hin|Hnin].
  - destruct (IH Hsub) as (a & b & Ha & Hb & Hab).
    exists a, b. by rewrite (index_of_app_l _ _ _ _ Ha), (index_of_app_l _ _ _ _ Hb).
  - apply sublist_app_r in Hsub as (l1 & l2 & Heq & Hl1 & Hl2).
    apply sublist_cons_r in Hl2 as [Hl2|(l' & -> & Hl')].
    + apply sublist_nil_r in Hl2 as ->. rewrite app_nil_r in Heq. subst l1.
      destruct (IH Hl1) as (a & b & Ha & Hb & Hab).
      exists a, b. by rewrite (index_of_app_l _ _ _ _ Ha), (index_of_app_l _ _ _ _ Hb).
    + apply sublist_nil_r in Hl' as ->.
      destruct l1 as [|k1' [|k2' l1]]; simplify_eq/=; [|by destruct l1].
      apply singleton_sublist_l, grouped_keys_elem in Hl1.
      destruct (index_of_Some _ _ Hl1) as (a & Ha & Hlen).
      exists a, (length (key <$> xs)).
      rewrite (index_of_app_l _ _ _ _ Ha). split; [done|]. split; [|done].
      apply index_of_app_r. by rewrite <- grouped_keys_elem.
Qed.
End grouped.

(** *** Top pages *)

Lemma counts_grouped keys : counts keys = grouped 0 (λ _ n, n + 1) id [] keys.
Proof. reflexivity. Qed.

Lemma counts_NoDup keys : NoDup (counts keys).
Proof.
  apply (NoDup_fmap_1 fst). rewrite counts_grouped. apply grouped_keys_NoDup.
Qed.

Lemma by_neg_count_false x y : by_neg_count y x = false ↔ y.2 ≤ x.2.
Proof. unfold by_neg_count, neg_count. rewrite Z.ltb_ge. lia. Qed.

Lemma StronglySorted_mono {A} (R S : relation A) l :
  (∀ x y, R x y → S x y) → StronglySorted R l → StronglySorted S l.
Proof.
  intros HRS. induction 1 as [|x l Hl IH Hx]; constructor; [done|].
  eapply Forall_impl; [exact Hx|]. intros y. apply HRS.
Qed.

Lemma sorted_by_neg_count_StronglySorted l :
  StronglySorted (λ x y, y.2 ≤ x.2) (sorted by_neg_count l).
Proof.
  eapply StronglySorted_mono; [|apply (sorted_StronglySorted by_neg_count)].
  - intros x y. apply by_neg_count_false.
  - intros x y. unfold by_neg_count. rewrite Z.ltb_lt, Z.ltb_ge. lia.
  - intros x y z. unfold not_greater. rewrite !by_neg_count_false. lia.
Qed.

(** The list of the counts sorted by descending count: its order, and the
    order of its ties. *)
Lemma sorted_counts_order keys i j e1 e2 :
  let l := sorted by_neg_count (counts keys) in
  (i < j)%nat → l !! i = Some e1 → l !! j = Some e2 →
  e2.2 ≤ e1.2 ∧ (e1.2 = e2.2 → first_seen_before keys e1.1 e2.1).
Proof.
  intros l Hij Hi Hj. split.
  { by apply (StronglySorted_lookup_le _ l i j e1 e2
                (sorted_by_neg_count_StronglySorted _)). }
  intros Heq.
  assert (NoDup l) as Hl by (unfold l; rewrite sorted_Permutation; apply counts_NoDup).
  assert (e1 ≠ e2) as Hne.
  { intros ->. pose proof (NoDup_lookup l i j e2 Hl Hi Hj). lia. }
  pose proof (lookup_pair_sublist l i j e1 e2 Hij Hi Hj) as Hsub.
  apply sorted_stable_inv in Hsub;
    [|apply counts_NoDup|done|apply by_neg_count_false; lia..].
  pose proof (fmap_sublist fst _ _ Hsub) as Hkeys.
  rewrite counts_grouped in Hkeys.
  apply grouped_keys_order in Hkeys. by rewrite list_fmap_id in Hkeys.
Qed.

Lemma sorted_counts_unique keys l' :
  stable_sort_of by_neg_count (counts keys) l' →
  l' = sorted by_neg_count (counts keys).
Proof.
  intros Hl'. apply stable_sort_unique; [apply counts_NoDup|done|].
  apply sorted_stable_sort.
  - intros x y. unfold by_neg_count. rewrite Z.ltb_lt, Z.ltb_ge. lia.
  - intros x y z. unfold not_greater. rewrite !by_neg_count_false. lia.
Qed.

(** C5: the top-pages list has at most 15 entries, its counts do not
    increase, and of two entries with equal counts the one whose path is
    first encountered earlier in the records comes first. *)
Theorem top_pages_order `{StrLower} (records : list record) :
  records ≠ [] → Forall has_fields records →
  ∃ rep entries,
    analyze_logs records = Ok rep
    ∧ pget (py "top_pages") rep = Some (PList (counted (py "path") <$> entries))
    ∧ (length entries ≤ 15)%nat
    ∧ (∀ i j e1 e2, (i ≤ j)%nat →
         entries !! i = Some e1 → entries !! j = Some e2 → e2.2 ≤ e1.2)
    ∧ (∀ i j e1 e2, (i < j)%nat →
         entries !! i = Some e1 → entries !! j = Some e2 → e1.2 = e2.2 →
         first_seen_before (uri_stem <$> records) e1.1 e2.1).
Proof.
  intros Hne Hrs. rewrite (analyze_logs_report records Hne Hrs).
  exists (report_of records), (top_pages_of records).
  split; [done|]. split; [done|]. unfold top_pages_of. split; [|split].
  - rewrite length_take. lia.
  - intros i j e1 e2 Hij [Hi _]%lookup_take_Some [Hj _]%lookup_take_Some.
    destruct (decide (i = j)) as [->|Hneq]; [by simplify_eq|].
    apply (sorted_counts_order (uri_stem <$> records) i j e1 e2); [lia|done..].
  - intros i j e1 e2 Hij [Hi _]%lookup_take_Some [Hj _]%lookup_take_Some.
    by apply (sorted_counts_order (uri_stem <$> records) i j e1 e2).
Qed.

Lemma top_pages_order_witness :
  ∃ rep entries,
    @analyze_logs ascii_lower tie_records = Ok rep
    ∧ pget (py "top_pages") rep = Some (PList (counted (py "path") <$> entries))
    ∧ (length entries ≤ 15)%nat
    ∧ (∀ i j e1 e2, (i ≤ j)%nat →
         entries !! i = Some e1 → entries !! j = Some e2 → e2.2 ≤ e1.2)
    ∧ (∀ i j e1 e2, (i < j)%nat →
         entries !! i = Some e1 → entries !! j = Some e2 → e1.2 = e2.2 →
         first_seen_before (uri_stem <$> tie_records) e1.1 e2.1).
Proof.
  apply (@top_pages_order ascii_lower tie_records).
  - discriminate.
  - apply (bool_decide_unpack _). vm_compute. reflexivity.
Defined.

Example top_pages_ties :
  pget (py "top_pages") <$> @analyze_logs ascii_lower tie_records
  = Ok (Some (PList (counted (py "path")
                       <$> [(py "/b", 2); (py "/a", 2); (py "/c", 1)]))).
Proof. vm_compute. reflexivity. Qed.

(** *** The order of strings *)

Lemma str_lt_cons c a d b :
  str_lt (c :: a) (d :: b)
  = if (c <? d)%N then true else if (c =? d)%N then str_lt a b else false.
Proof. simpl. by destruct (c <? d)%N, (c =? d)%N. Qed.

Local Ltac compare_chars c d :=
  destruct (N.ltb_spec c d), (N.eqb_spec c d); try lia.

Lemma str_lt_asym a b : str_lt a b = true → str_lt b a = false.
Proof.
  revert b. induction a as [|c a IH]; intros [|d b]; try done.
  rewrite !str_lt_cons. compare_chars c d; compare_chars d c; try done.
  apply IH.
Qed.

Lemma str_le_trans a b c :
  str_lt b a = false → str_lt c b = false → str_lt c a = false.
Proof.
  revert b c. induction a as [|x a IH]; intros [|y b] [|z c]; try done.
  rewrite !str_lt_cons.
  compare_chars y x; compare_chars z y; compare_chars z x; try done.
  apply IH.
Qed.

Lemma str_lt_total a b : str_lt a b = false → str_lt b a = false → a = b.
Proof.
  revert b. induction a as [|c a IH]; intros [|d b]; try done.
  rewrite !str_lt_cons. compare_chars c d; compare_chars d c; try done.
  intros Hab Hba. subst. f_equal. by apply IH.
Qed.

(** *** Daily stats *)

Lemma traffic_grouped rs :
  traffic rs
  = grouped {| requests := 0; visitors := ∅ |} (λ r, day_add (visitor r)) date
      [] rs.
Proof. reflexivity. Qed.

Lemma sumZ_Permutation l k : l ≡ₚ k → sumZ l = sumZ k.
Proof. induction 1; simpl in *; lia. Qed.

Lemma dict_update_requests v (d : list (str * day)) k :
  sumZ ((λ x, requests x.2)
          <$> dict_update {| requests := 0; visitors := ∅ |} (day_add v) d k)
  = sumZ ((λ x, requests x.2) <$> d) + 1.
Proof.
  induction d as [|[k' y] d IH]; cbn [dict_update]; [done|].
  destruct (decide (k' = k)); rewrite !fmap_cons; simpl in *; lia.
Qed.

Lemma traffic_requests rs :
  sumZ ((λ x, requests x.2) <$> traffic rs) = len rs.
Proof.
  rewrite traffic_grouped. unfold len.
  induction rs as [|r rs IH] using rev_ind; [done|].
  rewrite grouped_snoc, dict_update_requests, IH, length_app. simpl. lia.
Qed.

Lemma sorted_by_date_StronglySorted {V} (l : list (str * V)) :
  StronglySorted (λ x y, str_lt y.1 x.1 = false) (sorted by_date l).
Proof.
  apply (sorted_StronglySorted by_date).
  - intros x y. apply str_lt_asym.
  - intros x y z. apply str_le_trans.
Qed.

(** Sorted keys without repetition ascend strictly. *)
Lemma sorted_keys_strict {V} (l : list (str * V)) :
  NoDup l.*1 → StronglySorted (λ x y, str_lt y.1 x.1 = false) l →
  StronglySorted (λ a b, str_lt a b = true) l.*1.
Proof.
  intros Hnd Hl. induction Hl as [|x l Hl IH Hx]; [constructor|].
  rewrite fmap_cons in *. apply NoDup_cons in Hnd as [Hnin Hnd].
  constructor; [by apply IH|].
  apply Forall_fmap, Forall_forall. intros y Hy. simpl.
  destruct (str_lt x.1 y.1) eqn:Hlt; [done|]. destruct Hnin.
  rewrite (str_lt_total x.1 y.1 Hlt); [by apply list_elem_of_fmap_2|].
  by apply (proj1 (Forall_forall _ _) Hx).
Qed.

Lemma daily_stats_keys rs :
  (daily_stats_of rs).*1 = (sorted by_date (traffic rs)).*1.
Proof. unfold daily_stats_of. by rewrite <- list_fmap_compose. Qed.

Lemma daily_stats_requests rs :
  Forall2 (λ (e : str * pyval) q, pget (py "requests") e.2 = Some (PInt q))
    (daily_stats_of rs)
    ((λ x, requests x.2) <$> sorted by_date (traffic rs)).
Proof.
  unfold daily_stats_of. apply Forall2_fmap, Forall_Forall2_diag, Forall_forall.
  by intros x _.
Qed.

Lemma traffic_keys_NoDup rs : NoDup (traffic rs).*1.
Proof. rewrite traffic_grouped. apply grouped_keys_NoDup. Qed.

Lemma sorted_traffic_unique rs l' :
  stable_sort_of by_date (traffic rs) l' → l' = sorted by_date (traffic rs).
Proof.
  intros Hl'. apply stable_sort_unique; [|done|].
  - apply (NoDup_fmap_1 fst), traffic_keys_NoDup.
  - apply sorted_stable_sort.
    + intros x y. apply str_lt_asym.
    + intros x y z. apply str_le_trans.
Qed.

(** C9: the keys of [daily_stats] are the dates of the records, each once,
    in strictly ascending order, and the request counts of its entries add
    up to [total_requests]. *)
Theorem daily_stats_dates `{StrLower} (records : list record) :
  records ≠ [] → Forall has_fields records →
  ∃ rep stats counts total,
    analyze_logs records = Ok rep
    ∧ pget (py "daily_stats") rep = Some (PDict stats)
    ∧ StronglySorted (λ a b, str_lt a b = true) stats.*1
    ∧ NoDup stats.*1
    ∧ (∀ d, d ∈ stats.*1 ↔ d ∈ date <$> records)
    ∧ Forall2 (λ (e : str * pyval) q,
                 pget (py "requests") e.2 = Some (PInt q)) stats counts
    ∧ pget_path [py "summary"; py "total_requests"] rep = Some (PInt total)
    ∧ sumZ counts = total.
Proof.
  intros Hne Hrs. rewrite (analyze_logs_report records Hne Hrs).
  exists (report_of records), (daily_stats_of records),
    ((λ x, requests x.2) <$> sorted by_date (traffic records)), (len records).
  assert (NoDup (daily_stats_of records).*1) as Hnd.
  { rewrite daily_stats_keys, sorted_Permutation, traffic_grouped.
    apply grouped_keys_NoDup. }
  split; [done|]. split; [done|]. split; [|split; [done|split; [|split; [|split]]]].
  - rewrite daily_stats_keys in *.
    apply sorted_keys_strict; [done|apply sorted_by_date_StronglySorted].
  - intros d. rewrite daily_stats_keys, sorted_Permutation, traffic_grouped.
    apply grouped_keys_elem.
  - apply daily_stats_requests.
  - done.
  - rewrite (sumZ_Permutation _ ((λ x, requests x.2) <$> traffic records)).
    + apply traffic_requests.
    + by rewrite sorted_Permutation.
Qed.

Lemma daily_stats_dates_witness :
  ∃ rep stats counts total,
    @analyze_logs ascii_lower sample_records = Ok rep
    ∧ pget (py "daily_stats") rep = Some (PDict stats)
    ∧ StronglySorted (λ a b, str_lt a b = true) stats.*1
    ∧ NoDup stats.*1
    ∧ (∀ d, d ∈ stats.*1 ↔ d ∈ date <$> sample_records)
    ∧ Forall2 (λ (e : str * pyval) q,
                 pget (py "requests") e.2 = Some (PInt q)) stats counts
    ∧ pget_path [py "summary"; py "total_requests"] rep = Some (PInt total)
    ∧ sumZ counts = total.
Proof.
  apply (@daily_stats_dates ascii_lower sample_records).
  - discriminate.
  - apply (bool_decide_unpack _). vm_compute. reflexivity.
Defined.

Example daily_stats_sample :
  pget (py "daily_stats") <$> @analyze_logs ascii_lower sample_records
  = Ok (Some (PDict [
      (py "2026-11-01",
         PDict [(py "requests", PInt 1); (py "unique_visitors", PInt 1)]);
      (py "2026-11-02",
         PDict [(py "requests", PInt 2); (py "unique_visitors", PInt 2)])])).
Proof. vm_compute. reflexivity. Qed.

(** *** Browser histogram *)

Lemma classify_browser_name `{StrLower} (ua : str) :
  classify_browser ua
  ∈ [py "Chrome"; py "Firefox"; py "Safari"; py "Edge"; py "Bot"; py "Other"].
Proof.
  unfold classify_browser.
  repeat (match goal with |- context [if ?b then _ else _] => destruct b end);
    by repeat constructor.
Qed.

Lemma incr_sum (d : list (str * Z)) k : sumZ (incr d k).*2 = sumZ d.*2 + 1.
Proof.
  unfold incr. induction d as [|[k' n] d IH]; cbn [dict_update]; [done|].
  destruct (decide (k' = k)); rewrite !fmap_cons; simpl in *; lia.
Qed.

Lemma counts_sum keys : sumZ (counts keys).*2 = len keys.
Proof.
  unfold counts, len. induction keys as [|k keys IH] using rev_ind; [done|].
  rewrite foldl_snoc, incr_sum, IH, length_app. simpl. lia.
Qed.

(** Every record is counted under exactly one of the six browser names. *)
Lemma browsers_histogram `{StrLower} (records : list record) :
  records ≠ [] → Forall has_fields records →
  ∃ rep hist,
    analyze_logs records = Ok rep
    ∧ pget (py "browsers") rep
      = Some (PDict ((λ x : str * Z, (x.1, PInt x.2)) <$> hist))
    ∧ NoDup hist.*1
    ∧ Forall (λ name, name ∈ [py "Chrome"; py "Firefox"; py "Safari";
                              py "Edge"; py "Bot"; py "Other"]) hist.*1
    ∧ sumZ hist.*2 = len records.
Proof.
  intros Hne Hrs. rewrite (analyze_logs_report records Hne Hrs).
  eexists _, _. split; [reflexivity|]. split; [reflexivity|].
  set (names := (λ r, classify_browser (fld r (py "user_agent"))) <$> records).
  split; [|split].
  - rewrite sorted_Permutation, counts_grouped. apply grouped_keys_NoDup.
  - rewrite sorted_Permutation. apply Forall_forall. intros name Hname.
    rewrite counts_grouped in Hname.
    apply grouped_keys_elem, list_elem_of_fmap in Hname as (k & -> & Hk).
    apply list_elem_of_fmap in Hk as (r & -> & _). apply classify_browser_name.
  - rewrite (sumZ_Permutation _ (counts names).*2) by (by rewrite sorted_Permutation).
    rewrite counts_sum. unfold names, len. by rewrite length_fmap.
Qed.

Example browsers_sample :
  pget (py "browsers") <$> @analyze_logs ascii_lower sample_records
  = Ok (Some (PDict [(py "Chrome", PInt 1); (py "Firefox", PInt 1);
                     (py "Bot", PInt 1)])).
Proof. vm_compute. reflexivity. Qed.

(** ** Part III: further properties of the code *)

(** *** Record Parser: white space at the end of a line, tabs in fields *)

Lemma drop_while_all {A} (p : A → bool) l :
  Forall (λ x, p x = true) l → drop_while p l = [].
Proof. induction 1 as [|x l Hx _ IH]; simpl; [done|]. by rewrite Hx. Qed.

Lemma drop_while_app_all {A} (p : A → bool) l k :
  Forall (λ x, p x = true) l → drop_while p (l ++ k) = drop_while p k.
Proof. induction 1 as [|x l Hx _ IH]; simpl; [done|]. by rewrite Hx. Qed.

Lemma drop_while_app_keep {A} (p : A → bool) l k :
  drop_while p l ≠ [] → drop_while p (l ++ k) = drop_while p l ++ k.
Proof.
  induction l as [|x l IH]; simpl; [done|]. destruct (p x); [exact IH|done].
Qed.

Lemma rstrip_app_space s ws :
  Forall (λ c, isspace c = true) ws → rstrip (s ++ ws) = rstrip s.
Proof.
  intros Hws. unfold rstrip. rewrite reverse_app, drop_while_app_all; [done|].
  by apply Forall_reverse.
Qed.

Lemma strip_app_space s ws :
  Forall (λ c, isspace c = true) ws → strip (s ++ ws) = strip s.
Proof.
  intros Hws. unfold strip, lstrip.
  destruct (drop_while isspace s) as [|c s'] eqn:Hs.
  - assert (drop_while isspace (s ++ ws) = []) as ->; [|done].
    clear -Hs Hws. induction s as [|d s IH]; simpl in *.
    + by apply drop_while_all.
    + destruct (isspace d); [by apply IH|done].
  - rewrite drop_while_app_keep, Hs by (by rewrite Hs).
    by apply rstrip_app_space.
Qed.

Lemma startswith_hash_app_space line ws :
  Forall (λ c, isspace c = true) ws →
  startswith (line ++ ws) (py "#") = startswith line (py "#").
Proof.
  intros Hws. destruct line as [|c line]; [|done].
  destruct Hws as [|d ws Hd _]; [done|].
  change (([] ++ d :: ws)) with (d :: ws).
  change (startswith (d :: ws) (py "#")) with ((35 =? d)%N && true).
  destruct (N.eqb_spec 35 d) as [<-|]; [by vm_compute in Hd|done].
Qed.

(** White space after a line, such as the line feed that reading a file
    leaves at its end, does not change what the parser returns. *)
Theorem parse_log_line_trailing_space (line ws : str) :
  Forall (λ c, isspace c = true) ws →
  parse_log_line (line ++ ws) = parse_log_line line.
Proof.
  intros Hws. unfold parse_log_line.
  by rewrite (startswith_hash_app_space _ _ Hws), (strip_app_space _ _ Hws).
Qed.

Lemma parse_log_line_trailing_space_witness :
  parse_log_line
    (sample_line "2024-05-01" "1.2.3.4" "/" "200" "Mozilla" "-" ++ [13; 10]%N)
  = parse_log_line (sample_line "2024-05-01" "1.2.3.4" "/" "200" "Mozilla" "-").
Proof.
  apply parse_log_line_trailing_space. by repeat constructor.
Defined.

Lemma split_no_sep s sep : Forall (λ p, sep ∉ p) (split s sep).
Proof.
  induction s as [|c s IH]; simpl.
  - repeat constructor. apply not_elem_of_nil.
  - destruct (N.eqb_spec c sep) as [->|Hne].
    + constructor; [apply not_elem_of_nil|done].
    + destruct (split s sep) as [|p ps]; simpl.
      * repeat constructor. rewrite list_elem_of_singleton. congruence.
      * apply Forall_cons in IH as [Hp Hps]. constructor; [|done].
        rewrite elem_of_cons. intros [?|?]; [congruence|done].
Qed.

(** The keys of a parsed record are names of the schema, and none of its
    values contains a tab. *)
Theorem parsed_record_values (line : str) (r : record) :
  parse_log_line line = Ok (Some r) →
  ∀ k v, r !! k = Some v → k ∈ FIELDS ∧ TAB ∉ v.
Proof.
  intros Hp k v Hk.
  destruct (startswith line (py "#")) eqn:Hc.
  { by rewrite (parse_log_line_comment _ Hc) in Hp. }
  destruct (decide (length (split (strip line) TAB) < 10)%nat) as [Hs|Hl].
  { by rewrite (parse_log_line_short _ Hs) in Hp. }
  destruct (parse_log_line_accepts line Hc) as (r' & Hr & Hdom & Hlook); [lia|].
  rewrite Hr in Hp. injection Hp as ->.
  assert (k ∈ FIELDS) as Hin.
  { apply (elem_of_list_to_set (C := gset str)). rewrite <- Hdom.
    apply elem_of_dom. eauto. }
  split; [done|]. apply list_elem_of_lookup in Hin as [i Hi].
  rewrite (Hlook i k Hi) in Hk. injection Hk as <-.
  destruct (split (strip line) TAB !! i) as [p|] eqn:Hpart; simpl.
  - apply (proj1 (Forall_forall _ _) (split_no_sep (strip line) TAB)).
    by eapply list_elem_of_lookup_2.
  - apply not_elem_of_nil.
Qed.

Lemma parsed_record_values_witness :
  py "cookie" ∈ FIELDS ∧ TAB ∉ py "mid=abc123-def456".
Proof.
  apply (parsed_record_values
           (sample_line "2024-05-01" "1.2.3.4" "/" "200" "Mozilla"
              "mid=abc123-def456") visitor_sample).
  - reflexivity.
  - vm_compute. reflexivity.
Defined.

(** *** Visitor Identity Resolver: missing keys, shape of the id *)

Lemma mid_search_spec s :
  match mid_search s with
  | Some g => ∃ i, mid_at s i g ∧ ∀ j g', (j < i)%nat → ¬ mid_at s j g'
  | None => ∀ i g, ¬ mid_at s i g
  end.
Proof.
  destruct (mid_search s) as [g|] eqn:Hs.
  - by apply mid_search_Some.
  - by apply mid_search_None.
Qed.

(** The resolver reads the cookie with a default and the client address
    without one: a record without [cookie] is resolved by its address, a
    record whose cookie holds an id needs no address, and a record with
    neither raises [KeyError('client_ip')]. *)
Theorem get_visitor_id_missing_keys (r : record) :
  (r !! py "cookie" = None → get_visitor_id r = getitem r (py "client_ip"))
  ∧ (∀ i g, mid_at (fld r (py "cookie")) i g → ∃ g', get_visitor_id r = Ok g')
  ∧ ((∀ i g, ¬ mid_at (fld r (py "cookie")) i g) →
     r !! py "client_ip" = None →
     get_visitor_id r = Raise (KeyError (py "client_ip"))).
Proof.
  unfold get_visitor_id. fold (fld r (py "cookie")). split; [|split].
  - intros Hc. unfold fld. by rewrite Hc.
  - intros i g Hat. pose proof (mid_search_spec (fld r (py "cookie"))) as Hs.
    destruct (mid_search _) as [g'|]; [eauto|]. by destruct (Hs i g).
  - intros Hnone Hip. pose proof (mid_search_spec (fld r (py "cookie"))) as Hs.
    destruct (mid_search _) as [g'|].
    + destruct Hs as (i & Hat & _). by destruct (Hnone i g').
    + unfold getitem. by rewrite Hip.
Qed.

Lemma get_visitor_id_missing_keys_witness :
  get_visitor_id bare_sample = Raise (KeyError (py "client_ip"))
  ∧ ∃ g, get_visitor_id cookie_only_sample = Ok g.
Proof.
  split.
  - destruct (get_visitor_id_missing_keys bare_sample) as (_ & _ & Hraise).
    apply Hraise; [|reflexivity].
    apply mid_search_None. vm_compute. reflexivity.
  - destruct (get_visitor_id_missing_keys cookie_only_sample) as (_ & Hid & _).
    apply (Hid 4%nat (py "0af-9")). apply mid_at_drop. vm_compute. reflexivity.
Defined.

(** What the resolver returns is the client address, or an id of the
    cookie: a non-empty string of lower-case hexadecimal digits and dashes
    that follows [mid=] in the cookie. *)
Theorem get_visitor_id_shape (r : record) (v : str) :
  get_visitor_id r = Ok v →
  r !! py "client_ip" = Some v
  ∨ (v ≠ [] ∧ Forall (λ c, is_hexdash c = true) v
     ∧ contains (py "mid=" ++ v) (fld r (py "cookie")) = true).
Proof.
  unfold get_visitor_id. fold (fld r (py "cookie")).
  pose proof (mid_search_spec (fld r (py "cookie"))) as Hs.
  destruct (mid_search _) as [g|].
  - intros [= <-]. right. destruct Hs as (i & (rest & Hdrop & Hne & Hg & _) & _).
    split; [done|]. split; [done|].
    rewrite <- (take_drop i (fld r (py "cookie"))), Hdrop.
    generalize (take i (fld r (py "cookie"))). intros pre.
    induction pre as [|c pre IH].
    + cbn [app contains]. apply orb_true_iff. left.
      apply startswith_app. exists rest. by rewrite <- (assoc_L (++)).
    + cbn [app contains]. rewrite IH. apply orb_true_r.
  - unfold getitem. destruct (r !! py "client_ip"); [|done]. intros [= <-]. by left.
Qed.

Lemma get_visitor_id_shape_witness :
  cookie_only_sample !! py "client_ip" = Some (py "0af-9")
  ∨ (py "0af-9" ≠ [] ∧ Forall (λ c, is_hexdash c = true) (py "0af-9")
     ∧ contains (py "mid=" ++ py "0af-9") (fld cookie_only_sample (py "cookie"))
       = true).
Proof.
  apply get_visitor_id_shape. vm_compute. reflexivity.
Defined.

(** *** Log Loader: failures, skipped entries, composition *)



Lemma accepted_app d1 d2 : accepted (d1 ++ d2) = accepted d1 ++ accepted d2.
Proof. unfold accepted. by rewrite fmap_app, concat_app. Qed.

Lemma read_warnings_app d1 d2 :
  read_warnings (d1 ++ d2) = read_warnings d1 ++ read_warnings d2.
Proof.
  unfold read_warnings. induction d1 as [|f d1 IH]; [done|].
  cbn [app omap list_omap]. rewrite IH. by destruct (if is_read f then _ else _).
Qed.

Lemma load_logs_unfold `{DateTime} (now : datetime) logs_dir days :
  load_logs now logs_dir days
  = c ← match days with
        | None => Ok None
        | Some n =>
            if n =? 0 then Ok None
            else (dt ← minus_days now n; Ok (Some (strftime_Ymd dt)))
        end;
    Ok (filter (kept c) (accepted logs_dir), read_warnings logs_dir).
Proof.
  unfold load_logs.
  destruct (match days with None => _ | Some _ => _ end) as [c|]; [|done].
  by rewrite !bind_Ok, load_files_kept.
Qed.

(** Loading a directory listing is loading its parts one after the other:
    the records and the warnings of the parts are concatenated. *)
Theorem load_logs_app `{DateTime} (now : datetime) (d1 d2 : list dir_entry)
    (days : option Z) r1 w1 r2 w2 :
  load_logs now d1 days = Ok (r1, w1) →
  load_logs now d2 days = Ok (r2, w2) →
  load_logs now (d1 ++ d2) days = Ok (r1 ++ r2, w1 ++ w2).
Proof.
  rewrite !load_logs_unfold.
  destruct (match days with None => _ | Some _ => _ end) as [c|]; [|done].
  rewrite !bind_Ok. intros [= <- <-] [= <- <-].
  by rewrite accepted_app, read_warnings_app, filter_app.
Qed.

Lemma load_logs_app_witness :
  @load_logs gregorian sample_now (take 2 sample_dir ++ drop 2 sample_dir)
    (Some 1)
  = Ok ([sample_record "2026-11-03" "1.2.3.6" "/api/events" "200" "curl" "-"]
          ++ [],
        [(py "E1.2026-11-03.gz", OSError)] ++ []).
Proof.
  apply (@load_logs_app gregorian); vm_compute; reflexivity.
Defined.

Lemma accepted_filter logs_dir :
  accepted (filter (λ f, is_read f) logs_dir) = accepted logs_dir.
Proof.
  induction logs_dir as [|f logs_dir IH]; [done|].
  rewrite filter_cons, accepted_cons. case_decide as Hf.
  - by rewrite accepted_cons, IH.
  - apply Is_true_false_1 in Hf. by rewrite Hf, IH.
Qed.

Lemma read_warnings_filter logs_dir :
  read_warnings (filter (λ f, is_read f) logs_dir) = read_warnings logs_dir.
Proof.
  induction logs_dir as [|f logs_dir IH]; [done|].
  rewrite filter_cons, read_warnings_cons. case_decide as Hf.
  - by rewrite read_warnings_cons, IH.
  - apply Is_true_false_1 in Hf. by rewrite Hf, IH.
Qed.

(** Entries for which no opener is chosen (directories and hidden files
    without the suffix [.gz]) have no effect: the loader returns the same
    records and warnings without them. *)
Theorem load_logs_skips_unread `{DateTime} (now : datetime)
    (logs_dir : list dir_entry) (days : option Z) :
  load_logs now (filter (λ f, is_read f) logs_dir) days
  = load_logs now logs_dir days.
Proof.
  by rewrite !load_logs_unfold, accepted_filter, read_warnings_filter.
Qed.

(** A window only removes records: the records loaded with a window are a
    sub-sequence of those loaded without, and the warnings are the same. *)
Theorem load_logs_window_sublist `{DateTime} (now : datetime)
    (logs_dir : list dir_entry) (n : Z) records warnings :
  load_logs now logs_dir (Some n) = Ok (records, warnings) →
  ∃ all,
    load_logs now logs_dir None = Ok (all, warnings)
    ∧ records `sublist_of` all.
Proof.
  rewrite !load_logs_unfold. rewrite (bind_Ok _ None).
  destruct (if n =? 0 then _ else _) as [c|]; [|done].
  rewrite bind_Ok. intros [= <- <-]. eexists. split; [done|].
  rewrite (filter_all (kept None)) by done. apply sublist_filter.
Qed.

Lemma load_logs_window_sublist_witness :
  ∃ all,
    @load_logs gregorian sample_now sample_dir None
    = Ok (all, [(py "E1.2026-11-03.gz", OSError)])
    ∧ [sample_record "2026-11-03" "1.2.3.6" "/api/events" "200" "curl" "-"]
      `sublist_of` all.
Proof.
  apply (@load_logs_window_sublist gregorian sample_now sample_dir 1).
  vm_compute. reflexivity.
Defined.

(** What the loader returns, the aggregator accepts: it raises no
    [KeyError], and it returns the error marker exactly when no record was
    loaded. *)
Theorem load_logs_analyze_logs `{DateTime} `{StrLower} (now : datetime)
    (logs_dir : list dir_entry) (days : option Z) records warnings :
  load_logs now logs_dir days = Ok (records, warnings) →
  Forall has_fields records
  ∧ ∃ rep,
      analyze_logs records = Ok rep
      ∧ (records = [] → pkeys rep = [py "error"])
      ∧ (records ≠ [] →
         pkeys rep
         = [py "summary"; py "page_views"; py "api_usage";
            py "external_clicks"; py "daily_stats"; py "top_pages";
            py "top_edge_locations"; py "browsers"]).
Proof.
  intros Hload. pose proof (load_logs_has_fields _ _ _ _ _ Hload) as Hrs.
  split; [done|]. destruct records as [|r records].
  - eexists. split; [reflexivity|]. by split.
  - rewrite (analyze_logs_report (r :: records)) by done.
    eexists. split; [reflexivity|]. by split.
Qed.

Lemma load_logs_analyze_logs_witness :
  Forall has_fields
    [sample_record "2026-11-03" "1.2.3.6" "/api/events" "200" "curl" "-"]
  ∧ ∃ rep,
      @analyze_logs ascii_lower
        [sample_record "2026-11-03" "1.2.3.6" "/api/events" "200" "curl" "-"]
      = Ok rep
      ∧ ([sample_record "2026-11-03" "1.2.3.6" "/api/events" "200" "curl" "-"]
         = [] → pkeys rep = [py "error"])
      ∧ ([sample_record "2026-11-03" "1.2.3.6" "/api/events" "200" "curl" "-"]
         ≠ [] →
         pkeys rep
         = [py "summary"; py "page_views"; py "api_usage";
            py "external_clicks"; py "daily_stats"; py "top_pages";
            py "top_edge_locations"; py "browsers"]).
Proof.
  apply (@load_logs_analyze_logs gregorian ascii_lower sample_now sample_dir
           (Some 1) _ [(py "E1.2026-11-03.gz", OSError)]).
  vm_compute. reflexivity.
Defined.

(** *** Metrics Aggregator: records without a field *)

Lemma get_visitor_id_outcome r :
  (∃ v, get_visitor_id r = Ok v)
  ∨ get_visitor_id r = Raise (KeyError (py "client_ip")).
Proof.
  unfold get_visitor_id, getitem. destruct (mid_search _); [eauto|].
  destruct (r !! py "client_ip"); eauto.
Qed.

Lemma mapM_get_visitor_id_Raise records r :
  r ∈ records → get_visitor_id r = Raise (KeyError (py "client_ip")) →
  mapM get_visitor_id records = Raise (KeyError (py "client_ip")).
Proof.
  intros Hr Hraise. induction records as [|r' records IH].
  { by apply elem_of_nil in Hr. }
  cbn [mapM]. destruct (get_visitor_id_outcome r') as [[v Hv]|Hv]; rewrite Hv.
  - rewrite bind_Ok. apply elem_of_cons in Hr as [->|Hr]; [congruence|].
    by rewrite (IH Hr).
  - done.
Qed.

Lemma mapM_get_visitor_id_Ok records :
  Forall (λ r, ∃ v, get_visitor_id r = Ok v) records →
  ∃ vs, mapM get_visitor_id records = Ok vs.
Proof.
  induction 1 as [|r records [v Hv] _ [vs IH]]; [by eexists|].
  cbn [mapM]. rewrite Hv, bind_Ok, IH. by eexists.
Qed.

Lemma select_Raise k p records r :
  r ∈ records → r !! k = None → select k p records = Raise (KeyError k).
Proof.
  intros Hr Hk. unfold select. induction records as [|r' records IH].
  { by apply elem_of_nil in Hr. }
  cbn [filterM]. destruct (r' !! k) as [v|] eqn:Hv.
  - assert (getitem r' k = Ok v) as -> by (unfold getitem; by rewrite Hv).
    rewrite !bind_Ok. apply elem_of_cons in Hr as [->|Hr]; [congruence|].
    by rewrite (IH Hr).
  - assert (getitem r' k = Raise (KeyError k)) as ->
      by (unfold getitem; by rewrite Hv).
    done.
Qed.

(** A record that lacks a field makes the aggregator raise [KeyError]: for
    the client address when the record has no id in its cookie either, and
    for the status when all visitor ids resolve. *)
Theorem analyze_logs_missing_field `{StrLower} (records : list record)
    (r : record) :
  r ∈ records →
  ((∀ i g, ¬ mid_at (fld r (py "cookie")) i g) →
   r !! py "client_ip" = None →
   analyze_logs records = Raise (KeyError (py "client_ip")))
  ∧ (Forall (λ r', ∃ v, get_visitor_id r' = Ok v) records →
     r !! py "status" = None →
     analyze_logs records = Raise (KeyError (py "status"))).
Proof.
  intros Hr. unfold analyze_logs.
  destruct records as [|r0 rs] eqn:Hrec; [by apply elem_of_nil in Hr|].
  rewrite <- Hrec in *. clear Hrec r0 rs. cbv zeta. split.
  - intros Hnone Hip. unfold visitor_set.
    rewrite (mapM_get_visitor_id_Raise records r Hr); [done|].
    unfold get_visitor_id, getitem. fold (fld r (py "cookie")).
    pose proof (mid_search_spec (fld r (py "cookie"))) as Hs.
    destruct (mid_search _) as [g|]; [|by rewrite Hip].
    destruct Hs as (i & Hat & _). by destruct (Hnone i g).
  - intros Hids Hstatus. unfold visitor_set.
    destruct (mapM_get_visitor_id_Ok records Hids) as [vs ->].
    rewrite fmap_Ok, bind_Ok.
    by rewrite (select_Raise (py "status") _ records r Hr Hstatus).
Qed.

Lemma analyze_logs_missing_field_witness :
  @analyze_logs ascii_lower (sample_records ++ [bare_sample])
  = Raise (KeyError (py "client_ip"))
  ∧ @analyze_logs ascii_lower (sample_records ++ [cookie_only_sample])
    = Raise (KeyError (py "status")).
Proof.
  split.
  - apply (@analyze_logs_missing_field ascii_lower _ bare_sample).
    + apply (bool_decide_unpack _). vm_compute. reflexivity.
    + apply mid_search_None. vm_compute. reflexivity.
    + reflexivity.
  - apply (@analyze_logs_missing_field ascii_lower _ cookie_only_sample).
    + apply (bool_decide_unpack _). vm_compute. reflexivity.
    + repeat constructor; eexists; vm_compute; reflexivity.
    + reflexivity.
Defined.

(** *** Metrics Aggregator: the summary *)

Lemma str_lt_irrefl a : str_lt a a = false.
Proof. destruct (str_lt a a) eqn:Hlt; [|done]. by rewrite (str_lt_asym a a Hlt) in Hlt. Qed.

Lemma fold_min x l :
  let m := foldl (λ m y, if str_lt y m then y else m) x l in
  m ∈ x :: l ∧ ∀ y, y ∈ x :: l → str_lt y m = false.
Proof.
  revert x. induction l as [|z l IH]; intros x; cbn [foldl].
  - split; [by left|]. intros y ->%list_elem_of_singleton. apply str_lt_irrefl.
  - destruct (str_lt z x) eqn:Hzx.
    + destruct (IH z) as [Hin Hmin]. split; [by right|].
      intros y [->|Hy]%elem_of_cons; [|by apply Hmin].
      apply (str_le_trans _ z).
      * apply Hmin. by left.
      * by apply str_lt_asym.
    + destruct (IH x) as [Hin Hmin]. split.
      * apply elem_of_cons in Hin as [->|Hin]; [by left|by do 2 right].
      * intros y [->|[->|Hy]%elem_of_cons]%elem_of_cons.
        -- apply Hmin. by left.
        -- apply (str_le_trans _ x); [|done]. apply Hmin. by left.
        -- apply Hmin. by right.
Qed.

Lemma fold_max x l :
  let m := foldl (λ m y, if str_lt m y then y else m) x l in
  m ∈ x :: l ∧ ∀ y, y ∈ x :: l → str_lt m y = false.
Proof.
  revert x. induction l as [|z l IH]; intros x; cbn [foldl].
  - split; [by left|]. intros y ->%list_elem_of_singleton. apply str_lt_irrefl.
  - destruct (str_lt x z) eqn:Hxz.
    + destruct (IH z) as [Hin Hmax]. split; [by right|].
      intros y [->|Hy]%elem_of_cons; [|by apply Hmax].
      apply (str_le_trans _ z).
      * by apply str_lt_asym.
      * apply Hmax. by left.
    + destruct (IH x) as [Hin Hmax]. split.
      * apply elem_of_cons in Hin as [->|Hin]; [by left|by do 2 right].
      * intros y [->|[->|Hy]%elem_of_cons]%elem_of_cons.
        -- apply Hmax. by left.
        -- apply (str_le_trans _ x); [done|]. apply Hmax. by left.
        -- apply Hmax. by right.
Qed.

(** The date range of the summary: its start is the least and its end the
    greatest date of the records, in the order of strings, and both are
    dates of records. *)
Theorem date_range_bounds `{StrLower} (records : list record) :
  records ≠ [] → Forall has_fields records →
  ∃ rep first last,
    analyze_logs records = Ok rep
    ∧ pget_path [py "summary"; py "date_range"; py "start"] rep
      = Some (PStr first)
    ∧ pget_path [py "summary"; py "date_range"; py "end"] rep
      = Some (PStr last)
    ∧ first ∈ date <$> records ∧ last ∈ date <$> records
    ∧ ∀ r, r ∈ records →
        str_lt (date r) first = false ∧ str_lt last (date r) = false.
Proof.
  intros Hne Hrs. rewrite (analyze_logs_report records Hne Hrs).
  exists (report_of records), (min_date records), (max_date records).
  split; [done|]. split; [done|]. split; [done|].
  unfold min_date, max_date. destruct records as [|r0 rs]; [done|].
  rewrite fmap_cons.
  destruct (fold_min (date r0) (date <$> rs)) as [Hmin_in Hmin].
  destruct (fold_max (date r0) (date <$> rs)) as [Hmax_in Hmax].
  split; [done|]. split; [done|]. intros r Hr.
  assert (date r ∈ date r0 :: (date <$> rs)) as Hd.
  { rewrite <- fmap_cons. by apply list_elem_of_fmap_2. }
  split; [by apply Hmin|by apply Hmax].
Qed.

Lemma date_range_bounds_witness :
  ∃ rep first last,
    @analyze_logs ascii_lower sample_records = Ok rep
    ∧ pget_path [py "summary"; py "date_range"; py "start"] rep
      = Some (PStr first)
    ∧ pget_path [py "summary"; py "date_range"; py "end"] rep
      = Some (PStr last)
    ∧ first ∈ date <$> sample_records ∧ last ∈ date <$> sample_records
    ∧ ∀ r, r ∈ sample_records →
        str_lt (date r) first = false ∧ str_lt last (date r) = false.
Proof.
  apply (@date_range_bounds ascii_lower sample_records).
  - discriminate.
  - apply (bool_decide_unpack _). vm_compute. reflexivity.
Defined.

Lemma length_filter_disjoint {A} (P Q : A → Prop)
    `{∀ x, Decision (P x)} `{∀ x, Decision (Q x)} (l : list A) :
  (∀ x, P x → Q x → False) →
  (length (filter P l) + length (filter Q l) ≤ length l)%nat.
Proof.
  intros Hdisj. induction l as [|x l IH]; [done|].
  rewrite !filter_cons.
  destruct (decide (P x)), (decide (Q x)); simpl; try lia.
  by destruct (Hdisj x).
Qed.

(** The counts of the summary and of the API usage: the successful requests
    are at most the total; the calendar requests and the location searches
    are disjoint parts of the API calls, which are at most the total. *)
Theorem request_counts_bounds `{StrLower} (records : list record) :
  records ≠ [] → Forall has_fields records →
  ∃ rep total successful api calendar geocode,
    analyze_logs records = Ok rep
    ∧ pget_path [py "summary"; py "total_requests"] rep = Some (PInt total)
    ∧ pget_path [py "summary"; py "successful_requests"] rep
      = Some (PInt successful)
    ∧ pget_path [py "api_usage"; py "total_api_calls"] rep = Some (PInt api)
    ∧ pget_path [py "api_usage"; py "calendar_requests"] rep
      = Some (PInt calendar)
    ∧ pget_path [py "api_usage"; py "location_searches"] rep
      = Some (PInt geocode)
    ∧ total = Z.of_nat (length records)
    ∧ 0 ≤ successful ≤ total
    ∧ 0 ≤ calendar ∧ 0 ≤ geocode ∧ calendar + geocode ≤ api ≤ total.
Proof.
  intros Hne Hrs. rewrite (analyze_logs_report records Hne Hrs).
  eexists _, _, _, _, _, _. split; [reflexivity|].
  do 5 (split; [reflexivity|]). split; [done|]. unfold len, where_.
  pose proof (length_filter
                (λ r, startswith (fld r (py "status")) (py "2")
                      || startswith (fld r (py "status")) (py "3")) records).
  pose proof (length_filter
                (λ r, startswith (fld r (py "uri_stem")) (py "/api/")) records).
  pose proof (length_filter_disjoint
                (λ r, bool_decide (fld r (py "uri_stem") = py "/api/events"))
                (λ r, startswith (fld r (py "uri_stem"))
                        (py "/api/events/geocode"))
                (api_calls_of records)) as Hdisj.
  unfold api_calls_of, where_ in *.
  assert (∀ r : record,
            bool_decide (fld r (py "uri_stem") = py "/api/events") →
            startswith (fld r (py "uri_stem")) (py "/api/events/geocode") →
            False) as Hno.
  { intros r ->%bool_decide_unpack. vm_compute. done. }
  specialize (Hdisj Hno). lia.
Qed.

Lemma request_counts_bounds_witness :
  ∃ rep total successful api calendar geocode,
    @analyze_logs ascii_lower sample_records = Ok rep
    ∧ pget_path [py "summary"; py "total_requests"] rep = Some (PInt total)
    ∧ pget_path [py "summary"; py "successful_requests"] rep
      = Some (PInt successful)
    ∧ pget_path [py "api_usage"; py "total_api_calls"] rep = Some (PInt api)
    ∧ pget_path [py "api_usage"; py "calendar_requests"] rep
      = Some (PInt calendar)
    ∧ pget_path [py "api_usage"; py "location_searches"] rep
      = Some (PInt geocode)
    ∧ total = Z.of_nat (length sample_records)
    ∧ 0 ≤ successful ≤ total
    ∧ 0 ≤ calendar ∧ 0 ≤ geocode ∧ calendar + geocode ≤ api ≤ total.
Proof.
  apply (@request_counts_bounds ascii_lower sample_records).
  - discriminate.
  - apply (bool_decide_unpack _). vm_compute. reflexivity.
Defined.

(** *** Metrics Aggregator: event pages, distinct visitors *)





Example event_pages_sample :
  (λ rep, (λ ks, pget_path ks rep)
     <$> [ [py "page_views"; py "event_details"; py "total"];
           [py "page_views"; py "event_details"; py "unique"];
           [py "page_views"; py "unique_events_viewed"] ])
    <$> @analyze_logs ascii_lower address_records
  = Ok (Some <$> [PInt 3; PInt 3; PInt 1]).
Proof. vm_compute. reflexivity. Qed.

Lemma visitor_no_cookie r :
  (∀ i g, ¬ mid_at (fld r (py "cookie")) i g) →
  visitor r = fld r (py "client_ip").
Proof.
  intros Hnone. unfold visitor.
  pose proof (mid_search_spec (fld r (py "cookie"))) as Hs.
  destruct (mid_search _) as [g|]; [|done].
  destruct Hs as (i & Hat & _). by destruct (Hnone i g).
Qed.

(** When no cookie holds an id and the client addresses are pairwise
    distinct, every request is a visitor of its own: the unique-visitor
    count is the total. *)
Theorem unique_visitors_by_address `{StrLower} (records : list record) :
  records ≠ [] → Forall has_fields records →
  Forall (λ r, ∀ i g, ¬ mid_at (fld r (py "cookie")) i g) records →
  NoDup ((λ r, fld r (py "client_ip")) <$> records) →
  ∃ rep total,
    analyze_logs records = Ok rep
    ∧ pget_path [py "summary"; py "total_requests"] rep = Some (PInt total)
    ∧ pget_path [py "summary"; py "unique_visitors"] rep = Some (PInt total).
Proof.
  intros Hne Hrs Hnone Hips. rewrite (analyze_logs_report records Hne Hrs).
  eexists _, _. split; [reflexivity|]. split; [reflexivity|].
  change (Some (size_int (visitors_of records)) = Some (PInt (len records))).
  unfold size_int, visitors_of, len. do 3 f_equal.
  assert (visitor <$> records = (λ r, fld r (py "client_ip")) <$> records) as ->.
  { apply Forall_fmap_ext_1. eapply Forall_impl; [exact Hnone|].
    intros r. apply visitor_no_cookie. }
  rewrite size_list_to_set by done. by rewrite length_fmap.
Qed.

Lemma unique_visitors_by_address_witness :
  ∃ rep total,
    @analyze_logs ascii_lower address_records = Ok rep
    ∧ pget_path [py "summary"; py "total_requests"] rep = Some (PInt total)
    ∧ pget_path [py "summary"; py "unique_visitors"] rep = Some (PInt total).
Proof.
  apply (@unique_visitors_by_address ascii_lower address_records).
  - discriminate.
  - apply (bool_decide_unpack _). vm_compute. reflexivity.
  - repeat constructor; apply mid_search_None; vm_compute; reflexivity.
  - apply (bool_decide_unpack _). vm_compute. reflexivity.
Defined.

(** *** Grouping in a [defaultdict]: the values *)

Lemma assoc_dict_update {V} (dflt : V) f (d : list (str * V)) k k' :
  assoc k' (dict_update dflt f d k)
  = if decide (k = k') then Some (f (default dflt (assoc k d))) else assoc k' d.
Proof.
  induction d as [|[k0 v] d IH]; cbn [dict_update assoc].
  - destruct (decide (k = k')); [done|]. done.
  - destruct (decide (k0 = k)) as [->|Hne]; cbn [assoc].
    + destruct (decide (k = k')); [done|done].
    + rewrite IH. destruct (decide (k0 = k')) as [->|?].
      * by rewrite decide_False by done.
      * done.
Qed.

Lemma assoc_Some_elem {V} (d : list (str * V)) k v :
  assoc k d = Some v → (k, v) ∈ d.
Proof.
  induction d as [|[k0 v0] d IH]; cbn [assoc]; [done|].
  destruct (decide (k0 = k)) as [->|?].
  - intros [= ->]. by left.
  - intros Hk. right. by apply IH.
Qed.

Lemma assoc_elem {V} (d : list (str * V)) k v :
  NoDup d.*1 → (k, v) ∈ d → assoc k d = Some v.
Proof.
  induction d as [|[k0 v0] d IH]; intros Hnd Hin; [by apply elem_of_nil in Hin|].
  rewrite fmap_cons in Hnd. apply NoDup_cons in Hnd as [Hk0 Hnd].
  cbn [assoc]. apply elem_of_cons in Hin as [[= <- <-]|Hin].
  - by rewrite decide_True.
  - rewrite decide_False; [by apply IH|].
    intros ->. apply Hk0. by apply (list_elem_of_fmap_2 fst) in Hin.
Qed.

Lemma assoc_None_keys {V} (d : list (str * V)) k :
  assoc k d = None ↔ k ∉ d.*1.
Proof.
  induction d as [|[k0 v0] d IH]; cbn [assoc].
  - split; [intros _; apply not_elem_of_nil|done].
  - rewrite fmap_cons, not_elem_of_cons. cbn [fst].
    destruct (decide (k0 = k)) as [->|?].
    + split; [done|]. by intros [? _].
    + rewrite IH. split; [by split|by intros [_ ?]].
Qed.

Lemma assoc_Permutation {V} (d d' : list (str * V)) k :
  NoDup d.*1 → d ≡ₚ d' → assoc k d = assoc k d'.
Proof.
  intros Hnd Hperm. destruct (assoc k d) as [v|] eqn:Hk.
  - symmetry. apply assoc_elem; [by rewrite <- Hperm|].
    rewrite <- Hperm. by apply assoc_Some_elem.
  - symmetry. apply assoc_None_keys. rewrite <- Hperm. by apply assoc_None_keys.
Qed.

Lemma assoc_fmap {V W} (h : V → W) (d : list (str * V)) k :
  assoc k ((λ x, (x.1, h x.2)) <$> d) = h <$> assoc k d.
Proof.
  induction d as [|[k0 v0] d IH]; [done|]. rewrite fmap_cons. cbn [assoc fst snd].
  by destruct (decide (k0 = k)).
Qed.

Section grouped_values.
Context {X V : Type} (dflt : V) (g : X → V → V) (key : X → str).

(** The value of a key is the fold of the updates of the elements with that
    key, in their order. *)
Lemma grouped_assoc xs k :
  assoc k (grouped dflt g key [] xs)
  = match filter (λ x, key x = k) xs with
    | [] => None
    | l => Some (foldl (λ v x, g x v) dflt l)
    end.
Proof.
  induction xs as [|x xs IH] using rev_ind; [done|].
  rewrite grouped_snoc, assoc_dict_update, filter_app, filter_cons, filter_nil.
  destruct (decide (key x = k)) as [Hk|Hk].
  - rewrite <- Hk in *. rewrite IH.
    destruct (filter (λ x0, key x0 = key x) xs) as [|y l] eqn:Hf.
    + done.
    + cbn [app default]. by rewrite (app_comm_cons l [x] y), foldl_snoc.
  - rewrite IH, app_nil_r. done.
Qed.
End grouped_values.

(** *** Daily stats: the entries *)

Lemma fold_day_add (rs : list record) :
  foldl (λ v r, day_add (visitor r) v) {| requests := 0; visitors := ∅ |} rs
  = {| requests := len rs; visitors := visitors_of rs |}.
Proof.
  unfold visitors_of, len. induction rs as [|r rs IH] using rev_ind; [done|].
  rewrite foldl_snoc, IH, fmap_app. change (visitor <$> [r]) with [visitor r].
  rewrite list_to_set_snoc_L, length_app.
  unfold day_add. cbn [requests visitors length]. f_equal.
  - lia.
  - by rewrite (comm_L (∪)).
Qed.

Lemma visitors_of_pos r rs : (1 ≤ size (visitors_of (r :: rs)))%nat.
Proof.
  unfold visitors_of. rewrite fmap_cons, list_to_set_cons, size_union_alt.
  rewrite size_singleton. lia.
Qed.

Lemma traffic_assoc rs d :
  assoc d (traffic rs)
  = match on_date d rs with
    | [] => None
    | l => Some {| requests := len l; visitors := visitors_of l |}
    end.
Proof.
  rewrite traffic_grouped, grouped_assoc. fold (on_date d rs).
  destruct (on_date d rs) as [|r l]; [done|]. by rewrite fold_day_add.
Qed.

Lemma on_date_nil d rs : on_date d rs = [] ↔ d ∉ date <$> rs.
Proof.
  unfold on_date. split.
  - intros Hnil (r & -> & Hr)%list_elem_of_fmap.
    by apply (filter_nil_not_elem_of _ _ r Hnil).
  - intros Hd. destruct (filter _ rs) as [|r l] eqn:Hf; [done|].
    assert (r ∈ filter (λ r, date r = d) rs) as Hr by (rewrite Hf; by left).
    apply list_elem_of_filter in Hr as [<- Hr]. destruct Hd.
    by apply list_elem_of_fmap_2.
Qed.

(** The entry of a date in [daily_stats] holds the number of records of
    that date and the number of their distinct visitors, which is at least
    1 and at most the number of records; other dates have no entry. *)
Theorem daily_stats_entries `{StrLower} (records : list record) :
  records ≠ [] → Forall has_fields records →
  ∃ rep stats,
    analyze_logs records = Ok rep
    ∧ pget (py "daily_stats") rep = Some (PDict stats)
    ∧ ∀ d,
        (d ∉ date <$> records → assoc d stats = None)
        ∧ (d ∈ date <$> records →
           assoc d stats
           = Some (PDict [
               (py "requests", PInt (len (on_date d records)));
               (py "unique_visitors",
                  PInt (Z.of_nat (size (visitors_of (on_date d records)))))])
           ∧ 1 ≤ Z.of_nat (size (visitors_of (on_date d records)))
               ≤ len (on_date d records)).
Proof.
  intros Hne Hrs. rewrite (analyze_logs_report records Hne Hrs).
  exists (report_of records), (daily_stats_of records).
  split; [done|]. split; [done|]. intros d.
  assert (assoc d (daily_stats_of records)
          = (λ x : day,
               PDict [(py "requests", PInt (requests x));
                      (py "unique_visitors", size_int (visitors x))])
              <$> assoc d (traffic records)) as Hassoc.
  { unfold daily_stats_of.
    rewrite (assoc_fmap (λ x : day,
               PDict [(py "requests", PInt (requests x));
                      (py "unique_visitors", size_int (visitors x))])).
    f_equal. symmetry. apply assoc_Permutation; [apply traffic_keys_NoDup|].
    by rewrite sorted_Permutation. }
  rewrite Hassoc, traffic_assoc. split.
  - intros Hd. apply on_date_nil in Hd. by rewrite Hd.
  - intros Hd. destruct (on_date d records) as [|r l] eqn:Hon.
    { by apply on_date_nil in Hon. }
    split; [done|]. split.
    + pose proof (visitors_of_pos r l). lia.
    + apply visitors_of_le.
Qed.

Lemma daily_stats_entries_witness :
  ∃ rep stats,
    @analyze_logs ascii_lower sample_records = Ok rep
    ∧ pget (py "daily_stats") rep = Some (PDict stats)
    ∧ ∀ d,
        (d ∉ date <$> sample_records → assoc d stats = None)
        ∧ (d ∈ date <$> sample_records →
           assoc d stats
           = Some (PDict [
               (py "requests", PInt (len (on_date d sample_records)));
               (py "unique_visitors",
                  PInt (Z.of_nat
                          (size (visitors_of (on_date d sample_records)))))])
           ∧ 1 ≤ Z.of_nat (size (visitors_of (on_date d sample_records)))
               ≤ len (on_date d sample_records)).
Proof.
  apply (@daily_stats_entries ascii_lower sample_records).
  - discriminate.
  - apply (bool_decide_unpack _). vm_compute. reflexivity.
Defined.

(** *** Top lists: the counts *)

Lemma fold_count (l : list str) : foldl (λ n _, n + 1) 0 l = len l.
Proof.
  unfold len. induction l as [|k l IH] using rev_ind; [done|].
  rewrite foldl_snoc, IH, length_app. simpl. lia.
Qed.

Lemma counts_assoc keys k :
  assoc k (counts keys)
  = if decide (k ∈ keys) then Some (occurrences k keys) else None.
Proof.
  rewrite counts_grouped, grouped_assoc. unfold occurrences, id.
  destruct (filter (λ x, x = k) keys) as [|y l] eqn:Hf.
  - rewrite decide_False; [done|].
    intros Hk. by apply (filter_nil_not_elem_of _ _ k Hf).
  - rewrite decide_True, fold_count; [done|].
    assert (y ∈ filter (λ x, x = k) keys) as Hy by (rewrite Hf; by left).
    by apply list_elem_of_filter in Hy as [<- Hy].
Qed.

Lemma occurrences_pos k keys : k ∈ keys → 1 ≤ occurrences k keys.
Proof.
  intros Hk. unfold occurrences, len.
  destruct (filter (λ k', k' = k) keys) as [|y l] eqn:Hf; [|simpl; lia].
  by destruct (filter_nil_not_elem_of _ _ k Hf).
Qed.

(** The first [n] of the counts sorted by descending count: each entry
    holds a key with the number of its occurrences, no key twice, and a key
    that is left out occurs at most as often as every entry. *)
Lemma top_counts keys n :
  let top := take n (sorted by_neg_count (counts keys)) in
  NoDup top.*1
  ∧ (∀ e, e ∈ top → e.1 ∈ keys ∧ e.2 = occurrences e.1 keys ∧ 1 ≤ e.2)
  ∧ (∀ k, k ∈ keys → k ∉ top.*1 →
       length top = n ∧ ∀ e, e ∈ top → occurrences k keys ≤ e.2).
Proof.
  intros top. set (l := sorted by_neg_count (counts keys)) in *.
  assert (l ≡ₚ counts keys) as Hperm by apply sorted_Permutation.
  assert (NoDup l.*1) as Hnd.
  { rewrite Hperm, counts_grouped. apply grouped_keys_NoDup. }
  assert (∀ e, e ∈ l → e.1 ∈ keys ∧ e.2 = occurrences e.1 keys) as Hl.
  { intros [k c] He. rewrite Hperm in He.
    apply assoc_elem in He; [|rewrite counts_grouped; apply grouped_keys_NoDup].
    rewrite counts_assoc in He. destruct (decide (k ∈ keys)); by simplify_eq. }
  split; [|split].
  - apply (sublist_NoDup top.*1 l.*1 Hnd), (fmap_sublist fst), sublist_take.
  - intros e He. assert (e ∈ l) as He' by (eapply elem_of_sublist; [done|apply sublist_take]).
    destruct (Hl e He') as [Hk Hc]. split; [done|]. split; [done|].
    rewrite Hc. by apply occurrences_pos.
  - intros k Hk Hout.
    assert ((k, occurrences k keys) ∈ l) as Hin.
    { rewrite Hperm. apply assoc_Some_elem. rewrite counts_assoc.
      by rewrite decide_True. }
    rewrite <- (take_drop n l) in Hin. apply elem_of_app in Hin as [Hin|Hin].
    { destruct Hout. by apply (list_elem_of_fmap_2 fst) in Hin. }
    apply list_elem_of_lookup_1 in Hin as [j Hj]. rewrite lookup_drop in Hj.
    pose proof (lookup_lt_Some _ _ _ Hj) as Hlen. split.
    + unfold top. rewrite length_take. lia.
    + intros e [i [Hi Hlt]]%elem_of_take.
      apply (StronglySorted_lookup_le _ l i (n + j) e (k, occurrences k keys)
               (sorted_by_neg_count_StronglySorted _)); [lia|done|done].
Qed.

(** Each entry of the top pages holds a path with the number of records of
    that path, no path twice; when a path of the records is not listed, the
    list has 15 entries and the path has at most as many records as every
    listed one. *)
Theorem top_pages_counts `{StrLower} (records : list record) :
  records ≠ [] → Forall has_fields records →
  ∃ rep entries,
    analyze_logs records = Ok rep
    ∧ pget (py "top_pages") rep = Some (PList (counted (py "path") <$> entries))
    ∧ NoDup entries.*1
    ∧ (∀ e, e ∈ entries →
         e.1 ∈ uri_stem <$> records
         ∧ e.2 = occurrences e.1 (uri_stem <$> records) ∧ 1 ≤ e.2)
    ∧ (∀ p, p ∈ uri_stem <$> records → p ∉ entries.*1 →
         length entries = 15%nat
         ∧ ∀ e, e ∈ entries → occurrences p (uri_stem <$> records) ≤ e.2).
Proof.
  intros Hne Hrs. rewrite (analyze_logs_report records Hne Hrs).
  exists (report_of records), (top_pages_of records).
  split; [done|]. split; [done|]. apply top_counts.
Qed.

Lemma top_pages_counts_witness :
  ∃ rep entries,
    @analyze_logs ascii_lower tie_records = Ok rep
    ∧ pget (py "top_pages") rep = Some (PList (counted (py "path") <$> entries))
    ∧ NoDup entries.*1
    ∧ (∀ e, e ∈ entries →
         e.1 ∈ uri_stem <$> tie_records
         ∧ e.2 = occurrences e.1 (uri_stem <$> tie_records) ∧ 1 ≤ e.2)
    ∧ (∀ p, p ∈ uri_stem <$> tie_records → p ∉ entries.*1 →
         length entries = 15%nat
         ∧ ∀ e, e ∈ entries → occurrences p (uri_stem <$> tie_records) ≤ e.2).
Proof.
  apply (@top_pages_counts ascii_lower tie_records).
  - discriminate.
  - apply (bool_decide_unpack _). vm_compute. reflexivity.
Defined.

(** The top edge locations: at most 10 entries, each a location with the
    number of its records, no location twice, in non-increasing order of
    count, ties in the order in which the locations are first encountered;
    a location that is left out has at most as many records as every
    entry. *)
Theorem top_edge_locations_order `{StrLower} (records : list record) :
  records ≠ [] → Forall has_fields records →
  let locations := (λ r, fld r (py "edge_location")) <$> records in
  ∃ rep entries,
    analyze_logs records = Ok rep
    ∧ pget (py "top_edge_locations") rep
      = Some (PList (counted (py "location") <$> entries))
    ∧ (length entries ≤ 10)%nat
    ∧ NoDup entries.*1
    ∧ (∀ e, e ∈ entries →
         e.1 ∈ locations ∧ e.2 = occurrences e.1 locations ∧ 1 ≤ e.2)
    ∧ (∀ i j e1 e2, (i < j)%nat →
         entries !! i = Some e1 → entries !! j = Some e2 →
         e2.2 ≤ e1.2 ∧ (e1.2 = e2.2 → first_seen_before locations e1.1 e2.1))
    ∧ (∀ k, k ∈ locations → k ∉ entries.*1 →
         length entries = 10%nat
         ∧ ∀ e, e ∈ entries → occurrences k locations ≤ e.2).
Proof.
  intros Hne Hrs locations. rewrite (analyze_logs_report records Hne Hrs).
  exists (report_of records),
    (take 10 (sorted by_neg_count (counts locations))).
  split; [done|]. split; [done|].
  destruct (top_counts locations 10) as (Hnd & Hexact & Hout).
  split; [rewrite length_take; lia|]. split; [done|]. split; [done|].
  split; [|done].
  intros i j e1 e2 Hij [Hi _]%lookup_take_Some [Hj _]%lookup_take_Some.
  by apply (sorted_counts_order locations i j e1 e2).
Qed.

Lemma top_edge_locations_order_witness :
  let locations := (λ r, fld r (py "edge_location")) <$> sample_records in
  ∃ rep entries,
    @analyze_logs ascii_lower sample_records = Ok rep
    ∧ pget (py "top_edge_locations") rep
      = Some (PList (counted (py "location") <$> entries))
    ∧ (length entries ≤ 10)%nat
    ∧ NoDup entries.*1
    ∧ (∀ e, e ∈ entries →
         e.1 ∈ locations ∧ e.2 = occurrences e.1 locations ∧ 1 ≤ e.2)
    ∧ (∀ i j e1 e2, (i < j)%nat →
         entries !! i = Some e1 → entries !! j = Some e2 →
         e2.2 ≤ e1.2 ∧ (e1.2 = e2.2 → first_seen_before locations e1.1 e2.1))
    ∧ (∀ k, k ∈ locations → k ∉ entries.*1 →
         length entries = 10%nat
         ∧ ∀ e, e ∈ entries → occurrences k locations ≤ e.2).
Proof.
  apply (@top_edge_locations_order ascii_lower sample_records).
  - discriminate.
  - apply (bool_decide_unpack _). vm_compute. reflexivity.
Defined.

(** The browser histogram: its names are among the six, none twice; each
    count is the number of records classified under the name; the counts do
    not increase along the histogram and add up to the total. *)
Theorem browsers_section `{StrLower} (records : list record) :
  records ≠ [] → Forall has_fields records →
  let names := (λ r, classify_browser (fld r (py "user_agent"))) <$> records in
  ∃ rep hist,
    analyze_logs records = Ok rep
    ∧ pget (py "browsers") rep
      = Some (PDict ((λ x : str * Z, (x.1, PInt x.2)) <$> hist))
    ∧ NoDup hist.*1
    ∧ (∀ e, e ∈ hist →
         e.1 ∈ [py "Chrome"; py "Firefox"; py "Safari"; py "Edge"; py "Bot";
                py "Other"]
         ∧ e.2 = occurrences e.1 names ∧ 1 ≤ e.2)
    ∧ (∀ i j e1 e2, (i < j)%nat →
         hist !! i = Some e1 → hist !! j = Some e2 → e2.2 ≤ e1.2)
    ∧ sumZ hist.*2 = len records.
Proof.
  intros Hne Hrs names. rewrite (analyze_logs_report records Hne Hrs).
  exists (report_of records), (sorted by_neg_count (counts names)).
  split; [done|]. split; [done|].
  destruct (top_counts names (length (sorted by_neg_count (counts names))))
    as (Hnd & Hexact & _).
  rewrite take_ge in Hnd, Hexact by done.
  split; [done|]. split; [|split].
  - intros e He. destruct (Hexact e He) as (Hin & Hc & Hpos).
    split; [|done]. apply list_elem_of_fmap in Hin as (r & -> & _).
    apply classify_browser_name.
  - intros i j e1 e2 Hij Hi Hj.
    by apply (sorted_counts_order names i j e1 e2).
  - rewrite (sumZ_Permutation _ (counts names).*2) by (by rewrite sorted_Permutation).
    rewrite counts_sum. unfold names, len. by rewrite length_fmap.
Qed.

Lemma browsers_section_witness :
  let names :=
    (λ r, @classify_browser ascii_lower (fld r (py "user_agent")))
      <$> sample_records in
  ∃ rep hist,
    @analyze_logs ascii_lower sample_records = Ok rep
    ∧ pget (py "browsers") rep
      = Some (PDict ((λ x : str * Z, (x.1, PInt x.2)) <$> hist))
    ∧ NoDup hist.*1
    ∧ (∀ e, e ∈ hist →
         e.1 ∈ [py "Chrome"; py "Firefox"; py "Safari"; py "Edge"; py "Bot";
                py "Other"]
         ∧ e.2 = occurrences e.1 names ∧ 1 ≤ e.2)
    ∧ (∀ i j e1 e2, (i < j)%nat →
         hist !! i = Some e1 → hist !! j = Some e2 → e2.2 ≤ e1.2)
    ∧ sumZ hist.*2 = len sample_records.
Proof.
  apply (@browsers_section ascii_lower sample_records).
  - discriminate.
  - apply (bool_decide_unpack _). vm_compute. reflexivity.
Defined.

(** *** Report Renderer: the table of a report *)

Lemma subscript_assoc items k v :
  assoc k items = Some v → subscript (PDict items) k = Done v.
Proof. intros Hk. unfold subscript. by rewrite Hk. Qed.

Lemma comma_line_int label items k z :
  assoc k items = Some (PInt z) →
  comma_line label (PDict items) k = Done (label ++ int_comma z).
Proof. intros Hk. unfold comma_line. by rewrite (subscript_assoc _ _ _ Hk). Qed.

Lemma total_unique_text_counts {A} (items : list (str * pyval)) (k : str)
    (l : list A) (s : gset str) :
  assoc k items = Some (total_unique l s) →
  total_unique_text (PDict items) k
  = Done (int_comma (len l) ++ py " (" ++ int_comma (Z.of_nat (size s))
            ++ py " unique)").
Proof.
  intros Hk. unfold total_unique_text, item2.
  by rewrite (subscript_assoc _ _ _ Hk).
Qed.

Lemma mapM_Done {A B C} (f : B → run C) (h : A → B) (g : A → C)
    (l : list A) :
  (∀ x, f (h x) = Done (g x)) → mapM f (h <$> l) = Done (g <$> l).
Proof.
  intros Hf. induction l as [|x l IH]; [done|].
  cbn. rewrite Hf. cbn. by rewrite IH.
Qed.

Lemma mapM_Done_Forall2 {A B} (f : A → run B) (P : A → B → Prop)
    (l : list A) :
  Forall (λ x, ∃ y, f x = Done y ∧ P x y) l →
  ∃ l', mapM f l = Done l' ∧ Forall2 P l l'.
Proof.
  induction 1 as [|x l (y & Hx & HP) _ (l' & IH & Hall)]; [by exists []|].
  exists (y :: l'). cbn. rewrite Hx. cbn. rewrite IH. cbn.
  split; [done|by constructor].
Qed.

Lemma occurrences_le k keys : occurrences k keys ≤ len keys.
Proof.
  unfold occurrences, len. pose proof (length_filter (λ k', k' = k) keys). lia.
Qed.

Lemma page_line_counted x :
  ∀ `{PyFormat}, page_line (counted (py "path") x) = Done (page_text x).
Proof. intros ?. reflexivity. Qed.

Lemma day_line_stats (x : str * day) :
  day_line (x.1, PDict [(py "requests", PInt (requests x.2));
                        (py "unique_visitors", size_int (visitors x.2))])
  = Done (x.1 ++ py ": " ++ rjust 6 (int_str (requests x.2))
          ++ py " requests, "
          ++ rjust 5 (int_str (Z.of_nat (size (visitors x.2))))
          ++ py " unique").
Proof. reflexivity. Qed.

Lemma counts_bounds keys x :
  x ∈ sorted by_neg_count (counts keys) → 1 ≤ x.2 ≤ len keys.
Proof.
  intros Hx.
  destruct (top_counts keys (length (sorted by_neg_count (counts keys))))
    as (_ & Htop & _).
  rewrite take_ge in Htop by done.
  destruct (Htop x Hx) as (_ & -> & Hpos).
  split; [done|apply occurrences_le].
Qed.

Lemma clicks_line_report `{PyFormat} (l : list record) :
  clicks_line
    (PDict [(py "visit_store_clicks", total_unique l (visitors_of l));
            (py "note",
               match l with
               | [] => PStr (py "Requires /visit tracking endpoint")
               | _ :: _ => PNone
               end)])
  = Done (py "Visit store clicks: "
          ++ match l with
             | [] => py "Requires /visit tracking endpoint"
             | _ :: _ =>
                 int_comma (len l) ++ py " ("
                 ++ int_comma (Z.of_nat (size (visitors_of l)))
                 ++ py " unique)"
             end).
Proof. by destruct l. Qed.

Lemma last_fourteen_fmap {A B} (f : A → B) (l : list A) :
  last_fourteen (f <$> l) = f <$> last_fourteen l.
Proof. unfold last_fourteen. by rewrite length_fmap, fmap_drop. Qed.

Lemma browser_line_count `{PyFormat} (items : list (str * pyval)) t
    (x : str * Z) :
  assoc (py "total_requests") items = Some (PInt t) →
  0 ≤ x.2 ≤ t → 0 < t →
  ∃ p,
    percent x.2 t = Done p
    ∧ browser_line (PDict items) (x.1, PInt x.2)
      = Done (rjust 10 x.1 ++ py ": " ++ rjust 8 (int_str x.2) ++ py " ("
              ++ p ++ py "%)").
Proof.
  intros Ht Hx Hpos. destruct (percent_part x.2 t Hx Hpos) as [p Hp].
  exists p. split; [done|]. unfold browser_line.
  rewrite (subscript_assoc _ _ _ Ht). cbn [mbind run_bind percentage].
  destruct (Z.eqb_spec t 0) as [->|_]; [lia|]. by rewrite Hp.
Qed.

Lemma format_table_lines_report `{StrLower} `{PyFormat} (records : list record) :
  ∃ lines bl,
    format_table_lines (report_of records) = Done lines
    ∧ lines !! 26%nat
      = Some (py "Visit store clicks: "
              ++ match visit_clicks_of records with
                 | [] => py "Requires /visit tracking endpoint"
                 | _ :: _ =>
                     int_comma (len (visit_clicks_of records)) ++ py " ("
                     ++ int_comma
                          (Z.of_nat
                             (size (visitors_of (visit_clicks_of records))))
                     ++ py " unique)"
                 end)
    ∧ drop 27 lines
      = heading (py "TOP PAGES")
        ++ (page_text <$> take 10 (top_pages_of records))
        ++ heading (py "DAILY TRAFFIC")
        ++ ((λ x : str * day,
               x.1 ++ py ": " ++ rjust 6 (int_str (requests x.2))
               ++ py " requests, "
               ++ rjust 5 (int_str (Z.of_nat (size (visitors x.2))))
               ++ py " unique")
              <$> last_fourteen (sorted by_date (traffic records)))
        ++ heading (py "BROWSERS") ++ bl
    ∧ Forall2 (browser_text (len records))
        (sorted by_neg_count (counts (browser <$> records))) bl.
Proof.
  destruct (mapM_Done_Forall2
              (browser_line
                 (PDict [
                    (py "total_requests", PInt (len records));
                    (py "unique_visitors", size_int (visitors_of records));
                    (py "successful_requests",
                       len_int (where_ (py "status")
                                  (λ s, startswith s (py "2")
                                        || startswith s (py "3"))
                                  records));
                    (py "date_range",
                       PDict [(py "start", PStr (min_date records));
                              (py "end", PStr (max_date records))])]))
              (λ (x : str * pyval) line,
                 ∃ c, x.2 = PInt c ∧ browser_text (len records) (x.1, c) line)
              ((λ x : str * Z, (x.1, PInt x.2))
                 <$> sorted by_neg_count
                       (counts
                          ((λ r, classify_browser (fld r (py "user_agent")))
                             <$> records))))
    as (bl & Hbl & Hall).
  { apply Forall_fmap, Forall_forall. intros x Hx.
    apply counts_bounds in Hx. unfold len in Hx.
    rewrite length_fmap in Hx. fold (len records) in Hx.
    cbn [compose].
    match goal with
    | |- ∃ y, browser_line (PDict ?its) _ = _ ∧ _ =>
        destruct (browser_line_count its (len records) x eq_refl)
          as (p & Hp & Hline); [lia|lia|]
    end.
    eexists. split; [exact Hline|]. exists x.2. split; [done|].
    unfold browser_text. cbn [fst snd]. split; [lia|]. by exists p. }
  apply Forall2_fmap_l in Hall.
  eexists _, bl. split; [|split; [|split]].
  - unfold format_table_lines, report_of, item2.
    repeat first
      [ rewrite clicks_line_report
      | erewrite subscript_assoc by reflexivity
      | erewrite comma_line_int by reflexivity
      | erewrite total_unique_text_counts by reflexivity
      | progress cbn [mbind run_bind first_ten items] ].
    rewrite <- fmap_take.
    rewrite (mapM_Done page_line _ page_text) by done.
    cbn [mbind run_bind]. unfold daily_stats_of.
    rewrite last_fourteen_fmap.
    erewrite (mapM_Done day_line) by (intros x; apply day_line_stats).
    cbn [mbind run_bind]. rewrite Hbl. cbn [mbind run_bind]. reflexivity.
  - reflexivity.
  - cbn [heading]. rewrite <- !app_assoc. reflexivity.
  - eapply Forall2_impl; [exact Hall|].
    intros x line (c & Hc & Hline). cbn in Hc. injection Hc as <-.
    by destruct x.
Qed.

Lemma grouped_length {X V} (dflt : V) (g : X → V → V) (key : X → str) xs :
  length (grouped dflt g key [] xs) = distinct (key <$> xs).
Proof.
  unfold distinct. rewrite <- (length_fmap fst).
  rewrite <- (size_list_to_set (C := gset str))
    by apply grouped_keys_NoDup.
  f_equal. apply set_eq. intros k. rewrite !elem_of_list_to_set.
  apply grouped_keys_elem.
Qed.









Lemma traffic_elem rs (x : str * day) :
  x ∈ traffic rs →
  requests x.2 = len (on_date x.1 rs)
  ∧ visitors x.2 = visitors_of (on_date x.1 rs).
Proof.
  intros Hx. destruct x as [d st].
  apply (assoc_elem _ _ _ (traffic_keys_NoDup rs)) in Hx.
  rewrite traffic_assoc in Hx. cbn [fst snd].
  destruct (on_date d rs); [done|]. by injection Hx as <-.
Qed.

(** The section of the daily traffic shows the last fourteen dates of the
    report's [daily_stats], in their order, each with the number of records
    of that date and of their distinct visitors. *)
Theorem format_table_daily_traffic `{StrLower} `{PyFormat}
    (records : list record) :
  records ≠ [] → Forall has_fields records →
  ∃ rep lines stats before rest,
    analyze_logs records = Ok rep
    ∧ format_table rep = Done (join_lines lines)
    ∧ pget (py "daily_stats") rep = Some (PDict stats)
    ∧ lines
      = before ++ heading (py "DAILY TRAFFIC")
        ++ ((λ d, day_text d (on_date d records)) <$> last_fourteen stats.*1)
        ++ heading (py "BROWSERS") ++ rest
    ∧ length before = (30 + (10 `min` distinct (uri_stem <$> records)))%nat.
Proof.
  intros Hne Hrs. rewrite (analyze_logs_report records Hne Hrs).
  destruct (format_table_lines_report records)
    as (lines & bl & Hlines & H26 & Hdrop & _).
  exists (report_of records), lines, (daily_stats_of records),
    (take 27 lines ++ heading (py "TOP PAGES")
     ++ (page_text <$> take 10 (top_pages_of records))), bl.
  split; [done|]. split.
  { unfold format_table. by rewrite Hlines. }
  split; [done|]. split.
  - rewrite <- (take_drop 27 lines) at 1. rewrite Hdrop, <- !app_assoc.
    do 4 f_equal. unfold daily_stats_of.
    rewrite <- list_fmap_compose, last_fourteen_fmap, <- list_fmap_compose.
    f_equal. apply Forall_fmap_ext_1, Forall_forall. intros x Hx.
    assert (x ∈ traffic records) as Hx'.
    { rewrite <- (sorted_Permutation by_date).
      by apply (subseteq_drop _ _ x) in Hx. }
    destruct (traffic_elem records x Hx') as [Hreq Hvis].
    unfold day_text. cbn [compose fst]. by rewrite Hreq, Hvis.
  - apply lookup_lt_Some in H26.
    rewrite !length_app, length_take, length_fmap, length_take.
    unfold top_pages_of. rewrite length_take.
    rewrite (Permutation_length (sorted_Permutation _ _)).
    rewrite counts_grouped, grouped_length, list_fmap_id.
    cbn [heading length]. lia.
Qed.

Lemma format_table_daily_traffic_witness :
  ∃ rep lines stats before rest,
    @analyze_logs ascii_lower sixteen_days = Ok rep
    ∧ @format_table ascii_format rep = Done (join_lines lines)
    ∧ pget (py "daily_stats") rep = Some (PDict stats)
    ∧ lines
      = before ++ heading (py "DAILY TRAFFIC")
        ++ ((λ d, day_text d (on_date d sixteen_days))
              <$> last_fourteen stats.*1)
        ++ heading (py "BROWSERS") ++ rest
    ∧ length before
      = (30 + (10 `min` distinct (uri_stem <$> sixteen_days)))%nat.
Proof.
  apply (@format_table_daily_traffic ascii_lower ascii_format sixteen_days).
  - discriminate.
  - apply (bool_decide_unpack _). vm_compute. reflexivity.
Defined.

(** The table ends with a line for each entry of the report's [browsers],
    in their order: the name, its count, and the percentage of the count
    in the total of requests, a count between 1 and that total. *)
Theorem format_table_browsers `{StrLower} `{PyFormat}
    (records : list record) :
  records ≠ [] → Forall has_fields records →
  ∃ rep lines hist before browser_lines,
    analyze_logs records = Ok rep
    ∧ format_table rep = Done (join_lines lines)
    ∧ pget (py "browsers") rep
      = Some (PDict ((λ x : str * Z, (x.1, PInt x.2)) <$> hist))
    ∧ lines = before ++ heading (py "BROWSERS") ++ browser_lines
    ∧ Forall2 (browser_text (len records)) hist browser_lines.
Proof.
  intros Hne Hrs. rewrite (analyze_logs_report records Hne Hrs).
  destruct (format_table_lines_report records)
    as (lines & bl & Hlines & H26 & Hdrop & Hbl).
  eexists (report_of records), lines, _, _, bl.
  split; [done|]. split.
  { unfold format_table. by rewrite Hlines. }
  split; [reflexivity|]. split; [|exact Hbl].
  rewrite <- (take_drop 27 lines) at 1. rewrite Hdrop.
  rewrite !app_assoc. reflexivity.
Qed.

Lemma format_table_browsers_witness :
  ∃ rep lines hist before browser_lines,
    @analyze_logs ascii_lower sample_records = Ok rep
    ∧ @format_table ascii_format rep = Done (join_lines lines)
    ∧ pget (py "browsers") rep
      = Some (PDict ((λ x : str * Z, (x.1, PInt x.2)) <$> hist))
    ∧ lines = before ++ heading (py "BROWSERS") ++ browser_lines
    ∧ Forall2 (@browser_text ascii_format (len sample_records)) hist
        browser_lines.
Proof.
  apply (@format_table_browsers ascii_lower ascii_format sample_records).
  - discriminate.
  - apply (bool_decide_unpack _). vm_compute. reflexivity.
Defined.

(** The renderer does not read [top_edge_locations]: setting that entry
    of a report to any value changes neither the table nor the exception
    that the renderer raises. *)
Theorem format_table_ignores_edge_locations `{PyFormat}
    (items : list (str * pyval)) (v : pyval) :
  format_table
    (PDict (dict_update v (λ _, v) items (py "top_edge_locations")))
  = format_table (PDict items).
Proof.
  assert (∀ k, k ≠ py "top_edge_locations" →
            subscript
              (PDict (dict_update v (λ _, v) items (py "top_edge_locations")))
              k
            = subscript (PDict items) k) as Hk.
  { intros k Hne. unfold subscript. rewrite assoc_dict_update.
    by rewrite decide_False by done. }
  unfold format_table, format_table_lines.
  by rewrite !Hk by discriminate.
Qed.

(** *** Command line *)

Lemma format_table_error_report `{PyFormat} :
  format_table (PDict [(py "error", PStr (py "No log records found"))])
  = Fail (Exn (KeyError (py "summary"))).
Proof. reflexivity. Qed.

Lemma render_report `{StrLower} `{PyFormat} `{JsonDumps}
    (format : report_format) (records : list record) :
  ∃ text, render format (report_of records) = Done text.
Proof.
  destruct format; [by eexists|].
  destruct (format_table_lines_report records) as (lines & _ & Hlines & _).
  exists (join_lines lines). cbn [render]. unfold format_table.
  by rewrite Hlines.
Qed.

Lemma main_cases `{StrLower} `{DateTime} `{PyFormat} `{JsonDumps}
    (now : datetime) (logs_dir : option (list dir_entry))
    (write_text : str → str → option exn) (args : arguments) :
  (logs_dir = None
   ∧ main now logs_dir write_text args
     = {| stderr := [NoLogsDirectory]; stdout := []; written := [];
          ended := Some (SystemExit 1) |})
  ∨ (∃ entries e,
       logs_dir = Some entries
       ∧ load_logs now entries (Some (arg_days args)) = Raise e
       ∧ main now logs_dir write_text args
         = {| stderr := [LoadingLogs]; stdout := []; written := [];
              ended := Some (Exn e) |})
  ∨ (∃ entries warnings,
       logs_dir = Some entries
       ∧ load_logs now entries (Some (arg_days args)) = Ok ([], warnings)
       ∧ arg_format args = Table
       ∧ main now logs_dir write_text args
         = {| stderr :=
                [LoadingLogs] ++ (could_not_read <$> warnings) ++ [Loaded 0];
              stdout := []; written := [];
              ended := Some (Exn (KeyError (py "summary"))) |})
  ∨ (∃ entries records warnings rep text,
       logs_dir = Some entries
       ∧ load_logs now entries (Some (arg_days args)) = Ok (records, warnings)
       ∧ analyze_logs records = Ok rep
       ∧ render (arg_format args) rep = Done text
       ∧ (records = [] → arg_format args = Json)
       ∧ main now logs_dir write_text args
         = deliver write_text args
             ([LoadingLogs] ++ (could_not_read <$> warnings)
              ++ [Loaded (len records)]) text).
Proof.
  destruct logs_dir as [entries|]; [|by left].
  right. unfold main.
  destruct (load_logs now entries (Some (arg_days args)))
    as [[records warnings]|e] eqn:Hload; [|left; by exists entries, e].
  right. pose proof (load_logs_has_fields _ _ _ _ _ Hload) as Hrs.
  destruct records as [|r records].
  - cbn [analyze_logs lift mbind run_bind].
    destruct (arg_format args) eqn:Hformat.
    + right. eexists entries, [], warnings, _, _. cbn [render].
      split; [done|]. split; [done|]. split; [done|]. split; [done|].
      split; [done|]. reflexivity.
    + left. exists entries, warnings. cbn [render].
      rewrite format_table_error_report. done.
  - right. rewrite (analyze_logs_report (r :: records)) by done.
    cbn [lift mbind run_bind].
    destruct (render_report (arg_format args) (r :: records)) as [text Ht].
    rewrite Ht. eexists entries, (r :: records), warnings, _, text.
    split; [done|]. split; [done|].
    split; [by apply analyze_logs_report|]. split; [exact Ht|].
    split; [done|]. reflexivity.
Qed.

(** When the loader returns no record, the command in table format ends
    with [KeyError('summary')] after its messages, and prints nothing to
    stdout; in JSON format without an output file it prints the error
    marker and returns. *)
Theorem main_no_records `{StrLower} `{DateTime} `{PyFormat} `{JsonDumps}
    (now : datetime) (entries : list dir_entry)
    (write_text : str → str → option exn) (args : arguments)
    (warnings : list (str * exn)) :
  load_logs now entries (Some (arg_days args)) = Ok ([], warnings) →
  let err := [LoadingLogs] ++ (could_not_read <$> warnings) ++ [Loaded 0] in
  (arg_format args = Table →
   main now (Some entries) write_text args
   = {| stderr := err; stdout := []; written := [];
        ended := Some (Exn (KeyError (py "summary"))) |})
  ∧ (arg_format args = Json → arg_output args = None →
     main now (Some entries) write_text args
     = {| stderr := err;
          stdout :=
            [json_dumps (PDict [(py "error",
                                 PStr (py "No log records found"))])];
          written := []; ended := None |}).
Proof.
  intros Hload err. unfold main. rewrite Hload.
  cbn [analyze_logs lift mbind run_bind]. split.
  - intros ->. cbn [render]. by rewrite format_table_error_report.
  - intros -> Hout. cbn [render]. unfold deliver. by rewrite Hout.
Qed.

Lemma main_no_records_witness :
  @main ascii_lower gregorian ascii_format indented_json sample_now
    (Some old_dir) no_write_error table_args
  = {| stderr := [LoadingLogs; Loaded 0]; stdout := []; written := [];
       ended := Some (Exn (KeyError (py "summary"))) |}.
Proof.
  apply (@main_no_records ascii_lower gregorian ascii_format indented_json
           sample_now old_dir no_write_error table_args []).
  - vm_compute. reflexivity.
  - reflexivity.
Defined.

(** When the loader returns a record, the command in table format
    prints the table of the report to stdout when no output file is given,
    and writes it to the file, with a message on stderr, when one is given
    and is written without error. *)
Theorem main_table_report `{StrLower} `{DateTime} `{PyFormat} `{JsonDumps}
    (now : datetime) (entries : list dir_entry)
    (write_text : str → str → option exn) (args : arguments)
    (records : list record) (warnings : list (str * exn)) :
  load_logs now entries (Some (arg_days args)) = Ok (records, warnings) →
  records ≠ [] → arg_format args = Table →
  let err :=
    [LoadingLogs] ++ (could_not_read <$> warnings) ++ [Loaded (len records)] in
  ∃ rep text,
    analyze_logs records = Ok rep
    ∧ format_table rep = Done text
    ∧ (arg_output args = None →
       main now (Some entries) write_text args
       = {| stderr := err; stdout := [text]; written := [];
            ended := None |})
    ∧ (∀ path, arg_output args = Some path → path ≠ [] →
         write_text path text = None →
         main now (Some entries) write_text args
         = {| stderr := err ++ [ReportWritten path]; stdout := [];
              written := [(path, text)]; ended := None |}).
Proof.
  intros Hload Hne Hformat err.
  pose proof (load_logs_has_fields _ _ _ _ _ Hload) as Hrs.
  destruct (format_table_lines_report records) as (lines & _ & Hlines & _).
  exists (report_of records), (join_lines lines).
  split; [by apply analyze_logs_report|].
  assert (format_table (report_of records) = Done (join_lines lines)) as Ht.
  { unfold format_table. by rewrite Hlines. }
  split; [done|].
  unfold main. rewrite Hload, (analyze_logs_report records Hne Hrs), Hformat.
  cbn [lift mbind run_bind render]. rewrite Ht. unfold deliver. split.
  - by intros ->.
  - intros path -> Hpath Hw. rewrite Hw. by destruct path.
Qed.

Lemma main_table_report_witness :
  ∃ rep text,
    @analyze_logs ascii_lower
      [sample_record "2026-11-03" "1.2.3.6" "/api/events" "200" "curl" "-"]
    = Ok rep
    ∧ @format_table ascii_format rep = Done text
    ∧ (arg_output table_args = None →
       @main ascii_lower gregorian ascii_format indented_json sample_now
         (Some sample_dir) no_write_error table_args
       = {| stderr :=
              [LoadingLogs] ++ [CouldNotRead (py "E1.2026-11-03.gz") OSError]
              ++ [Loaded 1];
            stdout := [text]; written := []; ended := None |})
    ∧ (∀ path, arg_output table_args = Some path → path ≠ [] →
         no_write_error path text = None →
         @main ascii_lower gregorian ascii_format indented_json sample_now
           (Some sample_dir) no_write_error table_args
         = {| stderr :=
                ([LoadingLogs]
                 ++ [CouldNotRead (py "E1.2026-11-03.gz") OSError]
                 ++ [Loaded 1]) ++ [ReportWritten path];
              stdout := []; written := [(path, text)]; ended := None |}).
Proof.
  apply (@main_table_report ascii_lower gregorian ascii_format indented_json
           sample_now sample_dir no_write_error table_args
           [sample_record "2026-11-03" "1.2.3.6" "/api/events" "200" "curl"
              "-"]
           [(py "E1.2026-11-03.gz", OSError)]).
  - vm_compute. reflexivity.
  - discriminate.
  - reflexivity.
Defined.



(** A run of the command that returns has loaded the records, and has
    sent the rendering of their report either to stdout, when no output
    file or an empty name is given, or to the output file, never to
    both. *)
Theorem main_output_routing `{StrLower} `{DateTime} `{PyFormat} `{JsonDumps}
    (now : datetime) (logs_dir : option (list dir_entry))
    (write_text : str → str → option exn) (args : arguments) :
  ended (main now logs_dir write_text args) = None →
  ∃ entries records warnings rep text,
    logs_dir = Some entries
    ∧ load_logs now entries (Some (arg_days args)) = Ok (records, warnings)
    ∧ analyze_logs records = Ok rep
    ∧ render (arg_format args) rep = Done text
    ∧ ((stdout (main now logs_dir write_text args) = [text]
        ∧ written (main now logs_dir write_text args) = []
        ∧ (arg_output args = None ∨ arg_output args = Some []))
       ∨ (∃ path,
            arg_output args = Some path ∧ path ≠ []
            ∧ write_text path text = None
            ∧ stdout (main now logs_dir write_text args) = []
            ∧ written (main now logs_dir write_text args) = [(path, text)])).
Proof.
  destruct (main_cases now logs_dir write_text args)
    as [[-> ->]|[(entries & e' & -> & Hload & ->)
       |[(entries & warnings & -> & Hload & Hformat & ->)
        |(entries & records & warnings & rep & text & -> & Hload & Hrep
          & Hrender & _ & ->)]]]; [done|done|done|].
  intros Hend. exists entries, records, warnings, rep, text.
  split; [done|]. split; [done|]. split; [done|]. split; [done|].
  unfold deliver in *. destruct (arg_output args) as [path|]; [|by left; auto].
  destruct path as [|c path]; [by left; auto|]. cbn [str_truthy] in *.
  destruct (write_text (c :: path) text) as [e'|] eqn:Hw; [done|].
  right. by exists (c :: path).
Qed.

Lemma main_output_routing_witness :
  ∃ entries records warnings rep text,
    Some sample_dir = Some entries
    ∧ @load_logs gregorian sample_now entries (Some (arg_days table_args))
      = Ok (records, warnings)
    ∧ @analyze_logs ascii_lower records = Ok rep
    ∧ @render ascii_format indented_json (arg_format table_args) rep
      = Done text
    ∧ ((stdout (@main ascii_lower gregorian ascii_format indented_json
                  sample_now (Some sample_dir) no_write_error table_args)
        = [text]
        ∧ written (@main ascii_lower gregorian ascii_format indented_json
                     sample_now (Some sample_dir) no_write_error table_args)
          = []
        ∧ (arg_output table_args = None ∨ arg_output table_args = Some []))
       ∨ (∃ path,
            arg_output table_args = Some path ∧ path ≠ []
            ∧ no_write_error path text = None
            ∧ stdout (@main ascii_lower gregorian ascii_format indented_json
                        sample_now (Some sample_dir) no_write_error
                        table_args) = []
            ∧ written (@main ascii_lower gregorian ascii_format
                         indented_json sample_now (Some sample_dir)
                         no_write_error table_args) = [(path, text)])).
Proof.
  apply (@main_output_routing ascii_lower gregorian ascii_format
           indented_json sample_now (Some sample_dir) no_write_error
           table_args).
  vm_compute. reflexivity.
Defined.
